(** * Wirefish: ICMP codec, socket helpers and traceroute engine

    A shallow embedding of [src/tracer/icmp.c], of the traceroute engine
    ([tracer_run], [tracer_append]) and of the socket helpers of [net.c]
    ([net_resolve], [net_tcp_connect], [net_set_ttl], [net_icmp_raw_socket]),
    then of [timeutil.c], of [log.c] and of the rolling window and the
    sample series of [monitor.c], followed by the properties established
    about them.

    Conventions.
    - Memory is a [list byte]; a C pointer that may be [NULL] is an [option].
    - C integers are [Z]; every conversion that can lose bits is written out
      ([uint16], [uint32], [int_of_long]).
    - The kernel and the C library are an explicit environment: each system
      call reads its result from a record, so that the functions are total
      and executable. *)

From Stdlib Require Import String.
From Stdlib Require Import ZArith List Bool Lia.
From Stdlib Require Import Strings.Byte.
Import ListNotations.

Local Open Scope Z_scope.

(* ================================================================= *)
(** ** Bytes, machine words and byte order *)

(** Byte order of the host executing the code.  [icmp_checksum] reads the
    buffer through a [uint16_t *], hence in host order, whereas the
    identifier and the sequence number go through [htons]. *)
Inductive byte_order : Set :=
| LittleEndian
| BigEndian.

Definition Z_of_byte (b : byte) : Z := Z.of_N (Byte.to_N b).

Definition byte_of_Z (z : Z) : byte :=
  match Byte.of_N (Z.to_N (z mod 256)) with
  | Some b => b
  | None => x00
  end.

(** Conversions to the fixed-width unsigned types. *)
Definition uint16 (z : Z) : Z := z mod 65536.
Definition uint32 (z : Z) : Z := z mod 4294967296.

(** [(int)] applied to a [long]: two's complement truncation to 32 bits. *)
Definition int_of_long (z : Z) : Z :=
  (z + 2147483648) mod 4294967296 - 2147483648.

(** The 16-bit value denoted by two adjacent bytes read through a
    [uint16_t *] on a host of order [o]. *)
Definition word16 (o : byte_order) (b0 b1 : byte) : Z :=
  match o with
  | LittleEndian => Z_of_byte b0 + 256 * Z_of_byte b1
  | BigEndian => 256 * Z_of_byte b0 + Z_of_byte b1
  end.

(** The two bytes a host of order [o] stores for the 16-bit value [v]. *)
Definition bytes16 (o : byte_order) (v : Z) : list byte :=
  match o with
  | LittleEndian => [byte_of_Z v; byte_of_Z (v / 256)]
  | BigEndian => [byte_of_Z (v / 256); byte_of_Z v]
  end.

(** [htons]: host to network (big-endian) order. *)
Definition htons (o : byte_order) (v : Z) : Z :=
  match o with
  | LittleEndian => 256 * (v mod 256) + (v / 256) mod 256
  | BigEndian => v
  end.

(** Overwrite [length src] bytes of [buf] from offset [off] on
    ([memset], [memcpy] and scalar stores all go through it). *)
Definition write_bytes (buf : list byte) (off : nat) (src : list byte)
  : list byte :=
  firstn off buf ++ src ++ skipn (off + length src) buf.

Definition store16 (o : byte_order) (buf : list byte) (off : nat) (v : Z)
  : list byte :=
  write_bytes buf off (bytes16 o v).

Definition load8 (buf : list byte) (off : nat) : Z :=
  Z_of_byte (nth off buf x00).

Definition load16 (o : byte_order) (buf : list byte) (off : nat) : Z :=
  word16 o (nth off buf x00) (nth (S off) buf x00).

(* ================================================================= *)
(** ** icmp.c *)

Module Icmp.

(** Constants of [<netinet/ip_icmp.h>] and [<netinet/ip.h>]. *)
Definition ICMP_ECHO : Z := 8.
Definition ICMP_ECHOREPLY : Z := 0.
Definition sizeof_icmphdr : nat := 8.
Definition sizeof_iphdr : nat := 20.

(** The first loop and the odd-byte step of [icmp_checksum]: [sum] is a
    [uint32_t], so every addition wraps modulo 2^32.  The leftover byte is
    stored in the first byte of a zeroed [uint16_t]. *)
Fixpoint sum_words (o : byte_order) (data : list byte) (sum : Z) : Z :=
  match data with
  | b0 :: b1 :: rest => sum_words o rest (uint32 (sum + word16 o b0 b1))
  | [b] => uint32 (sum + word16 o b x00)
  | [] => sum
  end.

(** One pass of [while (sum >> 16) sum = (sum & 0xFFFF) + (sum >> 16);]. *)
Definition fold_step (sum : Z) : Z :=
  uint32 (Z.land sum 65535 + Z.shiftr sum 16).

(** The folding loop, with a bound on the number of passes. *)
Fixpoint fold_carries (fuel : nat) (sum : Z) : Z :=
  match fuel with
  | O => sum
  | S fuel' =>
      if Z.shiftr sum 16 =? 0 then sum
      else fold_carries fuel' (fold_step sum)
  end.

(** A 32-bit sum needs at most two passes ([fold_carries_done] below);
    the bound used is the width of the accumulator. *)
Definition fold_fuel : nat := 32.

(** [uint16_t icmp_checksum(const void *buf, size_t len)] *)
Definition icmp_checksum (o : byte_order) (buf : list byte) (len : nat) : Z :=
  let sum := sum_words o (firstn len buf) 0 in
  let sum := fold_carries fold_fuel sum in
  uint16 (uint32 (Z.lnot sum)).

(** [int icmp_build_echo(uint16_t id, uint16_t seq, const void *payload,
                         size_t payload_len, unsigned char *out,
                         size_t *out_len)]

    [out] is the content of the caller's buffer before the call ([None] for
    a null pointer) and [out_len] the content of [*out_len].  The result is
    the return value and the two objects after the call.  The arguments
    [id] and [seq] are converted to [uint16_t] on entry. *)
Definition icmp_build_echo (o : byte_order) (id seq : Z)
    (payload : option (list byte)) (payload_len : nat)
    (out : option (list byte)) (out_len : option nat)
  : Z * option (list byte) * option nat :=
  match out, out_len with
  | Some buf, Some _ =>
      let id := uint16 id in
      let seq := uint16 seq in
      let total_len := (sizeof_icmphdr + payload_len)%nat in
      (* memset(hdr, 0, sizeof *hdr) *)
      let buf := write_bytes buf 0 (repeat x00 sizeof_icmphdr) in
      (* hdr->type = ICMP_ECHO; hdr->code = 0 *)
      let buf := write_bytes buf 0 [byte_of_Z ICMP_ECHO] in
      let buf := write_bytes buf 1 [byte_of_Z 0] in
      (* hdr->un.echo.id = htons(id); hdr->un.echo.sequence = htons(seq) *)
      let buf := store16 o buf 4 (htons o id) in
      let buf := store16 o buf 6 (htons o seq) in
      (* memcpy(out + sizeof(struct icmphdr), payload, payload_len) *)
      let buf :=
        match payload with
        | Some p =>
            if (0 <? payload_len)%nat
            then write_bytes buf sizeof_icmphdr (firstn payload_len p)
            else buf
        | None => buf
        end in
      (* hdr->checksum = 0; hdr->checksum = icmp_checksum(out, total_len) *)
      let buf := store16 o buf 2 0 in
      let buf := store16 o buf 2 (icmp_checksum o buf total_len) in
      (0, Some buf, Some total_len)
  | _, _ => (-1, out, out_len)
  end.

(** [int icmp_parse_response(const void *packet, size_t len,
                             const char *expected_ip, int *out_type)]

    [out_type] is the content of [*out_type] before the call ([None] for a
    null pointer); the result is the return value and [*out_type] after the
    call.  [iph->ihl] is the low nibble of the first byte of the buffer. *)
Definition icmp_parse_response (packet : option (list byte)) (len : nat)
    (expected_ip : string) (out_type : option Z) : Z * option Z :=
  match packet, out_type with
  | Some buf, Some _ =>
      if (len <? sizeof_iphdr)%nat then (-1, Some (-1))
      else
        let ihl := Z.land (load8 buf 0) 15 in
        let iphdr_len := Z.to_nat (ihl * 4) in
        if (len <? iphdr_len + sizeof_icmphdr)%nat then (-1, Some (-1))
        else (0, Some (load8 buf iphdr_len))
  | _, _ => (-1, out_type)
  end.

End Icmp.

(* ================================================================= *)
(** ** The operating system as seen by the code *)

(** An address as filled in by the resolver ([struct sockaddr_storage]
    together with its length). *)
Definition sockaddr : Set := list byte.

Definition nl : string := String (Ascii.ascii_of_nat 10) EmptyString.

(** What the code writes on [stderr]. *)
Inductive diag : Set :=
| Line (text : string)                     (* fprintf(stderr, text) *)
| Perror (prefix : string) (errnum : Z)    (* perror(prefix) under errno *)
| DnsError (host : string) (status : Z).   (* net_resolve's message *)

(** Effects of a run that are visible from outside the process. *)
Inductive effect : Set :=
| SocketOpened (fd : Z)
| SocketClosed (fd : Z)
| TtlSet (fd ttl : Z)
| Sendto (fd : Z) (pkt : list byte) (dest : sockaddr) (ret : Z)
| Stderr (d : diag).

(** The part of the process state the helpers update: [errno] and the
    effects so far, oldest first. *)
Record os_state : Set := mk_os { errno : Z; trace : list effect }.

Definition emit (e : effect) (st : os_state) : os_state :=
  mk_os (errno st) (trace st ++ [e]).

Definition set_errno (e : Z) (st : os_state) : os_state :=
  mk_os e (trace st).

Definition perror (prefix : string) (st : os_state) : os_state :=
  emit (Stderr (Perror prefix (errno st))) st.

Definition fprintf_stderr (text : string) (st : os_state) : os_state :=
  emit (Stderr (Line text)) st.

(** [close(fd)]; it is taken to succeed. *)
Definition close (fd : Z) (st : os_state) : os_state :=
  emit (SocketClosed fd) st.

(** The answer of the kernel to one call: the value returned and the value
    given to [errno] when the call fails. *)
Record sys_reply : Set := mk_reply { ret : Z; err : Z }.

Definition syscall (r : sys_reply) (st : os_state) : Z * os_state :=
  (ret r, if ret r <? 0 then set_errno (err r) st else st).

(** [socket(...)]: a successful call yields a new descriptor. *)
Definition sys_socket (r : sys_reply) (st : os_state) : Z * os_state :=
  let (fd, st) := syscall r st in
  (fd, if fd <? 0 then st else emit (SocketOpened fd) st).

(** Values of [<errno.h>] on Linux. *)
Definition EPERM : Z := 1.
Definition ECONNREFUSED : Z := 111.
Definition EINPROGRESS : Z := 115.

(* ================================================================= *)
(** ** net.c *)

Module Net.

(** Answer of [getaddrinfo]: its status and the first address of the
    result list. *)
Record resolver_reply : Set :=
  mk_resolver { gai_status : Z; ai_addr : sockaddr }.

(** [int net_resolve(const char *host, struct sockaddr_storage *out,
                     socklen_t *outlen)]

    [out] is the content of the caller's address before the call; the
    result carries its content after the call. *)
Definition net_resolve (r : resolver_reply) (host : string)
    (out : option sockaddr) (st : os_state)
  : Z * option sockaddr * os_state :=
  let status := gai_status r in
  if negb (status =? 0)
  then (-1, out, emit (Stderr (DnsError host status)) st)
  else (0, Some (ai_addr r), st).

(** Answers of the calls made by [net_tcp_connect], in program order. *)
Record connect_env : Set := mk_connect_env {
  c_socket : sys_reply;
  c_getfl : sys_reply;
  c_setfl : sys_reply;
  c_connect : sys_reply;
  c_select : sys_reply;
  c_getsockopt : sys_reply;
  c_so_error : Z              (* value stored in [error] by getsockopt *)
}.

(** [int net_tcp_connect(const struct sockaddr *sa, socklen_t slen,
                         int timeout_ms)] *)
Definition net_tcp_connect (env : connect_env) (sa : sockaddr)
    (timeout_ms : Z) (st : os_state) : Z * os_state :=
  let (sockfd, st) := sys_socket (c_socket env) st in
  if sockfd <? 0 then (-1, perror "socket" st)
  else
    let (flags, st) := syscall (c_getfl env) st in
    if flags <? 0 then (-1, close sockfd (perror "fcntl F_GETFL" st))
    else
      let (r, st) := syscall (c_setfl env) st in
      if r <? 0 then (-1, close sockfd (perror "fcntl F_SETFL" st))
      else
        let (result, st) := syscall (c_connect env) st in
        if result =? 0 then (sockfd, st)
        else if negb (errno st =? EINPROGRESS) then (-1, close sockfd st)
        else
          let (result, st) := syscall (c_select env) st in
          if result <=? 0 then (-1, close sockfd st)
          else
            let error := 0 in
            let (r, st) := syscall (c_getsockopt env) st in
            if r <? 0 then (-1, close sockfd st)
            else
              let error := c_so_error env in
              if negb (error =? 0) then (-1, close sockfd st)
              else (sockfd, st).

(** [int net_set_ttl(int sockfd, int ttl)] *)
Definition net_set_ttl (setsockopt : sys_reply) (sockfd ttl : Z)
    (st : os_state) : Z * os_state :=
  let (r, st) := syscall setsockopt (emit (TtlSet sockfd ttl) st) in
  if r <? 0 then (-1, perror "setsockopt IP_TTL" st)
  else (0, st).

(** [int net_icmp_raw_socket()] *)
Definition net_icmp_raw_socket (socket : sys_reply) (st : os_state)
  : Z * os_state :=
  let (sockfd, st) := sys_socket socket st in
  if sockfd <? 0 then
    if errno st =? EPERM then
      let st := fprintf_stderr
        ("Error: ICMP raw socket requires root privileges" ++ nl) st in
      let st := fprintf_stderr
        ("       Run with: sudo ./wirefish --trace ..." ++ nl) st in
      (-1, st)
    else (-1, perror "socket IPPROTO_ICMP" st)
  else (sockfd, st).

End Net.

(* ================================================================= *)
(** ** cli.h and model.h *)

Inductive cli_mode : Set := MODE_NONE | MODE_SCAN | MODE_TRACE | MODE_MONITOR.

Record CommandLine : Set := mk_cli {
  show_help : bool;
  json : bool;
  csv : bool;
  target : string;
  iface : string;
  ports_from : Z;
  ports_to : Z;
  ttl_start : Z;
  ttl_max : Z;
  interval_ms : Z;
  mode : cli_mode
}.

Record Hop : Set := mk_hop {
  hop : Z;
  host : string;
  ip : string;
  rtt_ms : Z;
  timeout : bool
}.

(** [rows] is [None] for a null pointer; otherwise it holds the [len]
    elements written so far. *)
Record TraceRoute : Set := mk_route {
  rows : option (list Hop);
  len : nat;
  cap : nat
}.

(* ================================================================= *)
(** ** The traceroute engine *)

Module Tracer.

Import Icmp Net.

Definition ICMP_ID : Z := 4660.   (* 0x1234 *)
Definition ICMP_SEQ : Z := 1.

(** What the outside world answers while one TTL value is probed. *)
Record probe_reply : Set := mk_probe {
  p_setsockopt : sys_reply;   (* setsockopt(IP_TTL) in net_set_ttl *)
  p_tstart : Z;               (* now_ms() before sendto *)
  p_sendto : sys_reply;
  p_select : Z;               (* value returned by select *)
  p_recvfrom : Z;             (* value returned by recvfrom *)
  p_recvbuf : list byte;      (* recvbuf after recvfrom *)
  p_reply_ip : string;        (* inet_ntop of the sender's address *)
  p_tend : Z                  (* now_ms() after recvfrom *)
}.

(** The environment of one run.  The loop probes a TTL value at most once,
    so the answers are indexed by it. *)
Record environment : Type := mk_env {
  e_resolver : resolver_reply;
  e_raw_socket : sys_reply;
  e_probe : Z -> probe_reply
}.

(** [memset(&x, 0, sizeof x)] on the two structures. *)
Definition empty_route : TraceRoute := mk_route None 0 0.
Definition zero_hop : Hop := mk_hop 0 "" "" 0 false.

(** [rows[i] = h] *)
Definition set_row (l : list Hop) (i : nat) (h : Hop) : list Hop :=
  firstn i l ++ h :: skipn (S i) l.

(** [static void tracer_append(TraceRoute *route, const Hop *h)];
    [realloc] is taken to succeed and keeps the elements. *)
Definition tracer_append (route : TraceRoute) (h : Hop) : TraceRoute :=
  let route :=
    if (len route =? cap route)%nat then
      let newcap := if (cap route =? 0)%nat then 16%nat
                    else (cap route * 2)%nat in
      mk_route (Some (match rows route with Some l => l | None => [] end))
               (len route) newcap
    else route in
  mk_route (option_map (fun l => set_row l (len route) h) (rows route))
           (S (len route)) (cap route).

(** The hop recorded when nothing usable was received. *)
Definition timeout_hop (ttl : Z) : Hop :=
  mk_hop ttl "?" "*" (-1) true.

(** The value of [icmp_type] after
    [icmp_parse_response(recvbuf, n, h.ip, &icmp_type)], the variable being
    initialised to 0 and the return value ignored. *)
Definition parsed_type (p : probe_reply) : Z :=
  match snd (icmp_parse_response (Some (p_recvbuf p))
               (Z.to_nat (p_recvfrom p)) (p_reply_ip p) (Some 0)) with
  | Some t => t
  | None => 0
  end.

(** The hop recorded for a received datagram. *)
Definition reply_hop (ttl : Z) (p : probe_reply) : Hop :=
  mk_hop ttl (p_reply_ip p) (p_reply_ip p)
         (int_of_long (p_tend p - p_tstart p)) false.

(** The [for] loop of [tracer_run] followed by the code after it.
    [turns] is the number of values of [ttl] left before
    [ttl <= cfg->ttl_max] fails, so [O] is the exit of the loop; [ttl] is
    an [int] kept in [Z], exact as long as [ttl_max < INT_MAX] (beyond,
    [ttl++] overflows and C leaves the program undefined).  [pkt] is
    rebuilt at every turn; its 64 bytes are indeterminate before
    [icmp_build_echo] writes the 8 that are sent. *)
Fixpoint tracer_loop (o : byte_order) (env : environment) (sa : sockaddr)
    (sockfd : Z) (turns : nat) (ttl : Z) (out : TraceRoute) (st : os_state)
  : Z * TraceRoute * os_state :=
  match turns with
  | O => (0, out, close sockfd st)
  | S turns' =>
      let p := e_probe env ttl in
      let (_, st) := net_set_ttl (p_setsockopt p) sockfd ttl st in
      match icmp_build_echo o ICMP_ID ttl None 0
              (Some (repeat x00 64)) (Some 0%nat) with
      | (r, Some pkt, Some pktlen) =>
          if r <? 0 then
            (-1, out,
             close sockfd
               (fprintf_stderr ("Error: ICMP packet build failed" ++ nl) st))
          else
            let tstart := p_tstart p in
            let (sent, st) := syscall (p_sendto p) st in
            let st := emit (Sendto sockfd (firstn pktlen pkt) sa sent) st in
            if sent <? 0 then (-1, out, close sockfd (perror "sendto" st))
            else
              let sel := p_select p in
              if sel =? 0 then
                tracer_loop o env sa sockfd turns' (ttl + 1)
                  (tracer_append out (timeout_hop ttl)) st
              else
                let n := p_recvfrom p in
                if n <? 0 then
                  tracer_loop o env sa sockfd turns' (ttl + 1)
                    (tracer_append out (timeout_hop ttl)) st
                else
                  let icmp_type := parsed_type p in
                  let out := tracer_append out (reply_hop ttl p) in
                  if icmp_type =? ICMP_ECHOREPLY
                  then (0, out, close sockfd st)
                  else tracer_loop o env sa sockfd turns' (ttl + 1) out st
      | _ =>
          (-1, out,
           close sockfd
             (fprintf_stderr ("Error: ICMP packet build failed" ++ nl) st))
      end
  end.

(** [int tracer_run(const CommandLine *cfg, TraceRoute *out)]

    [out] is the content of the caller's structure before the call. *)
Definition tracer_run (o : byte_order) (env : environment)
    (cfg : CommandLine) (out : TraceRoute) (st : os_state)
  : Z * TraceRoute * os_state :=
  let out := empty_route in
  match net_resolve (e_resolver env) (target cfg) None st with
  | (r, target_addr, st) =>
      if negb (r =? 0) then
        (-1, out,
         fprintf_stderr
           ("Error: Failed to resolve target '" ++ target cfg ++ "'" ++ nl)
           st)
      else
        let (sockfd, st) := net_icmp_raw_socket (e_raw_socket env) st in
        if sockfd <? 0 then (-1, out, st)
        else
          tracer_loop o env
            (match target_addr with Some a => a | None => [] end)
            sockfd
            (Z.to_nat (ttl_max cfg - ttl_start cfg + 1))
            (ttl_start cfg) out st
  end.

End Tracer.

(* ================================================================= *)
(** ** timeutil.c, and the clock of the traceroute engine *)

Module Timeutil.

Record timeval : Set := mk_timeval { tv_sec : Z; tv_usec : Z }.

(** [struct timespec]; its fields are [tv_sec] and [tv_nsec] in C. *)
Record timespec : Set := mk_timespec { ts_sec : Z; ts_nsec : Z }.

Definition EINTR : Z := 4.

(** [(long)] applied to a [long long]: truncation to 64 bits. *)
Definition long_of (z : Z) : Z :=
  (z + 9223372036854775808) mod 18446744073709551616
  - 9223372036854775808.

(** [long ms_now(void)]; the argument is what [gettimeofday] returns and
    stores.  [/] on C integers truncates towards zero. *)
Definition ms_now (gettimeofday : Z * timeval) : Z :=
  let (r, tv) := gettimeofday in
  if negb (r =? 0) then -1
  else long_of (tv_sec tv * 1000 + Z.quot (tv_usec tv) 1000).

(** [long ms_diff(long start_ms, long end_ms)] *)
Definition ms_diff (start_ms end_ms : Z) : Z := end_ms - start_ms.

(** What one call of [nanosleep(&req, &req)] answers: its result and, when
    it is interrupted, the time left that it stores in [req]. *)
Record nanosleep_reply : Set :=
  mk_nanosleep { ns_reply : sys_reply; ns_rem : timespec }.

(** The loop of [ms_sleep].  The answers of the successive calls are a
    list; [None] is returned when the list ends before the loop does.
    [asked] collects the requests passed to [nanosleep]. *)
Fixpoint sleep_loop (replies : list nanosleep_reply) (req : timespec)
    (st : os_state) (asked : list timespec)
  : option Z * list timespec * os_state :=
  match replies with
  | [] => (None, asked, st)
  | r :: replies' =>
      let asked := asked ++ [req] in
      let (v, st) := syscall (ns_reply r) st in
      if v =? -1 then
        if negb (errno st =? EINTR) then (Some (-1), asked, st)
        else sleep_loop replies' (ns_rem r) st asked
      else (Some 0, asked, st)
  end.

(** [int ms_sleep(int ms)] *)
Definition ms_sleep (replies : list nanosleep_reply) (ms : Z)
    (st : os_state) : option Z * list timespec * os_state :=
  if ms <? 0 then (Some (-1), [], st)
  else
    let req := mk_timespec (Z.quot ms 1000) (Z.rem ms 1000 * 1000000) in
    sleep_loop replies req st [].

(** [static long now_ms()] of tracer.c, on the time [gettimeofday]
    stores (its result is not looked at). *)
Definition now_ms (tv : timeval) : Z :=
  tv_sec tv * 1000 + Z.quot (tv_usec tv) 1000.

End Timeutil.

(* ================================================================= *)
(** ** log.c *)

Module Log.

Inductive LogLevel : Set := LOG_DEBUG | LOG_INFO | LOG_WARN | LOG_ERROR.

(** The value of an enumerator. *)
Definition level_value (l : LogLevel) : Z :=
  match l with
  | LOG_DEBUG => 0
  | LOG_INFO => 1
  | LOG_WARN => 2
  | LOG_ERROR => 3
  end.

(** The static [currentLevel] and what has been written on [stderr]. *)
Record log_state : Set :=
  mk_log { currentLevel : LogLevel; log_stderr : string }.

(** The state when the program starts. *)
Definition log_start : log_state := mk_log LOG_INFO "".

Definition log_set_level (chosenLevel : LogLevel) (st : log_state)
  : log_state :=
  mk_log chosenLevel (log_stderr st).

(** [write_log_message]; [text] is what [vfprintf] makes of the format and
    its arguments. *)
Definition write_log_message (messageLevel : LogLevel) (tag text : string)
    (st : log_state) : log_state :=
  if level_value messageLevel <? level_value (currentLevel st) then st
  else
    mk_log (currentLevel st)
           (log_stderr st ++ "[" ++ tag ++ "] " ++ text ++ nl).

Definition log_debug (text : string) (st : log_state) : log_state :=
  write_log_message LOG_DEBUG "debug : " text st.

Definition log_info (text : string) (st : log_state) : log_state :=
  write_log_message LOG_INFO "Info : " text st.

Definition log_warn (text : string) (st : log_state) : log_state :=
  write_log_message LOG_WARN "warn : " text st.

Definition log_error (text : string) (st : log_state) : log_state :=
  write_log_message LOG_ERROR "error : " text st.

End Log.

(* ================================================================= *)
(** ** monitor.c: the rolling window and the sample series *)

Module Monitor.

Definition WINDOW_SIZE : nat := 10.

(** [double] is kept abstract: the ring buffer only stores, and the
    average is written over the two operations it applies. *)
Record RingBuffer (double : Type) : Type := mk_ring {
  values : list double;
  size : nat;
  head : nat;
  count : nat
}.

Arguments mk_ring {double} _ _ _ _.
Arguments values {double} _.
Arguments size {double} _.
Arguments head {double} _.
Arguments count {double} _.

(** [a[i] = v] *)
Definition store_at {A : Type} (a : list A) (i : nat) (v : A) : list A :=
  firstn i a ++ v :: skipn (S i) a.

(** [static RingBuffer* ringbuf_create(size_t size)]; the two booleans say
    whether [malloc] and [calloc] succeed, [zero] is 0.0. *)
Definition ringbuf_create {double : Type} (zero : double)
    (malloc_ok calloc_ok : bool) (size : nat) : option (RingBuffer double) :=
  if negb malloc_ok then None
  else if negb calloc_ok then None
  else Some (mk_ring (repeat zero size) size 0 0).

(** [static void ringbuf_push(RingBuffer *rb, double value)] *)
Definition ringbuf_push {double : Type} (rb : RingBuffer double)
    (value : double) : RingBuffer double :=
  mk_ring (store_at (values rb) (head rb) value)
          (size rb)
          ((head rb + 1) mod size rb)
          (if (count rb <? size rb)%nat then S (count rb) else count rb).

(** [static double ringbuf_average(const RingBuffer *rb)]; [add] is [+] on
    doubles and [div_count] the division by a [size_t]. *)
Definition ringbuf_average {double : Type} (zero : double)
    (add : double -> double -> double) (div_count : double -> nat -> double)
    (rb : RingBuffer double) : double :=
  if (count rb =? 0)%nat then zero
  else div_count (fold_left add (firstn (count rb) (values rb)) zero)
                 (count rb).

Record IfaceStats (double : Type) : Type := mk_stats {
  iface : string;
  rx_bytes : Z;
  tx_bytes : Z;
  rx_rate_bps : double;
  tx_rate_bps : double;
  rx_avg_bps : double;
  tx_avg_bps : double
}.

(** [samples] is [None] for a null pointer; otherwise it holds the [len]
    elements written so far. *)
Record MonitorSeries (sample : Type) : Type := mk_series {
  samples : option (list sample);
  len : nat;
  cap : nat
}.

Arguments mk_series {sample} _ _ _.
Arguments samples {sample} _.
Arguments len {sample} _.
Arguments cap {sample} _.

(** [static void monitor_append(MonitorSeries *series,
                                const IfaceStats *stats)]

    [series] is [None] for a null pointer; [realloc_ok] says whether
    [realloc], if it is called, succeeds. *)
Definition monitor_append {sample : Type} (realloc_ok : bool)
    (series : option (MonitorSeries sample)) (stats : sample)
  : option (MonitorSeries sample) :=
  match series with
  | None => None
  | Some s =>
      let put (s : MonitorSeries sample) :=
        mk_series (option_map (fun a => store_at a (len s) stats)
                              (samples s))
                  (S (len s)) (cap s) in
      if (len s =? cap s)%nat then
        let newcap := if (cap s =? 0)%nat then 16%nat
                      else (cap s * 2)%nat in
        if negb realloc_ok then Some s
        else
          Some (put (mk_series
                       (Some (match samples s with
                              | Some a => a
                              | None => []
                              end))
                       (len s) newcap))
      else Some (put s)
  end.

(** [void monitorseries_free(MonitorSeries *series)] *)
Definition monitorseries_free {sample : Type}
    (series : option (MonitorSeries sample))
  : option (MonitorSeries sample) :=
  match series with
  | None => None
  | Some _ => Some (mk_series None 0 0)
  end.

End Monitor.

(* ================================================================= *)
(** ** The RFC 1071 checksum as the specification words it *)

Module Rfc1071.

(** The 16-bit words of the data, summed; a trailing odd byte is padded
    with a zero byte.  No accumulator width is involved. *)
Fixpoint word_total (o : byte_order) (data : list byte) : Z :=
  match data with
  | b0 :: b1 :: rest => word16 o b0 b1 + word_total o rest
  | [b] => word16 o b x00
  | [] => 0
  end.

(** The carry above bit 16 is added back into the low 16 bits, until no
    carry remains. *)
Fixpoint end_around (fuel : nat) (s : Z) : Z :=
  match fuel with
  | O => s
  | S fuel' =>
      if s <? 65536 then s
      else end_around fuel' (s mod 65536 + s / 65536)
  end.

(** Every pass but the last two shortens the sum by a bit or more, so its
    bit length bounds the number of passes ([end_around_no_carry]). *)
Definition passes (s : Z) : nat := Z.to_nat (Z.log2 s) + 2.

Definition checksum (o : byte_order) (data : list byte) : Z :=
  let s := word_total o data in
  Z.land (Z.lnot (end_around (passes s) s)) 65535.

End Rfc1071.

(* ================================================================= *)
(** ** Vocabulary for the statements about [icmp_build_echo] *)

Section EchoVocabulary.

Import Icmp.

(** The bytes that follow the header in the buffer after the call: the
    payload when one is copied, and what the buffer held before
    otherwise. *)
Definition echo_body (payload : option (list byte)) (n : nat)
    (buf : list byte) : list byte :=
  match payload with
  | Some p => if (0 <? n)%nat then firstn n p else firstn n (skipn 8 buf)
  | None => firstn n (skipn 8 buf)
  end.

(** An echo request whose checksum field holds the bytes [cksum]. *)
Definition echo_message (cksum : list byte) (id seq : Z) (body : list byte)
  : list byte :=
  byte_of_Z ICMP_ECHO :: byte_of_Z 0 :: cksum ++
  [byte_of_Z (uint16 id / 256); byte_of_Z (uint16 id);
   byte_of_Z (uint16 seq / 256); byte_of_Z (uint16 seq)] ++ body.

(** The calls the C function is defined on: the output buffer holds the
    whole message and the payload holds [payload_len] bytes. *)
Definition buffers_fit (payload : option (list byte)) (payload_len : nat)
    (out : list byte) : bool :=
  (sizeof_icmphdr + payload_len <=? length out)%nat
  && match payload with
     | Some p => (payload_len <=? length p)%nat
     | None => true
     end.

End EchoVocabulary.

(* ================================================================= *)
(** ** Vocabulary for the statements about the socket helpers *)

Section NetVocabulary.

Import Net.

(** The outcomes the specification names for a bounded connect. *)
Inductive connect_outcome : Set :=
| Connected
| Refused
| Filtered
| SystemError.

(** [errno] when [connect] has returned, for a run started in [st]. *)
Definition errno_after_connect (env : connect_env) (st : os_state) : Z :=
  if ret (c_connect env) <? 0 then err (c_connect env) else errno st.

(** The runs on which [net_tcp_connect] hands back the descriptor. *)
Definition connect_succeeds (env : connect_env) (st : os_state) : bool :=
  (0 <=? ret (c_socket env))
  && (0 <=? ret (c_getfl env))
  && (0 <=? ret (c_setfl env))
  && ((ret (c_connect env) =? 0)
      || ((errno_after_connect env st =? EINPROGRESS)
          && (0 <? ret (c_select env))
          && (0 <=? ret (c_getsockopt env))
          && (c_so_error env =? 0))).

(** The two lines printed when the raw socket is refused for lack of
    privilege. *)
Definition privilege_diag : list effect :=
  [Stderr (Line ("Error: ICMP raw socket requires root privileges" ++ nl));
   Stderr (Line ("       Run with: sudo ./wirefish --trace ..." ++ nl))].

End NetVocabulary.

(* ================================================================= *)
(** ** Vocabulary for the statements about the traceroute engine *)

Section TracerVocabulary.

Import Icmp Net Tracer.

(** The hops recorded in a route, oldest first. *)
Definition hops_of (route : TraceRoute) : list Hop :=
  match rows route with
  | Some l => firstn (len route) l
  | None => []
  end.

(** Representation invariant of the growable table. *)
Definition route_wf (route : TraceRoute) : Prop :=
  (len route <= cap route)%nat
  /\ match rows route with
     | Some l => length l = len route
     | None => len route = 0%nat /\ cap route = 0%nat
     end.

(** The datagram handed to [sendto] while [ttl] is probed. *)
Definition probe_packet (o : byte_order) (ttl : Z) : list byte :=
  match icmp_build_echo o ICMP_ID ttl None 0
          (Some (repeat x00 64)) (Some 0%nat) with
  | (_, Some pkt, Some pktlen) => firstn pktlen pkt
  | _ => []
  end.

(** The process state once the probe for [ttl] has been handed to
    [sendto]. *)
Definition probe_sent (o : byte_order) (env : environment) (sa : sockaddr)
    (sockfd ttl : Z) (st : os_state) : os_state :=
  let p := e_probe env ttl in
  let st := snd (net_set_ttl (p_setsockopt p) sockfd ttl st) in
  let st := snd (syscall (p_sendto p) st) in
  emit (Sendto sockfd (probe_packet o ttl) sa (ret (p_sendto p))) st.

(** No usable answer came back for the probe. *)
Definition no_reply (p : probe_reply) : bool :=
  (p_select p =? 0) || (p_recvfrom p <? 0).

(** The probe for [ttl] is handed to the network and what comes back, if
    anything, is not an Echo Reply: the loop goes on to the next value. *)
Definition continues (env : environment) (ttl : Z) : bool :=
  let p := e_probe env ttl in
  (0 <=? ret (p_sendto p))
  && (no_reply p || negb (parsed_type p =? ICMP_ECHOREPLY)).

(** The datagrams handed to [sendto], oldest first. *)
Fixpoint sent_packets (tr : list effect) : list (list byte) :=
  match tr with
  | [] => []
  | Sendto _ pkt _ _ :: tr' => pkt :: sent_packets tr'
  | _ :: tr' => sent_packets tr'
  end.

(** Type, code, identifier and sequence number of an ICMP echo header, the
    16-bit fields being in network order. *)
Definition echo_fields (pkt : list byte) : Z * Z * Z * Z :=
  (load8 pkt 0, load8 pkt 1,
   256 * load8 pkt 4 + load8 pkt 5,
   256 * load8 pkt 6 + load8 pkt 7).

End TracerVocabulary.

(* ================================================================= *)
(** ** Sample inputs *)

Section Samples.

Import Icmp Net Tracer.

(** A resolved address and the state of a process that has done nothing
    yet. *)
Definition sample_dest : sockaddr :=
  [x02; x00; x00; x50; xc0; x00; x02; x01].
Definition fresh_os : os_state := mk_os 0 [].

(** A connect left in progress on descriptor 3 ... *)
Definition pending_connect (select getsockopt : sys_reply) (so_error : Z)
  : connect_env :=
  mk_connect_env (mk_reply 3 0) (mk_reply 2 0) (mk_reply 0 0)
                 (mk_reply (-1) EINPROGRESS) select getsockopt so_error.

(** ... whose wait elapses with no event, *)
Definition env_filtered : connect_env :=
  pending_connect (mk_reply 0 0) (mk_reply 0 0) 0.

(** ... or ends with the peer's refusal pending on the socket. *)
Definition env_refused : connect_env :=
  pending_connect (mk_reply 1 0) (mk_reply 0 0) ECONNREFUSED.

(** ... or ends with the connection established. *)
Definition env_accepted : connect_env :=
  pending_connect (mk_reply 1 0) (mk_reply 0 0) 0.

(** A process that has used up its descriptors: [socket] fails with
    [EMFILE]. *)
Definition EMFILE : Z := 24.
Definition env_no_descriptor : connect_env :=
  mk_connect_env (mk_reply (-1) EMFILE) (mk_reply 2 0) (mk_reply 0 0)
                 (mk_reply (-1) EINPROGRESS) (mk_reply 1 0) (mk_reply 0 0) 0.

(** The input used to exercise the statements about [icmp_build_echo]: a
    five-byte payload and a 64-byte output buffer filled with [0xff]. *)
Definition sample_payload : list byte := [x77; x69; x72; x65; x66].
Definition sample_out : list byte := repeat xff 64.

(** An IPv4 header without options (version 4, five words) followed by an
    ICMP Time Exceeded header (type 11). *)
Definition sample_ip_rest : list byte := repeat x00 19.
Definition sample_icmp_rest : list byte := repeat x00 7.
Definition sample_datagram : list byte :=
  x45 :: sample_ip_rest ++ x0b :: sample_icmp_rest.

(** A run against a host two routers away: the first router answers Time
    Exceeded, the second stays silent, the host answers the third probe
    with an Echo Reply. *)
Definition datagram_of_type (t : byte) : list byte :=
  x45 :: repeat x00 19 ++ t :: repeat x00 7.

Definition silent_probe : probe_reply :=
  mk_probe (mk_reply 0 0) 100 (mk_reply 8 0) 0 0 [] "" 0.

Definition unsent_probe : probe_reply :=
  mk_probe (mk_reply 0 0) 100 (mk_reply (-1) 101) 0 0 [] "" 0.

Definition router_probe : probe_reply :=
  mk_probe (mk_reply 0 0) 100 (mk_reply 8 0) 1 28
           (datagram_of_type x0b) "10.0.0.1" 105.

Definition host_probe : probe_reply :=
  mk_probe (mk_reply 0 0) 100 (mk_reply 8 0) 1 28
           (datagram_of_type x00) "192.0.2.1" 107.

Definition sample_env : environment :=
  mk_env (mk_resolver 0 sample_dest) (mk_reply 3 0)
         (fun ttl => if ttl =? 1 then router_probe
                     else if ttl =? 2 then silent_probe
                     else host_probe).

(** The same path with the network going down before the second probe. *)
Definition failing_env : environment :=
  mk_env (mk_resolver 0 sample_dest) (mk_reply 3 0)
         (fun ttl => if ttl =? 1 then router_probe else unsent_probe).

Definition sample_cfg : CommandLine :=
  mk_cli false false false "192.0.2.1" "" 1 1024 1 30 1000 MODE_TRACE.

(** A configuration whose TTL range is empty. *)
Definition reversed_cfg : CommandLine :=
  mk_cli false false false "192.0.2.1" "" 1 1024 5 1 1000 MODE_TRACE.

(** A table left over from an earlier run. *)
Definition stale_route : TraceRoute :=
  mk_route (Some [mk_hop 1 "10.9.9.9" "10.9.9.9" 3 false]) 1 16.

(** An environment in which the target does not resolve, and one in which
    the raw socket is refused. *)
Definition unresolved_env : environment :=
  mk_env (mk_resolver (-2) []) (mk_reply 3 0) (fun _ => silent_probe).
Definition unprivileged_env : environment :=
  mk_env (mk_resolver 0 sample_dest) (mk_reply (-1) EPERM)
         (fun _ => silent_probe).

End Samples.

(* ================================================================= *)
(** ** Vocabulary for the further statements about the ICMP codec *)

Section CodecVocabulary.

Import Icmp.

(** [buf[i] = b] *)
Definition set_byte (buf : list byte) (i : nat) (b : byte) : list byte :=
  write_bytes buf i [b].

(** The weight of the byte at offset [i] in the 16-bit word it belongs to,
    as a host of order [o] reads that word. *)
Definition byte_weight (o : byte_order) (i : nat) : Z :=
  match o, Nat.even i with
  | LittleEndian, true | BigEndian, false => 1
  | LittleEndian, false | BigEndian, true => 256
  end.

(** A 16-bit value with its two bytes exchanged. *)
Definition swap16 (v : Z) : Z := 256 * (v mod 256) + v / 256.

End CodecVocabulary.

(* ================================================================= *)
(** ** Vocabulary for the further statements about the traceroute engine *)

Section EngineVocabulary.

Import Icmp Net Tracer.

(** The hop recorded for [ttl], as the answers of the environment decide
    it. *)
Definition recorded_hop (env : environment) (ttl : Z) : Hop :=
  let p := e_probe env ttl in
  if no_reply p then timeout_hop ttl else reply_hop ttl p.

(** Descriptors opened and closed, oldest first. *)
Fixpoint sockets_opened (tr : list effect) : list Z :=
  match tr with
  | [] => []
  | SocketOpened fd :: tr' => fd :: sockets_opened tr'
  | _ :: tr' => sockets_opened tr'
  end.

Fixpoint sockets_closed (tr : list effect) : list Z :=
  match tr with
  | [] => []
  | SocketClosed fd :: tr' => fd :: sockets_closed tr'
  | _ :: tr' => sockets_closed tr'
  end.

(** The values returned by the calls of [sendto], oldest first. *)
Fixpoint send_results (tr : list effect) : list Z :=
  match tr with
  | [] => []
  | Sendto _ _ _ r :: tr' => r :: send_results tr'
  | _ :: tr' => send_results tr'
  end.

(** Sizes a table grown by doubling from 16 can have. *)
Definition grown (len cap : nat) : Prop :=
  (len = 0 /\ cap = 0)%nat
  \/ exists k : nat,
       (cap = 16 * 2 ^ k /\ len <= cap /\ (k = 0 \/ cap < 2 * len))%nat.

(** The [k] values of [ttl] probed from [ttl] on. *)
Definition ttls_from (ttl : Z) (k : nat) : list Z :=
  map (fun i => ttl + Z.of_nat i) (seq 0 k).

(** The number of values of [ttl] in the range of a configuration. *)
Definition ttl_count (cfg : CommandLine) : nat :=
  Z.to_nat (ttl_max cfg - ttl_start cfg + 1).

(** How a run of the loop over [n] values that probed [k] of them ends: on
    return 0 either every value was probed or the last answer was an Echo
    Reply; on return -1 the next [sendto] failed, [bad] being what it
    returned. *)
Definition loop_end (env : environment) (n : nat) (ttl : Z) (k : nat)
    (r : Z) (bad : list Z) : Prop :=
  (r = 0 /\ bad = []
   /\ (k = n
       \/ exists j, k = S j
            /\ no_reply (e_probe env (ttl + Z.of_nat j)) = false
            /\ parsed_type (e_probe env (ttl + Z.of_nat j)) = ICMP_ECHOREPLY))
  \/ (r = -1
      /\ bad = [ret (p_sendto (e_probe env (ttl + Z.of_nat k)))]
      /\ ret (p_sendto (e_probe env (ttl + Z.of_nat k))) < 0).

(** The environment [env] with [setsockopt] answering [f ttl] while [ttl]
    is probed. *)
Definition with_setsockopt (f : Z -> sys_reply) (env : environment)
  : environment :=
  mk_env (e_resolver env) (e_raw_socket env)
    (fun ttl =>
       let p := e_probe env ttl in
       mk_probe (f ttl) (p_tstart p) (p_sendto p) (p_select p)
                (p_recvfrom p) (p_recvbuf p) (p_reply_ip p) (p_tend p)).

End EngineVocabulary.

(* ================================================================= *)
(** ** Vocabulary for the statements about the clock and the sleep *)

Section TimeVocabulary.

Import Timeutil.

(** A time as [gettimeofday] stores it: not before the epoch, the
    microseconds below one second. *)
Definition timeval_wf (tv : timeval) : Prop :=
  0 <= tv_sec tv /\ 0 <= tv_usec tv < 1000000.

(** The microseconds since the epoch that a [timeval] denotes. *)
Definition micros (tv : timeval) : Z := tv_sec tv * 1000000 + tv_usec tv.

(** The nanoseconds a [timespec] denotes. *)
Definition nanos (ts : timespec) : Z := ts_sec ts * 1000000000 + ts_nsec ts.

(** A call of [nanosleep] cut short by a signal. *)
Definition interrupted (r : nanosleep_reply) : Prop :=
  ret (ns_reply r) = -1 /\ err (ns_reply r) = EINTR.

End TimeVocabulary.

(* ================================================================= *)
(** ** Vocabulary for the statements about the log *)

Section LogVocabulary.

Import Log.

(** One call of the logging interface: the function called, named by its
    level, and the text that [vfprintf] makes of its arguments. *)
Definition log_call : Set := (LogLevel * string)%type.

Definition log_call_run (c : log_call) (st : log_state) : log_state :=
  match fst c with
  | LOG_DEBUG => log_debug (snd c) st
  | LOG_INFO => log_info (snd c) st
  | LOG_WARN => log_warn (snd c) st
  | LOG_ERROR => log_error (snd c) st
  end.

(** A sequence of calls, oldest first. *)
Definition log_calls_run (calls : list log_call) (st : log_state)
  : log_state :=
  fold_left (fun st c => log_call_run c st) calls st.

(** The line a call writes when it is not filtered out. *)
Definition log_line (c : log_call) : string :=
  let tag := match fst c with
             | LOG_DEBUG => "debug : "
             | LOG_INFO => "Info : "
             | LOG_WARN => "warn : "
             | LOG_ERROR => "error : "
             end%string in
  ("[" ++ tag ++ "] " ++ snd c ++ nl)%string.

Definition log_lines (calls : list log_call) : string :=
  fold_right (fun c s => (log_line c ++ s)%string) ""%string calls.

(** The calls a level lets through. *)
Definition passes_level (l : LogLevel) (c : log_call) : bool :=
  level_value l <=? level_value (fst c).

End LogVocabulary.

(* ================================================================= *)
(** ** Vocabulary for the statements about the monitor *)

Section MonitorVocabulary.

Import Monitor.

(** The last [n] elements of a list. *)
Definition lastn {A : Type} (n : nat) (l : list A) : list A :=
  skipn (length l - n) l.

(** [l] is [m] with some elements left out, the order being kept. *)
Inductive subseq {A : Type} : list A -> list A -> Prop :=
| subseq_nil : subseq [] []
| subseq_skip (x : A) (l m : list A) : subseq l m -> subseq l (x :: m)
| subseq_keep (x : A) (l m : list A) : subseq l m -> subseq (x :: l) (x :: m).

Context {double : Type}.

(** The values pushed one after the other, oldest first. *)
Definition ringbuf_pushes (xs : list double) (rb : RingBuffer double)
  : RingBuffer double :=
  fold_left ringbuf_push xs rb.

(** The invariant of the buffer: read from [head], wrapping round, the
    array holds the last [size] elements of the history. *)
Definition ring_holds (rb : RingBuffer double) (hist : list double) : Prop :=
  (head rb < size rb)%nat
  /\ length (values rb) = size rb
  /\ (size rb <= length hist)%nat
  /\ skipn (head rb) (values rb) ++ firstn (head rb) (values rb)
     = lastn (size rb) hist.

Context {sample : Type}.

(** The samples a series holds, oldest first. *)
Definition stored_samples (s : MonitorSeries sample) : list sample :=
  match samples s with
  | Some a => firstn (Monitor.len s) a
  | None => []
  end.

(** Representation invariant of the series. *)
Definition series_wf (s : MonitorSeries sample) : Prop :=
  (Monitor.len s <= Monitor.cap s)%nat
  /\ match samples s with
     | Some a => length a = Monitor.len s
     | None => Monitor.len s = 0%nat /\ Monitor.cap s = 0%nat
     end.

(** Samples offered one after the other, each with the answer [realloc]
    gives if the append calls it. *)
Definition monitor_appends (steps : list (bool * sample))
    (series : option (MonitorSeries sample))
  : option (MonitorSeries sample) :=
  fold_left (fun s step => monitor_append (fst step) s (snd step))
            steps series.

End MonitorVocabulary.

(* ================================================================= *)
(** ** Further sample inputs *)

Section MoreSamples.

Import Icmp Net Tracer Timeutil Monitor.

(** The sample datagram followed by a byte the kernel did not count. *)
Definition padded_datagram : list byte := sample_datagram ++ [xff].

(** Two readings of the clock, 5999 microseconds apart. *)
Definition sample_t0 : timeval := mk_timeval 0 100000.
Definition sample_t1 : timeval := mk_timeval 0 105999.

(** A sleep of a second and a half that a signal cuts short once, 400 ms
    before its end. *)
Definition sleep_cut : nanosleep_reply :=
  mk_nanosleep (mk_reply (-1) EINTR) (mk_timespec 0 400000000).
Definition sleep_done : nanosleep_reply :=
  mk_nanosleep (mk_reply 0 0) (mk_timespec 0 0).

(** Twelve rates, two more than the window of the monitor holds. *)
Definition sample_rates : list Z :=
  [10; 20; 30; 40; 50; 60; 70; 80; 90; 100; 110; 120].

(** A series before its first sample, and three samples of which the
    first meets a failing [realloc]. *)
Definition empty_series : MonitorSeries Z := mk_series None 0 0.
Definition sample_steps : list (bool * Z) :=
  [(false, 1); (true, 2); (true, 3)].

End MoreSamples.

(* ================================================================= *)
(** * Properties *)

(** ** Tactics and generalities *)

(** Case analysis on every comparison the code makes. *)
Ltac split_tests :=
  repeat
    (match goal with
     | |- context [Z.ltb ?a ?b] => destruct (Z.ltb_spec a b)
     | |- context [Z.leb ?a ?b] => destruct (Z.leb_spec a b)
     | |- context [Z.eqb ?a ?b] => destruct (Z.eqb_spec a b)
     end;
     cbn [negb andb orb fst snd errno trace set_errno emit close perror] in *).

Lemma triple_eta (A B C : Type) (x : A * B * C) :
  x = (fst (fst x), snd (fst x), snd x).
Proof. destruct x as [[a b] c]. reflexivity. Qed.

(** ** Bytes and words *)

Lemma Z_of_byte_range (b : byte) : 0 <= Z_of_byte b < 256.
Proof.
  unfold Z_of_byte. pose proof (Byte.to_N_bounded b). lia.
Qed.

Lemma Z_of_byte_of_Z (z : Z) : Z_of_byte (byte_of_Z z) = z mod 256.
Proof.
  unfold Z_of_byte, byte_of_Z.
  pose proof (Z.mod_pos_bound z 256 ltac:(lia)) as Hz.
  destruct (Byte.of_N (Z.to_N (z mod 256))) as [b|] eqn:E.
  - apply Byte.to_of_N in E. rewrite E. apply Z2N.id. lia.
  - apply Byte.of_N_None_iff in E. lia.
Qed.

Lemma byte_of_Z_congr (x y : Z) :
  x mod 256 = y mod 256 -> byte_of_Z x = byte_of_Z y.
Proof.
  unfold byte_of_Z. intros ->. reflexivity.
Qed.

Lemma word16_range (o : byte_order) (b0 b1 : byte) :
  0 <= word16 o b0 b1 < 65536.
Proof.
  pose proof (Z_of_byte_range b0). pose proof (Z_of_byte_range b1).
  destruct o; unfold word16; lia.
Qed.

(** Reading back the two bytes stored for [v] gives [v] as a [uint16_t]. *)
Lemma word16_bytes16 (o : byte_order) (v : Z) (a b : byte) :
  bytes16 o v = [a; b] -> word16 o a b = uint16 v.
Proof.
  unfold uint16.
  destruct o; unfold bytes16, word16; intros E; injection E as <- <-;
    rewrite !Z_of_byte_of_Z; Z.div_mod_to_equations; lia.
Qed.

Lemma bytes16_length (o : byte_order) (v : Z) : length (bytes16 o v) = 2%nat.
Proof. destruct o; reflexivity. Qed.

(** [htons] followed by a host-order store lays the value out most
    significant byte first, whatever the host. *)
Lemma bytes16_htons (o : byte_order) (v : Z) :
  bytes16 o (htons o v) = [byte_of_Z (v / 256); byte_of_Z v].
Proof.
  destruct o; unfold bytes16, htons; [|reflexivity].
  assert (H1 : (256 * (v mod 256) + (v / 256) mod 256) mod 256
               = (v / 256) mod 256).
  { rewrite Z.add_comm, Z.mul_comm, Z.mod_add by lia.
    apply Z.mod_mod. lia. }
  assert (H2 : (256 * (v mod 256) + (v / 256) mod 256) / 256 = v mod 256).
  { rewrite Z.add_comm, Z.mul_comm, Z.div_add by lia.
    rewrite Z.div_small; [lia | apply Z.mod_pos_bound; lia]. }
  rewrite (byte_of_Z_congr _ _ H1), H2.
  rewrite (byte_of_Z_congr (v mod 256) v) by (apply Z.mod_mod; lia).
  reflexivity.
Qed.

Lemma uint32_range (z : Z) : 0 <= uint32 z < 4294967296.
Proof. unfold uint32. apply Z.mod_pos_bound. lia. Qed.

Lemma uint32_small (z : Z) : 0 <= z < 4294967296 -> uint32 z = z.
Proof. unfold uint32. intros. apply Z.mod_small. lia. Qed.

Lemma uint32_add_l (a b : Z) : uint32 (uint32 a + b) = uint32 (a + b).
Proof. unfold uint32. apply Zplus_mod_idemp_l. Qed.

(** Lists taken two elements at a time, as the summing loop does. *)
Lemma list_pair_ind (A : Type) (P : list A -> Prop) :
  P [] ->
  (forall a, P [a]) ->
  (forall a b l, P l -> P (a :: b :: l)) ->
  forall l, P l.
Proof.
  intros H0 H1 H2 l.
  enough (P l /\ forall a, P (a :: l)) by tauto.
  induction l as [|x l [IH1 IH2]]; split; auto.
Qed.

(* ================================================================= *)
(** ** The checksum routine *)

Section Checksum.

Import Icmp.

Variable o : byte_order.

Lemma word_total_nonneg (data : list byte) : 0 <= Rfc1071.word_total o data.
Proof.
  induction data as [| b | b0 b1 rest IH] using list_pair_ind;
    cbn [Rfc1071.word_total].
  - lia.
  - pose proof (word16_range o b x00). lia.
  - pose proof (word16_range o b0 b1). lia.
Qed.

(** A buffer of [n] bytes holds at most [(n + 1) / 2] words. *)
Lemma word_total_bound (data : list byte) :
  2 * Rfc1071.word_total o data <= 65535 * (Z.of_nat (length data) + 1).
Proof.
  induction data as [| b | b0 b1 rest IH] using list_pair_ind;
    cbn [Rfc1071.word_total length].
  - lia.
  - pose proof (word16_range o b x00). lia.
  - pose proof (word16_range o b0 b1). lia.
Qed.

(** The summing loop computes the sum of the words modulo 2^32. *)
Lemma sum_words_total (data : list byte) :
  forall acc, 0 <= acc < 4294967296 ->
    sum_words o data acc = uint32 (acc + Rfc1071.word_total o data).
Proof.
  induction data as [| b | b0 b1 rest IH] using list_pair_ind;
    intros acc Hacc; cbn [sum_words Rfc1071.word_total].
  - rewrite Z.add_0_r, uint32_small; auto.
  - reflexivity.
  - rewrite IH by apply uint32_range.
    rewrite uint32_add_l. f_equal. lia.
Qed.

(** *** The folding loop *)

Lemma shiftr16_eqb (s : Z) :
  0 <= s -> (Z.shiftr s 16 =? 0) = (s <? 65536).
Proof.
  intros Hs. rewrite Z.shiftr_div_pow2 by lia.
  change (2 ^ 16) with 65536.
  destruct (Z.ltb_spec s 65536) as [Hlt | Hge].
  - apply Z.eqb_eq. apply Z.div_small. lia.
  - apply Z.eqb_neq. intros H0.
    pose proof (Z.div_le_mono 65536 s 65536 ltac:(lia) Hge) as Hd.
    rewrite Z.div_same in Hd; lia.
Qed.

Lemma fold_step_eq (s : Z) :
  0 <= s < 4294967296 -> fold_step s = s mod 65536 + s / 65536.
Proof.
  intros Hs. unfold fold_step.
  change 65535 with (Z.ones 16).
  rewrite Z.land_ones, Z.shiftr_div_pow2 by lia.
  change (2 ^ 16) with 65536.
  apply uint32_small. Z.div_mod_to_equations. lia.
Qed.

Lemma fold_carries_small (fuel : nat) (s : Z) :
  0 <= s < 65536 -> fold_carries fuel s = s.
Proof.
  intros Hs. destruct fuel as [|fuel]; [reflexivity|].
  cbn [fold_carries]. rewrite shiftr16_eqb by lia.
  destruct (Z.ltb_spec s 65536); [reflexivity | lia].
Qed.

(** Two passes fold any 32-bit sum; the result has no carry left, is
    congruent to the sum modulo 2^16 - 1, and is zero only for a zero sum. *)
Lemma fold_carries_spec (fuel : nat) (s : Z) :
  (2 <= fuel)%nat ->
  0 <= s < 4294967296 ->
  0 <= fold_carries fuel s < 65536
  /\ (fold_carries fuel s) mod 65535 = s mod 65535
  /\ (fold_carries fuel s = 0 -> s = 0).
Proof.
  intros Hfuel Hs.
  destruct fuel as [|[|fuel]]; try lia.
  cbn [fold_carries]. rewrite shiftr16_eqb by lia.
  destruct (Z.ltb_spec s 65536) as [Hlt | Hge]; [auto with zarith|].
  rewrite fold_step_eq by lia.
  set (s1 := s mod 65536 + s / 65536).
  assert (Hs1 : 1 <= s1 < 131071 /\ s = s1 + (s / 65536) * 65535).
  { subst s1. Z.div_mod_to_equations. lia. }
  destruct Hs1 as [Hs1 Hs1eq]. clearbody s1.
  assert (Hmod1 : s1 mod 65535 = s mod 65535).
  { rewrite Hs1eq at 1. symmetry. apply Z.mod_add. lia. }
  rewrite shiftr16_eqb by lia.
  destruct (Z.ltb_spec s1 65536) as [Hlt1 | Hge1].
  - repeat split; try lia.
  - rewrite fold_step_eq by lia.
    assert (Hs2 : s1 mod 65536 + s1 / 65536 = s1 - 65535).
    { Z.div_mod_to_equations. lia. }
    rewrite Hs2, fold_carries_small by lia.
    repeat split; try lia.
    rewrite <- Hmod1.
    replace s1 with (s1 - 65535 + 1 * 65535) at 2 by lia.
    symmetry. apply Z.mod_add. lia.
Qed.

(** The loop condition is false when the modelled loop stops: the bound on
    the passes is never what ends it. *)
Lemma fold_carries_done (s : Z) :
  0 <= s < 4294967296 ->
  Z.shiftr (fold_carries fold_fuel s) 16 = 0.
Proof.
  intros Hs.
  destruct (fold_carries_spec fold_fuel s) as (Hr & _); auto.
  { unfold fold_fuel. lia. }
  apply Z.eqb_eq. rewrite shiftr16_eqb by lia.
  apply Z.ltb_lt. lia.
Qed.

Lemma complement16 (r : Z) :
  0 <= r < 65536 -> uint16 (uint32 (Z.lnot r)) = 65535 - r.
Proof.
  intros Hr. unfold uint16, uint32, Z.lnot.
  Z.div_mod_to_equations. lia.
Qed.

(** [icmp_checksum] in terms of the sum of the words. *)
Lemma icmp_checksum_total (buf : list byte) (n : nat) :
  icmp_checksum o buf n
  = 65535 - fold_carries fold_fuel
              (uint32 (Rfc1071.word_total o (firstn n buf))).
Proof.
  unfold icmp_checksum.
  rewrite sum_words_total by lia.
  rewrite Z.add_0_l.
  apply complement16.
  apply fold_carries_spec; [unfold fold_fuel; lia | apply uint32_range].
Qed.

Lemma icmp_checksum_range (buf : list byte) (n : nat) :
  0 <= icmp_checksum o buf n < 65536.
Proof.
  rewrite icmp_checksum_total.
  destruct (fold_carries_spec fold_fuel
              (uint32 (Rfc1071.word_total o (firstn n buf)))) as (Hr & _).
  { unfold fold_fuel. lia. }
  { apply uint32_range. }
  lia.
Qed.

End Checksum.

(* ================================================================= *)
(** ** Agreement with the RFC 1071 wording *)

Section Rfc1071Facts.

Import Icmp.

Lemma end_around_small (fuel : nat) (s : Z) :
  s < 65536 -> Rfc1071.end_around fuel s = s.
Proof.
  intros Hs. destruct fuel; cbn [Rfc1071.end_around]; [reflexivity|].
  destruct (Z.ltb_spec s 65536); [reflexivity | lia].
Qed.

(** Folding reaches a carry-free value within the passes allotted. *)
Lemma end_around_converges (f : nat) :
  forall s, 0 <= s < 65536 * 2 ^ Z.of_nat f ->
    0 <= Rfc1071.end_around (f + 2) s < 65536.
Proof.
  induction f as [|f IH]; intros s Hs.
  - change (2 ^ Z.of_nat 0) with 1 in Hs.
    rewrite end_around_small; lia.
  - rewrite Nat2Z.inj_succ, Z.pow_succ_r in Hs by lia.
    assert (Hp : 1 <= 2 ^ Z.of_nat f) by (apply Z.pow_le_mono_r with (b := 0); lia).
    cbn [Nat.add Rfc1071.end_around].
    destruct (Z.ltb_spec s 65536) as [Hlt | Hge]; [lia|].
    set (g := s mod 65536 + s / 65536).
    assert (Hg : 1 <= g < 65535 + 2 * 2 ^ Z.of_nat f).
    { subst g. Z.div_mod_to_equations. lia. }
    clearbody g.
    destruct f as [|f].
    + change (2 ^ Z.of_nat 0) with 1 in Hg.
      cbn [Nat.add Rfc1071.end_around].
      destruct (Z.ltb_spec g 65536) as [Hlt1 | Hge1]; [lia|].
      assert (g = 65536) as -> by lia.
      cbn. lia.
    + apply IH.
      rewrite Nat2Z.inj_succ, Z.pow_succ_r in Hg, Hp |- * by lia.
      lia.
Qed.

Lemma end_around_no_carry (s : Z) :
  0 <= s -> 0 <= Rfc1071.end_around (Rfc1071.passes s) s < 65536.
Proof.
  intros Hs. unfold Rfc1071.passes.
  apply end_around_converges.
  destruct (Z.eq_dec s 0) as [-> | Hne]; [cbn; lia|].
  pose proof (Z.log2_spec s ltac:(lia)) as [_ Hlog].
  pose proof (Z.log2_nonneg s) as Hnn.
  rewrite Z2Nat.id by lia.
  rewrite Z.pow_succ_r in Hlog by lia.
  assert (0 < 2 ^ Z.log2 s) by (apply Z.pow_pos_nonneg; lia).
  lia.
Qed.

(** On a 32-bit sum the two folding loops are passes of the same
    function. *)
Lemma end_around_fold_carries (f1 f2 : nat) (s : Z) :
  (2 <= f1)%nat -> (2 <= f2)%nat ->
  0 <= s < 4294967296 ->
  Rfc1071.end_around f1 s = fold_carries f2 s.
Proof.
  intros H1 H2 Hs.
  destruct f1 as [|[|f1]]; try lia.
  destruct f2 as [|[|f2]]; try lia.
  cbn [Rfc1071.end_around fold_carries].
  rewrite shiftr16_eqb by lia.
  destruct (Z.ltb_spec s 65536) as [Hlt | Hge]; [reflexivity|].
  rewrite fold_step_eq by lia.
  set (s1 := s mod 65536 + s / 65536).
  assert (Hs1 : 1 <= s1 < 131071).
  { subst s1. Z.div_mod_to_equations. lia. }
  clearbody s1.
  rewrite shiftr16_eqb by lia.
  destruct (Z.ltb_spec s1 65536) as [Hlt1 | Hge1]; [reflexivity|].
  rewrite fold_step_eq by lia.
  assert (Hs2 : s1 mod 65536 + s1 / 65536 = s1 - 65535).
  { Z.div_mod_to_equations. lia. }
  rewrite Hs2, fold_carries_small, end_around_small by lia.
  reflexivity.
Qed.

(** As long as the 32-bit accumulator cannot wrap, that is for buffers of
    at most 128 KiB, [icmp_checksum] is the checksum of the RFC. *)
Lemma icmp_checksum_rfc1071 (o : byte_order) (buf : list byte) (n : nat) :
  Z.of_nat n <= 131072 ->
  icmp_checksum o buf n = Rfc1071.checksum o (firstn n buf).
Proof.
  intros Hn.
  rewrite icmp_checksum_total. unfold Rfc1071.checksum.
  set (T := Rfc1071.word_total o (firstn n buf)).
  assert (HT : 0 <= T < 4294967296).
  { pose proof (word_total_nonneg o (firstn n buf)).
    pose proof (word_total_bound o (firstn n buf)) as Hb.
    pose proof (firstn_le_length n buf) as Hl. fold T in Hb. subst T.
    split; [assumption|].
    assert (Z.of_nat (length (firstn n buf)) <= 131072) by lia. lia. }
  clearbody T.
  rewrite uint32_small by assumption.
  rewrite (end_around_fold_carries (Rfc1071.passes T) fold_fuel T);
    [| unfold Rfc1071.passes; lia | unfold fold_fuel; lia | assumption].
  destruct (fold_carries_spec fold_fuel T) as (Hr & _); auto.
  { unfold fold_fuel. lia. }
  set (r := fold_carries fold_fuel T) in *. clearbody r.
  change 65535 with (Z.ones 16) at 2.
  rewrite Z.land_ones by lia. unfold Z.lnot.
  change (2 ^ 16) with 65536.
  Z.div_mod_to_equations. lia.
Qed.

End Rfc1071Facts.

(* ================================================================= *)
(** ** The packet built by [icmp_build_echo] *)

Section EchoPacket.

Import Icmp.

Lemma echo_body_length payload n buf :
  (8 + n <= length buf)%nat ->
  (forall p, payload = Some p -> (n <= length p)%nat) ->
  length (echo_body payload n buf) = n.
Proof.
  intros Hb Hp. unfold echo_body.
  destruct payload as [p|].
  - destruct (0 <? n)%nat.
    + rewrite length_firstn. specialize (Hp p eq_refl). lia.
    + rewrite length_firstn, length_skipn. lia.
  - rewrite length_firstn, length_skipn. lia.
Qed.


Lemma write_bytes_at2 o v (a0 a1 a2 a3 : byte) l :
  write_bytes (a0 :: a1 :: a2 :: a3 :: l) 2 (bytes16 o v)
  = a0 :: a1 :: bytes16 o v ++ l.
Proof. destruct o; reflexivity. Qed.

Lemma write_bytes_at8 (h0 h1 h2 h3 h4 h5 h6 h7 : byte) tail src :
  write_bytes (h0 :: h1 :: h2 :: h3 :: h4 :: h5 :: h6 :: h7 :: tail) 8 src
  = h0 :: h1 :: h2 :: h3 :: h4 :: h5 :: h6 :: h7
       :: src ++ skipn (length src) tail.
Proof. reflexivity. Qed.


Lemma write_bytes_over2 o v w (a0 a1 : byte) l :
  write_bytes (a0 :: a1 :: bytes16 o v ++ l) 2 (bytes16 o w)
  = a0 :: a1 :: bytes16 o w ++ l.
Proof. destruct o; reflexivity. Qed.

Lemma echo_message_app c id seq body rest :
  echo_message c id seq body ++ rest
  = byte_of_Z ICMP_ECHO :: byte_of_Z 0 :: c ++
    byte_of_Z (uint16 id / 256) :: byte_of_Z (uint16 id)
    :: byte_of_Z (uint16 seq / 256) :: byte_of_Z (uint16 seq)
    :: body ++ rest.
Proof.
  unfold echo_message. cbn [app]. rewrite <- !app_assoc. reflexivity.
Qed.

Lemma header_written (b0 b1 b2 b3 b4 b5 b6 b7 t c i0 i1 s0 s1 : byte) tail :
  write_bytes
    (write_bytes
       (write_bytes
          (write_bytes
             (write_bytes
                (b0 :: b1 :: b2 :: b3 :: b4 :: b5 :: b6 :: b7 :: tail)
                0 (repeat x00 sizeof_icmphdr))
             0 [t])
          1 [c])
       4 [i0; i1])
    6 [s0; s1]
  = t :: c :: x00 :: x00 :: i0 :: i1 :: s0 :: s1 :: tail.
Proof. reflexivity. Qed.

Lemma icmp_build_echo_layout o id seq payload n buf l0 :
  (8 + n <= length buf)%nat ->
  (forall p, payload = Some p -> (n <= length p)%nat) ->
  let body := echo_body payload n buf in
  let rest := skipn (8 + n) buf in
  let ck := icmp_checksum o (echo_message (bytes16 o 0) id seq body ++ rest) (8 + n) in
  icmp_build_echo o id seq payload n (Some buf) (Some l0)
  = (0, Some (echo_message (bytes16 o ck) id seq body ++ rest), Some (8 + n)%nat).
Proof.
  intros Hb Hp body rest ck.
  pose proof (echo_body_length payload n buf Hb Hp) as Hlen.
  fold body in Hlen.
  destruct buf as [|b0 [|b1 [|b2 [|b3 [|b4 [|b5 [|b6 [|b7 tail]]]]]]]];
    try (cbn in Hb; lia).
  assert (Htail : (n <= length tail)%nat) by (cbn in Hb; lia).
  unfold icmp_build_echo, store16.
  rewrite !bytes16_htons, header_written.
  match goal with
  | |- context [write_bytes (write_bytes ?b 2 _) 2 _] => set (filled := b)
  end.
  assert (Hfilled : filled
    = byte_of_Z ICMP_ECHO :: byte_of_Z 0 :: x00 :: x00
        :: byte_of_Z (uint16 id / 256) :: byte_of_Z (uint16 id)
        :: byte_of_Z (uint16 seq / 256) :: byte_of_Z (uint16 seq)
        :: body ++ rest).
  { subst filled rest.
    change (skipn (8 + n) (b0 :: b1 :: b2 :: b3 :: b4 :: b5 :: b6 :: b7 :: tail))
      with (skipn n tail).
    assert (Hdflt : firstn n tail = body -> 
               byte_of_Z ICMP_ECHO :: byte_of_Z 0 :: x00 :: x00
        :: byte_of_Z (uint16 id / 256) :: byte_of_Z (uint16 id)
        :: byte_of_Z (uint16 seq / 256) :: byte_of_Z (uint16 seq) :: tail =
               byte_of_Z ICMP_ECHO :: byte_of_Z 0 :: x00 :: x00
        :: byte_of_Z (uint16 id / 256) :: byte_of_Z (uint16 id)
        :: byte_of_Z (uint16 seq / 256) :: byte_of_Z (uint16 seq) :: body ++ skipn n tail).
    { intros <-. rewrite firstn_skipn. reflexivity. }
    subst body. unfold echo_body in *.
    destruct payload as [p|]; [destruct (0 <? n)%nat eqn:E|];
      try (apply Hdflt; reflexivity).
    unfold sizeof_icmphdr. rewrite write_bytes_at8, Hlen. reflexivity. }
  clearbody filled. subst filled.
  rewrite write_bytes_at2, write_bytes_over2.
  subst ck. rewrite !echo_message_app. reflexivity.
Qed.

Lemma echo_message_length c id seq body :
  length c = 2%nat ->
  length (echo_message c id seq body) = (8 + length body)%nat.
Proof.
  intros Hc. unfold echo_message. cbn [length].
  rewrite !length_app, Hc. cbn [length]. lia.
Qed.

Lemma firstn_echo_message o v id seq body rest n :
  length body = n ->
  firstn (8 + n) (echo_message (bytes16 o v) id seq body ++ rest)
  = echo_message (bytes16 o v) id seq body.
Proof.
  intros Hn.
  rewrite firstn_app, echo_message_length by apply bytes16_length.
  rewrite Hn, Nat.sub_diag, firstn_O, app_nil_r.
  apply firstn_all2. rewrite echo_message_length by apply bytes16_length. lia.
Qed.

Lemma word_total_echo_message o v id seq body :
  Rfc1071.word_total o (echo_message (bytes16 o v) id seq body)
  = uint16 v
    + (word16 o (byte_of_Z ICMP_ECHO) (byte_of_Z 0)
       + word16 o (byte_of_Z (uint16 id / 256)) (byte_of_Z (uint16 id))
       + word16 o (byte_of_Z (uint16 seq / 256)) (byte_of_Z (uint16 seq))
       + Rfc1071.word_total o body).
Proof.
  unfold echo_message.
  destruct (bytes16 o v) as [|a [|b [|]]] eqn:E;
    try (apply (f_equal (@length byte)) in E; rewrite bytes16_length in E;
         discriminate).
  cbn [app Rfc1071.word_total].
  rewrite (word16_bytes16 o v a b E). lia.
Qed.

Lemma verify_sum (T : Z) :
  0 <= T ->
  fold_carries fold_fuel
    (uint32 (T + (65535 - fold_carries fold_fuel (uint32 T)))) = 65535.
Proof.
  intros HT.
  assert (Hfuel : (2 <= fold_fuel)%nat) by (unfold fold_fuel; lia).
  rewrite <- uint32_add_l.
  pose proof (uint32_range T) as Hs.
  set (s := uint32 T) in *. clearbody s.
  destruct (fold_carries_spec fold_fuel s Hfuel Hs) as (Hr & Hmod & Hzero).
  assert (Hs0 : s = 0 -> fold_carries fold_fuel s = 0).
  { intros ->. apply fold_carries_small. lia. }
  set (r := fold_carries fold_fuel s) in *. clearbody r.
  assert (Hmul : exists k, s + (65535 - r) = 65535 * k).
  { exists ((s / 65535) - (r / 65535) + 1).
    pose proof (Z.div_mod s 65535 ltac:(lia)).
    pose proof (Z.div_mod r 65535 ltac:(lia)). lia. }
  destruct Hmul as [k Hk].
  assert (Hin : 0 < s + (65535 - r) < 4294967296) by lia.
  rewrite uint32_small by lia.
  destruct (fold_carries_spec fold_fuel (s + (65535 - r)) Hfuel ltac:(lia))
    as (Hr' & Hmod' & Hzero').
  set (r' := fold_carries fold_fuel (s + (65535 - r))) in *. clearbody r'.
  assert (Hk0 : (s + (65535 - r)) mod 65535 = 0).
  { rewrite Hk, Z.mul_comm. apply Z.mod_mul. lia. }
  rewrite Hk0 in Hmod'.
  apply Z.mod_divide in Hmod'; [|lia].
  destruct Hmod' as [q Hq]. lia.
Qed.

Lemma load16_echo_message o v id seq body rest :
  load16 o (echo_message (bytes16 o v) id seq body ++ rest) 2 = uint16 v.
Proof.
  rewrite echo_message_app. unfold load16.
  destruct (bytes16 o v) as [|a [|b [|]]] eqn:E;
    try (apply (f_equal (@length byte)) in E; rewrite bytes16_length in E;
         discriminate).
  cbn [app nth]. apply word16_bytes16. assumption.
Qed.

Lemma zero_echo_message o v id seq body rest :
  store16 o (echo_message (bytes16 o v) id seq body ++ rest) 2 0
  = echo_message (bytes16 o 0) id seq body ++ rest.
Proof.
  unfold store16. rewrite !echo_message_app. apply write_bytes_over2.
Qed.


Lemma buffers_fit_spec payload n buf :
  buffers_fit payload n buf = true ->
  (8 + n <= length buf)%nat
  /\ (forall p, payload = Some p -> (n <= length p)%nat).
Proof.
  unfold buffers_fit, sizeof_icmphdr. intros H.
  apply andb_true_iff in H as [H1 H2].
  apply Nat.leb_le in H1. split; [assumption|].
  intros p ->. apply Nat.leb_le. assumption.
Qed.

End EchoPacket.

(* ================================================================= *)
(** ** Checksum of the built packet *)

Import Icmp.

(** C1.  For every identifier, sequence number and payload,
    [icmp_build_echo] succeeds and reports a length of 8 plus the payload
    length; the message with its checksum field zeroed is the 8-byte header
    (type 8, code 0, identifier, sequence number) followed by the payload;
    and the value left in the checksum field is what [icmp_checksum]
    recomputes over the whole of that zeroed message.  With the accumulator
    unable to wrap (messages of at most 128 KiB, which no IPv4 datagram
    exceeds) that value is the RFC 1071 checksum as worded: the 16-bit
    words summed, a trailing odd byte zero-padded, the carries folded back
    until none remains, the result complemented. *)
Theorem icmp_build_echo_embeds_checksum
    (o : byte_order) (id seq : Z) (payload : option (list byte))
    (payload_len : nat) (out : list byte) (out_len : nat) :
  buffers_fit payload payload_len out = true ->
  exists pkt,
    icmp_build_echo o id seq payload payload_len (Some out) (Some out_len)
    = (0, Some pkt, Some (8 + payload_len)%nat)
    /\ firstn (8 + payload_len) (store16 o pkt 2 0)
       = echo_message (bytes16 o 0) id seq (echo_body payload payload_len out)
    /\ load16 o pkt 2
       = icmp_checksum o (store16 o pkt 2 0) (8 + payload_len)
    /\ (Z.of_nat (8 + payload_len) <= 131072 ->
        load16 o pkt 2
        = Rfc1071.checksum o
            (echo_message (bytes16 o 0) id seq
               (echo_body payload payload_len out))).
Proof.
  intros Hfit. apply buffers_fit_spec in Hfit as [Hb Hp].
  rewrite icmp_build_echo_layout by assumption.
  eexists; split; [reflexivity|].
  pose proof (echo_body_length payload payload_len out Hb Hp) as Hlen.
  rewrite zero_echo_message, load16_echo_message.
  rewrite firstn_echo_message by assumption.
  assert (Hck : forall b m,
             uint16 (icmp_checksum o b m) = icmp_checksum o b m).
  { intros b m. unfold uint16. apply Z.mod_small. apply icmp_checksum_range. }
  rewrite Hck.
  repeat split.
  intros Hn. rewrite icmp_checksum_rfc1071 by assumption.
  rewrite firstn_echo_message by assumption. reflexivity.
Qed.

Lemma icmp_build_echo_embeds_checksum_witness :
  buffers_fit (Some sample_payload) 5 sample_out = true
  /\ exists pkt,
       icmp_build_echo LittleEndian 4660 7 (Some sample_payload) 5
         (Some sample_out) (Some 0%nat)
       = (0, Some pkt, Some 13%nat)
       /\ firstn 13 (store16 LittleEndian pkt 2 0)
          = echo_message (bytes16 LittleEndian 0) 4660 7
              (echo_body (Some sample_payload) 5 sample_out)
       /\ load16 LittleEndian pkt 2
          = icmp_checksum LittleEndian (store16 LittleEndian pkt 2 0) 13
       /\ (Z.of_nat 13 <= 131072 ->
           load16 LittleEndian pkt 2
           = Rfc1071.checksum LittleEndian
               (echo_message (bytes16 LittleEndian 0) 4660 7
                  (echo_body (Some sample_payload) 5 sample_out))).
Proof.
  split; [reflexivity|].
  apply (icmp_build_echo_embeds_checksum LittleEndian 4660 7
           (Some sample_payload) 5 sample_out 0%nat).
  reflexivity.
Defined.

(** C9.  For every identifier, sequence number and payload, [icmp_checksum]
    applied to the complete packet built by [icmp_build_echo], checksum
    field in place, returns 0. *)
Theorem icmp_build_echo_verifies
    (o : byte_order) (id seq : Z) (payload : option (list byte))
    (payload_len : nat) (out : list byte) (out_len : nat) :
  buffers_fit payload payload_len out = true ->
  exists pkt,
    icmp_build_echo o id seq payload payload_len (Some out) (Some out_len)
    = (0, Some pkt, Some (8 + payload_len)%nat)
    /\ icmp_checksum o pkt (8 + payload_len) = 0.
Proof.
  intros Hfit. apply buffers_fit_spec in Hfit as [Hb Hp].
  rewrite icmp_build_echo_layout by assumption.
  eexists; split; [reflexivity|].
  pose proof (echo_body_length payload payload_len out Hb Hp) as Hlen.
  rewrite icmp_checksum_total, firstn_echo_message by assumption.
  rewrite word_total_echo_message.
  rewrite icmp_checksum_total, firstn_echo_message by assumption.
  rewrite word_total_echo_message.
  set (B := _ + _ + _ + Rfc1071.word_total o _).
  assert (HB : 0 <= B).
  { subst B.
    pose proof (word_total_nonneg o (echo_body payload payload_len out)).
    pose proof (word16_range o (byte_of_Z ICMP_ECHO) (byte_of_Z 0)).
    pose proof (word16_range o (byte_of_Z (uint16 id / 256))
                  (byte_of_Z (uint16 id))).
    pose proof (word16_range o (byte_of_Z (uint16 seq / 256))
                  (byte_of_Z (uint16 seq))).
    lia. }
  clearbody B.
  change (uint16 0) with 0. rewrite Z.add_0_l.
  assert (Hck : uint16 (65535 - fold_carries fold_fuel (uint32 B))
                = 65535 - fold_carries fold_fuel (uint32 B)).
  { destruct (fold_carries_spec fold_fuel (uint32 B)) as (Hr & _).
    - unfold fold_fuel; lia.
    - apply uint32_range.
    - unfold uint16. apply Z.mod_small. lia. }
  rewrite Hck, Z.add_comm, verify_sum by assumption.
  reflexivity.
Qed.

Lemma icmp_build_echo_verifies_witness :
  buffers_fit (Some sample_payload) 5 sample_out = true
  /\ exists pkt,
       icmp_build_echo BigEndian 4660 7 (Some sample_payload) 5
         (Some sample_out) (Some 0%nat)
       = (0, Some pkt, Some 13%nat)
       /\ icmp_checksum BigEndian pkt 13 = 0.
Proof.
  split; [reflexivity|].
  apply (icmp_build_echo_verifies BigEndian 4660 7
           (Some sample_payload) 5 sample_out 0%nat).
  reflexivity.
Defined.

(* ================================================================= *)
(** ** Parsing a received datagram *)

Lemma land15_mod16 (z : Z) : 0 <= z -> Z.land z 15 = z mod 16.
Proof.
  intros Hz. change 15 with (Z.ones 4). rewrite Z.land_ones by lia.
  reflexivity.
Qed.

Lemma load8_range (buf : list byte) (i : nat) : 0 <= load8 buf i < 256.
Proof. apply Z_of_byte_range. Qed.

(** C4.  With [ihl] the low four bits of the first byte, the datagram is
    truncated when it has fewer than 20 bytes or fewer than [ihl * 4 + 8].
    [icmp_parse_response] fails (returns -1, type set to -1) exactly on
    truncated datagrams; on every other it returns 0 and the byte at offset
    [ihl * 4].  Hence a datagram assembled from an IPv4 header of [ihl]
    words and an ICMP message of at least 8 bytes yields the first byte of
    that message. *)
Theorem icmp_parse_response_truncated
    (buf : list byte) (len : nat) (expected_ip : string) (t0 : Z) :
  let ihl := (load8 buf 0) mod 16 in
  let truncated := Z.of_nat len < 20 \/ Z.of_nat len < ihl * 4 + 8 in
  let r := icmp_parse_response (Some buf) len expected_ip (Some t0) in
  (truncated <-> fst r = -1)
  /\ (truncated -> r = (-1, Some (-1)))
  /\ (~ truncated -> r = (0, Some (load8 buf (Z.to_nat (ihl * 4)))))
  /\ (forall (version words : Z) (options message : list byte) (type : byte),
        buf = byte_of_Z (16 * version + words)
                :: options ++ type :: message ->
        5 <= words < 16 ->
        Z.of_nat (length options) = words * 4 - 1 ->
        (7 <= length message)%nat ->
        len = length buf ->
        r = (0, Some (Z_of_byte type))).
Proof.
  intros ihl truncated r.
  pose proof (load8_range buf 0) as Hb0.
  assert (Hihl : 0 <= ihl < 16) by (apply Z.mod_pos_bound; lia).
  assert (Hr : r = if (Z.of_nat len <? 20) || (Z.of_nat len <? ihl * 4 + 8)
                   then (-1, Some (-1))
                   else (0, Some (load8 buf (Z.to_nat (ihl * 4))))).
  { subst r. unfold icmp_parse_response, sizeof_iphdr, sizeof_icmphdr.
    rewrite land15_mod16 by lia. fold ihl.
    destruct (Nat.ltb_spec len 20) as [H20 | H20];
      destruct (Z.ltb_spec (Z.of_nat len) 20) as [H20' | H20']; try lia;
      [reflexivity|].
    cbn [orb].
    destruct (Nat.ltb_spec len (Z.to_nat (ihl * 4) + 8)) as [Hi | Hi];
      destruct (Z.ltb_spec (Z.of_nat len) (ihl * 4 + 8)) as [Hi' | Hi'];
      try lia; reflexivity. }
  assert (Hdec : truncated \/ ~ truncated) by (unfold truncated; lia).
  assert (Hbad : truncated -> r = (-1, Some (-1))).
  { intros [H | H]; rewrite Hr.
    - apply Z.ltb_lt in H. rewrite H. reflexivity.
    - apply Z.ltb_lt in H. rewrite H, orb_true_r. reflexivity. }
  assert (Hgood : ~ truncated ->
                  r = (0, Some (load8 buf (Z.to_nat (ihl * 4))))).
  { intros H. rewrite Hr.
    destruct (Z.ltb_spec (Z.of_nat len) 20);
      destruct (Z.ltb_spec (Z.of_nat len) (ihl * 4 + 8));
      try reflexivity; exfalso; apply H; unfold truncated; lia. }
  split; [split|split; [assumption|split; [assumption|]]].
  - intros H. rewrite (Hbad H). reflexivity.
  - intros H1. destruct Hdec as [H | H]; [assumption|].
    rewrite (Hgood H) in H1. discriminate.
  - intros version words options message type Hbuf H5 Hopt Hmsg Hlen.
    assert (Hw : ihl = words).
    { subst ihl. rewrite Hbuf. unfold load8. cbn [nth].
      rewrite Z_of_byte_of_Z. Z.div_mod_to_equations. lia. }
    rewrite <- Hw in Hopt.
    assert (Hnt : ~ truncated).
    { unfold truncated. rewrite Hlen, Hbuf. cbn [length].
      rewrite length_app. cbn [length]. lia. }
    rewrite (Hgood Hnt). do 2 f_equal.
    unfold load8. f_equal. rewrite Hbuf.
    replace (Z.to_nat (ihl * 4)) with (S (length options)) by lia.
    cbn [nth]. rewrite app_nth2 by lia.
    rewrite Nat.sub_diag. reflexivity.
Qed.

Lemma icmp_parse_response_truncated_witness :
  icmp_parse_response (Some sample_datagram) 28 "10.0.0.1" (Some 0)
  = (0, Some 11).
Proof.
  apply (proj2 (proj2 (proj2
           (icmp_parse_response_truncated sample_datagram 28 "10.0.0.1" 0)))
           4 5 sample_ip_rest sample_icmp_rest x0b).
  - reflexivity.
  - lia.
  - reflexivity.
  - cbn. lia.
  - reflexivity.
Defined.

(* ================================================================= *)
(** ** Socket helpers *)

Import Net.

(** C2, as the code has it.  [net_tcp_connect] reports its outcome as one
    [int].  It returns the descriptor, which is not negative and is left
    open, when [socket] and both [fcntl] calls succeed and either [connect]
    completes at once or, [connect] being in progress, the wait ends with
    an event and the pending socket error is read and is zero.  In every
    other case it returns -1, and what it leaves behind is as follows:
    - when [socket] fails, a [perror] line; no descriptor exists, none is
      closed;
    - when [fcntl] fails, the descriptor opened, a [perror] line, the
      descriptor closed;
    - when [connect] fails otherwise than with [EINPROGRESS], the wait
      returns no event or fails, [getsockopt] fails, or the pending error
      is not zero: the descriptor opened and closed, nothing printed.
    In particular a wait that elapses with no event and a pending error
    that is not zero end in the same value, the same [errno] and the same
    effects. *)
Theorem net_tcp_connect_two_outcomes
    (env : connect_env) (sa : sockaddr) (timeout_ms : Z) (st : os_state) :
  let r := net_tcp_connect env sa timeout_ms st in
  let fd := ret (c_socket env) in
  fst r = (if connect_succeeds env st then fd else -1)
  /\ (connect_succeeds env st = true ->
      0 <= fst r /\ trace (snd r) = trace st ++ [SocketOpened fd])
  /\ (fd < 0 ->
      r = (-1, perror "socket" (set_errno (err (c_socket env)) st)))
  /\ (0 <= fd -> ret (c_getfl env) < 0 ->
      r = (-1, close fd
                 (perror "fcntl F_GETFL"
                    (set_errno (err (c_getfl env))
                       (emit (SocketOpened fd) st)))))
  /\ (0 <= fd -> 0 <= ret (c_getfl env) -> ret (c_setfl env) < 0 ->
      r = (-1, close fd
                 (perror "fcntl F_SETFL"
                    (set_errno (err (c_setfl env))
                       (emit (SocketOpened fd) st)))))
  /\ (0 <= fd -> 0 <= ret (c_getfl env) -> 0 <= ret (c_setfl env) ->
      connect_succeeds env st = false ->
      trace (snd r) = trace st ++ [SocketOpened fd; SocketClosed fd])
  /\ (0 <= fd -> 0 <= ret (c_getfl env) -> 0 <= ret (c_setfl env) ->
      ret (c_connect env) < 0 -> err (c_connect env) = EINPROGRESS ->
      (ret (c_select env) = 0
       \/ (0 < ret (c_select env) /\ 0 <= ret (c_getsockopt env)
           /\ c_so_error env <> 0)) ->
      r = (-1, close fd (set_errno EINPROGRESS (emit (SocketOpened fd) st)))).
Proof.
  intros r fd.
  assert (H1 : fst r = if connect_succeeds env st then fd else -1).
  { subst r fd.
    unfold net_tcp_connect, connect_succeeds, errno_after_connect,
      sys_socket, syscall.
    destruct env as [sk gf sf cn sl gs soe]; cbn [c_socket c_getfl c_setfl
      c_connect c_select c_getsockopt c_so_error].
    split_tests; try reflexivity; try lia. }
  split; [assumption|].
  split.
  { intros Hok. split.
    - rewrite H1, Hok.
      unfold connect_succeeds in Hok.
      repeat (apply andb_true_iff in Hok as [Hok _]).
      apply Z.leb_le in Hok. assumption.
    - revert Hok. subst r fd.
      unfold net_tcp_connect, connect_succeeds, errno_after_connect,
        sys_socket, syscall.
      destruct env as [sk gf sf cn sl gs soe]; cbn [c_socket c_getfl c_setfl
        c_connect c_select c_getsockopt c_so_error].
      split_tests; cbn [andb orb]; intros Hok;
        try discriminate; try reflexivity; try lia. }
  subst r fd.
  unfold net_tcp_connect, connect_succeeds, errno_after_connect,
    sys_socket, syscall.
  destruct env as [sk gf sf cn sl gs soe]; cbn [c_socket c_getfl c_setfl
    c_connect c_select c_getsockopt c_so_error] in *.
  repeat split.
  - intros Hsk. split_tests; try reflexivity; try lia.
  - intros Hsk Hgf. split_tests; try reflexivity; try lia.
  - intros Hsk Hgf Hsf. split_tests; try reflexivity; try lia.
  - intros Hsk Hgf Hsf. split_tests; cbn [andb orb]; intros Hno;
      try discriminate; try lia;
      rewrite <- app_assoc; reflexivity.
  - intros Hsk Hgf Hsf Hcn Herr Hcases. rewrite Herr.
    split_tests; try reflexivity; try lia.
Qed.

(** C2, as stated, fails: the specification tells [Filtered] (the wait
    elapsed) from [Refused] (a pending error was read), but the two runs
    give [net_tcp_connect] the same result, the same [errno] and the same
    effects, so nothing computed from them can name the outcome. *)
Lemma net_tcp_connect_refused_like_filtered :
  ret (c_select env_filtered) = 0
  /\ 0 < ret (c_select env_refused)
  /\ c_so_error env_refused = ECONNREFUSED
  /\ net_tcp_connect env_filtered sample_dest 100 fresh_os
     = net_tcp_connect env_refused sample_dest 100 fresh_os
  /\ ~ (exists classify : Z * os_state -> connect_outcome,
          classify (net_tcp_connect env_filtered sample_dest 100 fresh_os)
          = Filtered
          /\ classify (net_tcp_connect env_refused sample_dest 100 fresh_os)
             = Refused).
Proof.
  repeat split; try reflexivity.
  intros (classify & Hf & Hr).
  change (net_tcp_connect env_refused sample_dest 100 fresh_os)
    with (net_tcp_connect env_filtered sample_dest 100 fresh_os) in Hr.
  rewrite Hf in Hr. discriminate.
Qed.

Lemma net_tcp_connect_two_outcomes_witness :
  net_tcp_connect env_refused sample_dest 100 fresh_os
  = (-1, mk_os EINPROGRESS [SocketOpened 3; SocketClosed 3])
  /\ net_tcp_connect env_no_descriptor sample_dest 100 fresh_os
     = (-1, mk_os EMFILE [Stderr (Perror "socket" EMFILE)])
  /\ 0 <= fst (net_tcp_connect env_accepted sample_dest 100 fresh_os)
  /\ trace (snd (net_tcp_connect env_accepted sample_dest 100 fresh_os))
     = [SocketOpened 3].
Proof.
  split; [|split].
  - destruct (net_tcp_connect_two_outcomes env_refused sample_dest 100
                fresh_os) as (_ & _ & _ & _ & _ & _ & Hpending).
    apply Hpending; cbn; try lia.
    right. unfold ECONNREFUSED. lia.
  - destruct (net_tcp_connect_two_outcomes env_no_descriptor sample_dest 100
                fresh_os) as (_ & _ & Hsocket & _).
    apply Hsocket. cbn. lia.
  - destruct (net_tcp_connect_two_outcomes env_accepted sample_dest 100
                fresh_os) as (_ & Hok & _).
    apply Hok. reflexivity.
Defined.

(** C7.  When [socket] fails with [EPERM], [net_icmp_raw_socket] returns
    -1 after printing the two lines that name the missing privilege and how
    to obtain it.  When it fails for any other cause the function returns
    -1 after a [perror] line.  The two failures are therefore told apart by
    what is printed (and by [errno]), the privilege one being actionable;
    the value returned is -1 in both. *)
Theorem net_icmp_raw_socket_permission_denied
    (denied other : sys_reply) (st : os_state) :
  ret denied < 0 -> err denied = EPERM ->
  ret other < 0 -> err other <> EPERM ->
  let r1 := net_icmp_raw_socket denied st in
  let r2 := net_icmp_raw_socket other st in
  fst r1 = -1
  /\ trace (snd r1) = trace st ++ privilege_diag
  /\ errno (snd r1) = EPERM
  /\ fst r2 = -1
  /\ trace (snd r2)
     = trace st ++ [Stderr (Perror "socket IPPROTO_ICMP" (err other))]
  /\ trace (snd r1) <> trace (snd r2).
Proof.
  intros Hd He Ho Hne r1 r2.
  assert (E1 : r1 = (-1, mk_os EPERM (trace st ++ privilege_diag))).
  { subst r1. unfold net_icmp_raw_socket, sys_socket, syscall.
    rewrite He. split_tests; try lia.
    unfold fprintf_stderr, emit, privilege_diag. cbn [errno trace].
    rewrite <- app_assoc. reflexivity. }
  assert (E2 : r2 = (-1, mk_os (err other)
                       (trace st ++ [Stderr (Perror "socket IPPROTO_ICMP"
                                               (err other))]))).
  { subst r2. unfold net_icmp_raw_socket, sys_socket, syscall.
    split_tests; try lia. reflexivity. }
  rewrite E1, E2. cbn [fst snd trace errno].
  repeat split.
  intros H. apply app_inv_head in H. discriminate.
Qed.

Lemma net_icmp_raw_socket_permission_denied_witness :
  let r1 := net_icmp_raw_socket (mk_reply (-1) EPERM) fresh_os in
  let r2 := net_icmp_raw_socket (mk_reply (-1) 24) fresh_os in
  fst r1 = -1
  /\ trace (snd r1) = trace fresh_os ++ privilege_diag
  /\ errno (snd r1) = EPERM
  /\ fst r2 = -1
  /\ trace (snd r2)
     = trace fresh_os ++ [Stderr (Perror "socket IPPROTO_ICMP" 24)]
  /\ trace (snd r1) <> trace (snd r2).
Proof.
  apply (net_icmp_raw_socket_permission_denied
           (mk_reply (-1) EPERM) (mk_reply (-1) 24) fresh_os);
    cbn; unfold EPERM; lia.
Defined.

(* ================================================================= *)
(** ** The traceroute engine *)

Import Tracer.

Lemma icmp_build_echo_probe o ttl :
  exists pkt,
    icmp_build_echo o ICMP_ID ttl None 0 (Some (repeat x00 64)) (Some 0%nat)
    = (0, Some pkt, Some 8%nat).
Proof.
  eexists. apply (icmp_build_echo_layout o ICMP_ID ttl None 0).
  - cbn. lia.
  - discriminate.
Qed.

Lemma tracer_loop_S o env sa fd n ttl out st :
  tracer_loop o env sa fd (S n) ttl out st
  = let p := e_probe env ttl in
    let st := probe_sent o env sa fd ttl st in
    if ret (p_sendto p) <? 0
    then (-1, out, close fd (perror "sendto" st))
    else if no_reply p
    then tracer_loop o env sa fd n (ttl + 1)
           (tracer_append out (timeout_hop ttl)) st
    else if parsed_type p =? ICMP_ECHOREPLY
    then (0, tracer_append out (reply_hop ttl p), close fd st)
    else tracer_loop o env sa fd n (ttl + 1)
           (tracer_append out (reply_hop ttl p)) st.
Proof.
  cbn [tracer_loop]. unfold probe_sent, probe_packet, no_reply.
  destruct (icmp_build_echo_probe o ttl) as [pkt ->].
  destruct (net_set_ttl _ fd ttl st) as [r1 st1]. cbn [snd].
  unfold syscall. cbn [fst snd].
  change (0 <? 0) with false. cbn iota.
  destruct (ret (p_sendto (e_probe env ttl)) <? 0); [reflexivity|].
  destruct (p_select (e_probe env ttl) =? 0); [reflexivity|].
  cbn [orb].
  destruct (p_recvfrom (e_probe env ttl) <? 0); reflexivity.
Qed.

Lemma set_row_end (l : list Hop) (h : Hop) :
  set_row l (length l) h = l ++ [h].
Proof.
  unfold set_row. rewrite firstn_all, skipn_all2 by (cbn; lia). reflexivity.
Qed.

Lemma tracer_append_hops (route : TraceRoute) (h : Hop) :
  route_wf route ->
  route_wf (tracer_append route h)
  /\ hops_of (tracer_append route h) = hops_of route ++ [h]
  /\ len (tracer_append route h) = S (len route).
Proof.
  intros [Hcap Hrows].
  destruct route as [[l|] n c]; cbn [rows len cap] in *.
  - subst n. unfold tracer_append, route_wf, hops_of. cbn [rows len cap].
    destruct (Nat.eqb_spec (length l) c) as [E | E]; cbn [rows len cap option_map].
    + rewrite set_row_end, firstn_all, length_app. cbn [length].
      rewrite Nat.add_1_r, firstn_all2 by (rewrite length_app; cbn; lia).
      repeat split; try lia.
      destruct (Nat.eqb_spec c 0); lia.
    + rewrite set_row_end, firstn_all, length_app. cbn [length].
      rewrite Nat.add_1_r, firstn_all2 by (rewrite length_app; cbn; lia).
      repeat split; lia.
  - destruct Hrows as [-> ->].
    unfold tracer_append, route_wf, hops_of. cbn.
    repeat split; lia.
Qed.

Lemma route_wf_empty : route_wf empty_route.
Proof. unfold route_wf, empty_route. cbn. lia. Qed.

Section Loop.

Variables (o : byte_order) (env : environment) (sa : sockaddr) (fd : Z).

(** What one execution of the loop adds to the route. *)
Lemma tracer_loop_hops (n : nat) :
  forall ttl out st r out' st',
    route_wf out ->
    tracer_loop o env sa fd n ttl out st = (r, out', st') ->
    exists new,
      route_wf out'
      /\ hops_of out' = hops_of out ++ new
      /\ len out' = (len out + length new)%nat
      /\ (length new <= n)%nat
      /\ (r = 0 -> (0 < n)%nat -> (0 < length new)%nat)
      /\ (forall i h, nth_error new i = Some h -> hop h = ttl + Z.of_nat i)
      /\ (forall i h, nth_error new i = Some h -> timeout h = false ->
            parsed_type (e_probe env (hop h)) = ICMP_ECHOREPLY ->
            S i = length new).
Proof.
  induction n as [|n IH]; intros ttl out st r out' st' Hwf Hrun.
  - cbn in Hrun. injection Hrun as <- <- <-.
    exists []. rewrite app_nil_r. cbn [length].
    split; [assumption|].
    repeat split; try lia; intros [|i] h Hi; discriminate Hi.
  - rewrite tracer_loop_S in Hrun. cbv zeta in Hrun.
    destruct (ret (p_sendto (e_probe env ttl)) <? 0).
    { injection Hrun as <- <- <-.
      exists []. rewrite app_nil_r. cbn [length].
      split; [assumption|].
      repeat split; try lia; intros [|i] h Hi; discriminate Hi. }
    assert (Hcons : forall h0 rest,
      (h0 = timeout_hop ttl
       \/ (h0 = reply_hop ttl (e_probe env ttl)
           /\ (parsed_type (e_probe env ttl) = ICMP_ECHOREPLY -> rest = []))) ->
      (forall i h, nth_error rest i = Some h -> hop h = ttl + 1 + Z.of_nat i) ->
      (forall i h, nth_error rest i = Some h -> timeout h = false ->
            parsed_type (e_probe env (hop h)) = ICMP_ECHOREPLY ->
            S i = length rest) ->
      (forall i h, nth_error (h0 :: rest) i = Some h ->
         hop h = ttl + Z.of_nat i)
      /\ (forall i h, nth_error (h0 :: rest) i = Some h -> timeout h = false ->
            parsed_type (e_probe env (hop h)) = ICMP_ECHOREPLY ->
            S i = length (h0 :: rest))).
    { intros h0 rest Hh0 Hnum Hlast. split.
      - intros [|i] h Hi; cbn in Hi.
        + injection Hi as <-. destruct Hh0 as [-> | [-> _]]; cbn; lia.
        + rewrite (Hnum i h Hi). lia.
      - intros [|i] h Hi Hto Hty; cbn in Hi; cbn [length].
        + injection Hi as <-.
          destruct Hh0 as [-> | [-> Hrest]]; [discriminate|].
          cbn [reply_hop hop] in Hty. rewrite (Hrest Hty). reflexivity.
        + f_equal. apply (Hlast i h Hi Hto Hty). }
    assert (Hrec : forall h0 out1 st1,
      (h0 = timeout_hop ttl
       \/ (h0 = reply_hop ttl (e_probe env ttl)
           /\ parsed_type (e_probe env ttl) <> ICMP_ECHOREPLY)) ->
      out1 = tracer_append out h0 ->
      tracer_loop o env sa fd n (ttl + 1) out1 st1 = (r, out', st') ->
      exists new,
        route_wf out'
        /\ hops_of out' = hops_of out ++ new
        /\ len out' = (len out + length new)%nat
        /\ (length new <= S n)%nat
        /\ (r = 0 -> (0 < S n)%nat -> (0 < length new)%nat)
        /\ (forall i h, nth_error new i = Some h -> hop h = ttl + Z.of_nat i)
        /\ (forall i h, nth_error new i = Some h -> timeout h = false ->
              parsed_type (e_probe env (hop h)) = ICMP_ECHOREPLY ->
              S i = length new)).
    { intros h0 out1 st1 Hh0 -> Hrun1.
      destruct (tracer_append_hops out h0 Hwf) as (Hwf1 & Hhops1 & Hlen1).
      destruct (IH _ _ _ _ _ _ Hwf1 Hrun1)
        as (rest & Hwf' & Hhops' & Hlen' & Hle & _ & Hnum & Hlast).
      exists (h0 :: rest).
      rewrite Hhops', Hhops1, <- app_assoc, Hlen', Hlen1. cbn [app length].
      destruct (Hcons h0 rest) as [Hn1 Hl1]; auto.
      { destruct Hh0 as [-> | [-> Hne]]; [left; reflexivity|].
        right. split; [reflexivity|]. intros H. contradiction. }
      split; [assumption|].
      repeat split; auto; lia. }
    destruct (no_reply (e_probe env ttl)).
    { apply (Hrec _ _ _ (or_introl eq_refl) eq_refl Hrun). }
    destruct (Z.eqb_spec (parsed_type (e_probe env ttl)) ICMP_ECHOREPLY)
      as [Hty | Hty].
    + injection Hrun as <- <- <-.
      destruct (tracer_append_hops out (reply_hop ttl (e_probe env ttl)) Hwf)
        as (Hwf1 & Hhops1 & Hlen1).
      exists [reply_hop ttl (e_probe env ttl)].
      destruct (Hcons (reply_hop ttl (e_probe env ttl)) []) as [Hn1 Hl1];
        try (intros [|i] h Hi; discriminate).
      { right. auto. }
      cbn [length]. split; [assumption|].
      repeat split; auto; lia.
    + apply (Hrec _ _ _ (or_intror (conj eq_refl Hty)) eq_refl Hrun).
Qed.

End Loop.

(** * Run level *)

Lemma tracer_run_unresolved o env cfg out st :
  gai_status (e_resolver env) <> 0 ->
  tracer_run o env cfg out st
  = (-1, empty_route,
     fprintf_stderr
       ("Error: Failed to resolve target '" ++ target cfg ++ "'" ++ nl)
       (emit (Stderr (DnsError (target cfg) (gai_status (e_resolver env))))
          st)).
Proof.
  intros H. unfold tracer_run, net_resolve.
  destruct (Z.eqb_spec (gai_status (e_resolver env)) 0); [contradiction|].
  reflexivity.
Qed.

Lemma tracer_run_no_socket o env cfg out st :
  gai_status (e_resolver env) = 0 ->
  ret (e_raw_socket env) < 0 ->
  tracer_run o env cfg out st
  = (-1, empty_route, snd (net_icmp_raw_socket (e_raw_socket env) st)).
Proof.
  intros H0 H1. unfold tracer_run, net_resolve. rewrite H0. cbn [Z.eqb negb].
  assert (E : (ret (e_raw_socket env) <? 0) = true) by (apply Z.ltb_lt; lia).
  unfold net_icmp_raw_socket, sys_socket, syscall.
  repeat (rewrite E; cbv beta iota zeta).
  cbn [errno set_errno].
  destruct (err (e_raw_socket env) =? EPERM); reflexivity.
Qed.

Lemma tracer_run_started o env cfg out st :
  gai_status (e_resolver env) = 0 ->
  0 <= ret (e_raw_socket env) ->
  tracer_run o env cfg out st
  = tracer_loop o env (ai_addr (e_resolver env)) (ret (e_raw_socket env))
      (Z.to_nat (ttl_max cfg - ttl_start cfg + 1)) (ttl_start cfg)
      empty_route (emit (SocketOpened (ret (e_raw_socket env))) st).
Proof.
  intros H0 H1. unfold tracer_run, net_resolve. rewrite H0. cbn [Z.eqb negb].
  assert (E : (ret (e_raw_socket env) <? 0) = false) by (apply Z.ltb_ge; lia).
  unfold net_icmp_raw_socket, sys_socket, syscall.
  repeat (rewrite E; cbv beta iota zeta).
  reflexivity.
Qed.

(** C3.  For every configuration with [ttl_start <= ttl_max], a run that
    returns 0 leaves a hop list that is not empty, whose [i]-th hop is
    numbered [ttl_start + i] (so the numbers ascend strictly from
    [ttl_start]), whose length is at most [ttl_max - ttl_start + 1] and is
    the [len] field, and in which a hop answered by a datagram parsed as
    Echo Reply is the last one. *)
Theorem tracer_run_hop_list
    (o : byte_order) (env : environment) (cfg : CommandLine)
    (out : TraceRoute) (st : os_state)
    (route : TraceRoute) (st' : os_state) :
  ttl_start cfg <= ttl_max cfg ->
  tracer_run o env cfg out st = (0, route, st') ->
  let hops := hops_of route in
  (forall i h, nth_error hops i = Some h ->
     hop h = ttl_start cfg + Z.of_nat i)
  /\ (forall i j hi hj, (i < j)%nat ->
        nth_error hops i = Some hi -> nth_error hops j = Some hj ->
        hop hi < hop hj)
  /\ (0 < length hops)%nat
  /\ Z.of_nat (length hops) <= ttl_max cfg - ttl_start cfg + 1
  /\ len route = length hops
  /\ (forall i h, nth_error hops i = Some h -> timeout h = false ->
        parsed_type (e_probe env (hop h)) = ICMP_ECHOREPLY ->
        S i = length hops).
Proof.
  intros Hrange Hrun hops.
  destruct (Z.eq_dec (gai_status (e_resolver env)) 0) as [H0 | H0];
    [|rewrite tracer_run_unresolved in Hrun by assumption; discriminate].
  destruct (Z.lt_ge_cases (ret (e_raw_socket env)) 0) as [H1 | H1];
    [rewrite tracer_run_no_socket in Hrun by assumption; discriminate|].
  rewrite tracer_run_started in Hrun by assumption.
  destruct (tracer_loop_hops o env _ _ _ _ _ _ _ _ _ route_wf_empty Hrun)
    as (new & Hwf & Hhops & Hlen & Hle & Hpos & Hnum & Hlast).
  change (hops_of empty_route) with (@nil Hop) in Hhops.
  cbn [app] in Hhops. cbn [len empty_route Nat.add] in Hlen.
  subst hops. rewrite Hhops.
  split; [assumption|]. split.
  { intros i j hi hj Hij Hi Hj.
    rewrite (Hnum i hi Hi), (Hnum j hj Hj). lia. }
  split; [apply Hpos; [reflexivity | lia]|].
  split; [lia|]. split; assumption.
Qed.

Lemma tracer_run_hop_list_witness :
  let route := snd (fst (tracer_run LittleEndian sample_env sample_cfg
                           stale_route fresh_os)) in
  let hops := hops_of route in
  (forall i h, nth_error hops i = Some h ->
     hop h = ttl_start sample_cfg + Z.of_nat i)
  /\ (forall i j hi hj, (i < j)%nat ->
        nth_error hops i = Some hi -> nth_error hops j = Some hj ->
        hop hi < hop hj)
  /\ (0 < length hops)%nat
  /\ Z.of_nat (length hops) <= ttl_max sample_cfg - ttl_start sample_cfg + 1
  /\ len route = length hops
  /\ (forall i h, nth_error hops i = Some h -> timeout h = false ->
        parsed_type (e_probe sample_env (hop h)) = ICMP_ECHOREPLY ->
        S i = length hops).
Proof.
  apply (tracer_run_hop_list LittleEndian sample_env sample_cfg stale_route
           fresh_os _
           (snd (tracer_run LittleEndian sample_env sample_cfg
                   stale_route fresh_os))).
  - cbn. lia.
  - vm_compute. reflexivity.
Defined.

Section Advance.

Variables (o : byte_order) (env : environment) (sa : sockaddr) (fd : Z).

Lemma tracer_loop_advance (k : nat) :
  forall n ttl out st,
    route_wf out ->
    (forall i, (i < k)%nat -> continues env (ttl + Z.of_nat i) = true) ->
    exists out_k st_k new,
      tracer_loop o env sa fd (k + n) ttl out st
      = tracer_loop o env sa fd n (ttl + Z.of_nat k) out_k st_k
      /\ route_wf out_k
      /\ hops_of out_k = hops_of out ++ new
      /\ length new = k.
Proof.
  induction k as [|k IH]; intros n ttl out st Hwf Hcont.
  - exists out, st, []. rewrite Z.add_0_r, app_nil_r. auto.
  - cbn [Nat.add]. rewrite tracer_loop_S. cbv zeta.
    pose proof (Hcont 0%nat ltac:(lia)) as H0.
    rewrite Z.add_0_r in H0. unfold continues in H0.
    apply andb_true_iff in H0 as [Hsend Hnext].
    apply Z.leb_le in Hsend.
    destruct (Z.ltb_spec (ret (p_sendto (e_probe env ttl))) 0); [lia|].
    assert (Hstep : forall h st1,
      exists out_k st_k new,
        tracer_loop o env sa fd (k + n) (ttl + 1) (tracer_append out h) st1
        = tracer_loop o env sa fd n (ttl + Z.of_nat (S k)) out_k st_k
        /\ route_wf out_k
        /\ hops_of out_k = hops_of out ++ new
        /\ length new = S k).
    { intros h st1.
      destruct (tracer_append_hops out h Hwf) as (Hwf1 & Hhops1 & _).
      destruct (IH n (ttl + 1) (tracer_append out h) st1 Hwf1)
        as (out_k & st_k & new & Hrun & Hwfk & Hhk & Hlk).
      { intros i Hi. replace (ttl + 1 + Z.of_nat i)
          with (ttl + Z.of_nat (S i)) by lia. apply Hcont. lia. }
      exists out_k, st_k, (h :: new).
      rewrite Hrun, Hhk, Hhops1, <- app_assoc. cbn [app length].
      split; [f_equal; lia|]. split; [assumption|].
      split; [reflexivity | lia]. }
    destruct (no_reply (e_probe env ttl)); [apply Hstep|].
    cbn [orb] in Hnext.
    destruct (parsed_type (e_probe env ttl) =? ICMP_ECHOREPLY);
      [discriminate|apply Hstep].
Qed.

End Advance.

(** C5.  Take a trace that gets as far as probing [ttl]: the target
    resolves, the raw socket is created, and every earlier probe is sent
    and neither fails nor is answered by an Echo Reply.  If [sendto] fails
    for [ttl], the run stops there: it returns -1 after [perror] and
    [close], the route holding the earlier hops only.  If the probe is sent
    and [select] returns 0, the run is the rest of the loop from [ttl + 1]
    with the hop (ttl, host [?], address [*], rtt -1, timed out) appended,
    and that hop is in the final route at the position of [ttl]. *)
Theorem tracer_run_timeout_and_send_failure
    (o : byte_order) (env : environment) (cfg : CommandLine)
    (out : TraceRoute) (st : os_state) (ttl : Z) :
  gai_status (e_resolver env) = 0 ->
  0 <= ret (e_raw_socket env) ->
  ttl_start cfg <= ttl <= ttl_max cfg ->
  (forall u, ttl_start cfg <= u < ttl -> continues env u = true) ->
  let fd := ret (e_raw_socket env) in
  let sa := ai_addr (e_resolver env) in
  let p := e_probe env ttl in
  exists route st1,
    length (hops_of route) = Z.to_nat (ttl - ttl_start cfg)
    /\ (ret (p_sendto p) < 0 ->
        tracer_run o env cfg out st
        = (-1, route,
           close fd (perror "sendto" (probe_sent o env sa fd ttl st1))))
    /\ (0 <= ret (p_sendto p) -> p_select p = 0 ->
        tracer_run o env cfg out st
        = tracer_loop o env sa fd (Z.to_nat (ttl_max cfg - ttl)) (ttl + 1)
            (tracer_append route (mk_hop ttl "?" "*" (-1) true))
            (probe_sent o env sa fd ttl st1)
        /\ forall r route' st',
             tracer_run o env cfg out st = (r, route', st') ->
             nth_error (hops_of route') (Z.to_nat (ttl - ttl_start cfg))
             = Some (mk_hop ttl "?" "*" (-1) true)).
Proof.
  intros Hres Hsock Hin Hreach fd sa p.
  rewrite tracer_run_started by assumption. fold fd sa.
  replace (Z.to_nat (ttl_max cfg - ttl_start cfg + 1))
    with (Z.to_nat (ttl - ttl_start cfg) + S (Z.to_nat (ttl_max cfg - ttl)))%nat
    by lia.
  destruct (tracer_loop_advance o env sa fd (Z.to_nat (ttl - ttl_start cfg))
              (S (Z.to_nat (ttl_max cfg - ttl))) (ttl_start cfg) empty_route
              (emit (SocketOpened fd) st) route_wf_empty)
    as (route & st1 & new & Hrun & Hwf & Hhops & Hlen).
  { intros i Hi. apply Hreach. lia. }
  replace (ttl_start cfg + Z.of_nat (Z.to_nat (ttl - ttl_start cfg)))
    with ttl in Hrun by lia.
  exists route, st1. rewrite Hrun, tracer_loop_S. cbv zeta. fold p.
  change (hops_of empty_route) with (@nil Hop) in Hhops. cbn [app] in Hhops.
  split; [rewrite Hhops; assumption|]. split.
  - intros Hfail.
    destruct (Z.ltb_spec (ret (p_sendto p)) 0); [reflexivity | lia].
  - intros Hsent Hsel.
    destruct (Z.ltb_spec (ret (p_sendto p)) 0); [lia|].
    unfold no_reply. rewrite Hsel. cbn [Z.eqb orb].
    split; [reflexivity|].
    intros r route' st' Hrest.
    destruct (tracer_append_hops route (timeout_hop ttl) Hwf)
      as (Hwf1 & Hhops1 & _).
    destruct (tracer_loop_hops o env sa fd _ _ _ _ _ _ _ Hwf1 Hrest)
      as (rest & _ & Hh & _).
    rewrite Hh, Hhops1, Hhops, <- app_assoc, nth_error_app2 by lia.
    rewrite Hlen, Nat.sub_diag. reflexivity.
Qed.

Lemma tracer_run_timeout_and_send_failure_witness :
  nth_error
    (hops_of (snd (fst (tracer_run LittleEndian sample_env sample_cfg
                          stale_route fresh_os)))) 1
  = Some (mk_hop 2 "?" "*" (-1) true)
  /\ fst (fst (tracer_run LittleEndian failing_env sample_cfg
                 stale_route fresh_os)) = -1.
Proof.
  split.
  - destruct (tracer_run_timeout_and_send_failure LittleEndian sample_env
                sample_cfg stale_route fresh_os 2)
      as (route & st1 & _ & _ & Hto).
    + reflexivity.
    + cbn. lia.
    + cbn. lia.
    + intros u Hu. cbn in Hu. assert (u = 1) as -> by lia. reflexivity.
    + destruct Hto as [_ Hhop]; [cbn; lia | reflexivity |].
      apply (Hhop _ _ _ (triple_eta _ _ _ _)).
  - destruct (tracer_run_timeout_and_send_failure LittleEndian failing_env
                sample_cfg stale_route fresh_os 2)
      as (route & st1 & _ & Hfail & _).
    + reflexivity.
    + cbn. lia.
    + cbn. lia.
    + intros u Hu. cbn in Hu. assert (u = 1) as -> by lia. reflexivity.
    + rewrite Hfail by (cbn; lia). reflexivity.
Defined.

Lemma sent_packets_app (a b : list effect) :
  sent_packets (a ++ b) = sent_packets a ++ sent_packets b.
Proof.
  induction a as [|e a IH]; [reflexivity|].
  destruct e; cbn [app sent_packets]; rewrite IH; reflexivity.
Qed.

Lemma sent_packets_probe_sent o env sa fd ttl st :
  sent_packets (trace (probe_sent o env sa fd ttl st))
  = sent_packets (trace st) ++ [probe_packet o ttl].
Proof.
  unfold probe_sent, net_set_ttl, syscall, perror, emit, set_errno.
  cbv zeta. cbn [fst snd trace errno].
  destruct (ret (p_setsockopt (e_probe env ttl)) <? 0);
    destruct (ret (p_sendto (e_probe env ttl)) <? 0);
    cbn [fst snd trace errno]; rewrite !sent_packets_app;
    cbn [sent_packets]; rewrite ?app_nil_r; reflexivity.
Qed.

Lemma sent_packets_close fd st :
  sent_packets (trace (close fd st)) = sent_packets (trace st).
Proof.
  unfold close, emit. cbn [trace]. rewrite sent_packets_app.
  cbn. apply app_nil_r.
Qed.

Lemma sent_packets_perror msg st :
  sent_packets (trace (perror msg st)) = sent_packets (trace st).
Proof.
  unfold perror, emit. cbn [trace]. rewrite sent_packets_app.
  cbn. apply app_nil_r.
Qed.

Lemma uint16_small (z : Z) : 0 <= z < 65536 -> uint16 z = z.
Proof. unfold uint16. intros. apply Z.mod_small. lia. Qed.

Lemma probe_packet_fields o ttl :
  length (probe_packet o ttl) = 8%nat
  /\ echo_fields (probe_packet o ttl) = (ICMP_ECHO, 0, ICMP_ID, uint16 ttl).
Proof.
  unfold probe_packet.
  pose proof (icmp_build_echo_layout o ICMP_ID ttl None 0 (repeat x00 64) 0
                ltac:(cbn; lia) ltac:(discriminate)) as E.
  cbv zeta in E. rewrite E. clear E.
  rewrite firstn_echo_message by reflexivity.
  set (ck := icmp_checksum _ _ _). clearbody ck.
  unfold echo_fields, load8.
  destruct (bytes16 o ck) as [|c0 [|c1 [|]]] eqn:E;
    try (apply (f_equal (@length byte)) in E; rewrite bytes16_length in E;
         discriminate).
  unfold echo_message, echo_body. cbn [app nth firstn length].
  split; [reflexivity|].
  rewrite !Z_of_byte_of_Z.
  repeat match goal with
         | |- (_, _) = (_, _) => apply f_equal2
         end; try reflexivity.
  unfold uint16. Z.div_mod_to_equations. lia.
Qed.

Section Sends.

Variables (o : byte_order) (env : environment) (sa : sockaddr) (fd : Z).

Lemma tracer_loop_sends (n : nat) :
  forall ttl out st r out' st',
    tracer_loop o env sa fd n ttl out st = (r, out', st') ->
    exists k,
      (k <= n)%nat
      /\ sent_packets (trace st')
         = sent_packets (trace st)
           ++ map (fun i => probe_packet o (ttl + Z.of_nat i)) (seq 0 k).
Proof.
  induction n as [|n IH]; intros ttl out st r out' st' Hrun.
  - cbn in Hrun. injection Hrun as <- <- <-.
    exists 0%nat. rewrite sent_packets_close. cbn. rewrite app_nil_r. auto.
  - rewrite tracer_loop_S in Hrun. cbv zeta in Hrun.
    assert (Hone : forall st1,
      sent_packets (trace st1)
      = sent_packets (trace (probe_sent o env sa fd ttl st)) ->
      exists k, (k <= S n)%nat
        /\ sent_packets (trace st1)
           = sent_packets (trace st)
             ++ map (fun i => probe_packet o (ttl + Z.of_nat i)) (seq 0 k)).
    { intros st1 ->. exists 1%nat. rewrite sent_packets_probe_sent.
      cbn [seq map]. rewrite Z.add_0_r. split; [lia | reflexivity]. }
    assert (Hmore : forall out1,
      tracer_loop o env sa fd n (ttl + 1) out1
        (probe_sent o env sa fd ttl st) = (r, out', st') ->
      exists k, (k <= S n)%nat
        /\ sent_packets (trace st')
           = sent_packets (trace st)
             ++ map (fun i => probe_packet o (ttl + Z.of_nat i)) (seq 0 k)).
    { intros out1 Hrun1.
      destruct (IH _ _ _ _ _ _ Hrun1) as (k & Hk & Hsent).
      exists (S k). split; [lia|].
      rewrite Hsent, sent_packets_probe_sent, <- app_assoc.
      f_equal. cbn [seq map app]. rewrite Z.add_0_r. f_equal.
      rewrite <- seq_shift, map_map. apply map_ext.
      intros i. f_equal. lia. }
    destruct (ret (p_sendto (e_probe env ttl)) <? 0).
    { injection Hrun as <- <- <-. apply Hone.
      rewrite sent_packets_close, sent_packets_perror. reflexivity. }
    destruct (no_reply (e_probe env ttl)); [eapply Hmore; eassumption|].
    destruct (parsed_type (e_probe env ttl) =? ICMP_ECHOREPLY);
      [|eapply Hmore; eassumption].
    injection Hrun as <- <- <-. apply Hone. apply sent_packets_close.
Qed.

End Sends.

(** C6.  With the TTL range inside the 16 bits of the sequence field, the
    datagrams handed to [sendto] by a run are, in order, one per probed
    value [ttl_start], [ttl_start + 1], ...: each is 8 bytes long with type
    8 (Echo Request), code 0, identifier [ICMP_ID] (0x1234) and a sequence
    number equal to the TTL value being probed. *)
Theorem tracer_run_echo_requests
    (o : byte_order) (env : environment) (cfg : CommandLine)
    (out : TraceRoute) (st : os_state)
    (r : Z) (route : TraceRoute) (st' : os_state) :
  0 <= ttl_start cfg -> ttl_max cfg <= 65535 ->
  tracer_run o env cfg out st = (r, route, st') ->
  exists pkts,
    sent_packets (trace st') = sent_packets (trace st) ++ pkts
    /\ Z.of_nat (length pkts) <= Z.max 0 (ttl_max cfg - ttl_start cfg + 1)
    /\ forall i pkt, nth_error pkts i = Some pkt ->
         length pkt = 8%nat
         /\ echo_fields pkt
            = (ICMP_ECHO, 0, ICMP_ID, ttl_start cfg + Z.of_nat i).
Proof.
  intros Hlo Hhi Hrun.
  destruct (Z.eq_dec (gai_status (e_resolver env)) 0) as [H0 | H0].
  2:{ rewrite tracer_run_unresolved in Hrun by assumption.
      injection Hrun as <- <- <-. exists [].
      unfold fprintf_stderr, emit. cbn [trace].
      rewrite !sent_packets_app. cbn [sent_packets length].
      rewrite !app_nil_r. split; [reflexivity|]. split; [lia|].
      intros [|i] pkt Hi; discriminate Hi. }
  destruct (Z.lt_ge_cases (ret (e_raw_socket env)) 0) as [H1 | H1].
  { rewrite tracer_run_no_socket in Hrun by assumption.
    injection Hrun as <- <- <-. exists [].
    unfold net_icmp_raw_socket, sys_socket, syscall, fprintf_stderr, perror,
      emit, set_errno.
    destruct (Z.ltb_spec (ret (e_raw_socket env)) 0); [|lia].
    cbn [errno trace].
    destruct (err (e_raw_socket env) =? EPERM); cbn [snd trace];
      rewrite !sent_packets_app; cbn [sent_packets length];
      rewrite !app_nil_r; (split; [reflexivity|]); (split; [lia|]);
      intros [|i] pkt Hi; discriminate Hi. }
  rewrite tracer_run_started in Hrun by assumption.
  destruct (tracer_loop_sends o env _ _ _ _ _ _ _ _ _ Hrun)
    as (k & Hk & Hsent).
  exists (map (fun i => probe_packet o (ttl_start cfg + Z.of_nat i)) (seq 0 k)).
  split.
  { rewrite Hsent. unfold emit. cbn [trace]. rewrite sent_packets_app.
    cbn [sent_packets]. rewrite app_nil_r. reflexivity. }
  rewrite length_map, length_seq. split; [lia|].
  intros i pkt Hi.
  rewrite nth_error_map in Hi.
  destruct (nth_error (seq 0 k) i) as [j|] eqn:Ej; [|discriminate].
  cbn [option_map] in Hi. injection Hi as <-.
  assert (Hik : (i < k)%nat).
  { assert (Hl : (i < length (seq 0 k))%nat)
      by (apply nth_error_Some; rewrite Ej; discriminate).
    rewrite length_seq in Hl. assumption. }
  apply nth_error_nth with (d := 0%nat) in Ej.
  rewrite seq_nth in Ej by assumption. cbn in Ej. subst j.
  destruct (probe_packet_fields o (ttl_start cfg + Z.of_nat i)) as [Hl Hf].
  split; [assumption|]. rewrite Hf.
  rewrite uint16_small by lia. reflexivity.
Qed.

Lemma tracer_run_echo_requests_witness :
  exists pkts,
    sent_packets (trace (snd (tracer_run BigEndian sample_env sample_cfg
                                stale_route fresh_os)))
    = sent_packets (trace fresh_os) ++ pkts
    /\ Z.of_nat (length pkts)
       <= Z.max 0 (ttl_max sample_cfg - ttl_start sample_cfg + 1)
    /\ forall i pkt, nth_error pkts i = Some pkt ->
         length pkt = 8%nat
         /\ echo_fields pkt
            = (ICMP_ECHO, 0, ICMP_ID, ttl_start sample_cfg + Z.of_nat i).
Proof.
  apply (tracer_run_echo_requests BigEndian sample_env sample_cfg stale_route
           fresh_os
           (fst (fst (tracer_run BigEndian sample_env sample_cfg
                        stale_route fresh_os)))
           (snd (fst (tracer_run BigEndian sample_env sample_cfg
                        stale_route fresh_os)))).
  - cbn. lia.
  - cbn. lia.
  - apply triple_eta.
Defined.

(** C8, as stated, fails: with [ttl_start = 5] and [ttl_max = 1] the run
    opens the raw socket, probes nothing and returns success with an empty
    hop list. *)
Lemma tracer_run_accepts_empty_range :
  ttl_max reversed_cfg < ttl_start reversed_cfg
  /\ tracer_run LittleEndian sample_env reversed_cfg stale_route fresh_os
     = (0, mk_route None 0 0,
        mk_os 0 [SocketOpened 3; SocketClosed 3]).
Proof.
  split; [cbn; lia | reflexivity].
Qed.

(** C8, as the code has it.  [tracer_run] does not examine the range.  With
    [ttl_start > ttl_max], once the target is resolved and the raw socket
    created, the loop body is never entered: the socket is closed, nothing
    is sent, and the call returns 0 with an empty hop list. *)
Theorem tracer_run_empty_range
    (o : byte_order) (env : environment) (cfg : CommandLine)
    (out : TraceRoute) (st : os_state) :
  ttl_max cfg < ttl_start cfg ->
  gai_status (e_resolver env) = 0 ->
  0 <= ret (e_raw_socket env) ->
  tracer_run o env cfg out st
  = (0, empty_route,
     close (ret (e_raw_socket env))
       (emit (SocketOpened (ret (e_raw_socket env))) st)).
Proof.
  intros Hrange Hres Hsock.
  rewrite tracer_run_started by assumption.
  replace (Z.to_nat (ttl_max cfg - ttl_start cfg + 1)) with 0%nat by lia.
  reflexivity.
Qed.

Lemma tracer_run_empty_range_witness :
  tracer_run BigEndian sample_env reversed_cfg stale_route fresh_os
  = (0, empty_route, close 3 (emit (SocketOpened 3) fresh_os)).
Proof.
  apply (tracer_run_empty_range BigEndian sample_env reversed_cfg
           stale_route fresh_os).
  - cbn. lia.
  - reflexivity.
  - cbn. lia.
Defined.

(** C10.  [tracer_run] starts by clearing its output, so its result never
    depends on what the structure held; and when resolution or the
    creation of the raw socket fails it returns -1 with the empty table
    (rows null, length 0, capacity 0), nothing having been sent. *)
Theorem tracer_run_resets_output
    (o : byte_order) (env : environment) (cfg : CommandLine)
    (out : TraceRoute) (st : os_state) :
  (forall out', tracer_run o env cfg out' st = tracer_run o env cfg out st)
  /\ (gai_status (e_resolver env) <> 0 \/ ret (e_raw_socket env) < 0 ->
      fst (tracer_run o env cfg out st) = (-1, mk_route None 0 0)
      /\ sent_packets (trace (snd (tracer_run o env cfg out st)))
         = sent_packets (trace st)).
Proof.
  split; [reflexivity|].
  intros Hfail.
  destruct (Z.eq_dec (gai_status (e_resolver env)) 0) as [H0 | H0].
  - destruct Hfail as [Hfail | Hfail]; [contradiction|].
    rewrite tracer_run_no_socket by assumption. cbn [fst snd].
    split; [reflexivity|].
    unfold net_icmp_raw_socket, sys_socket, syscall, fprintf_stderr, perror,
      emit, set_errno.
    destruct (Z.ltb_spec (ret (e_raw_socket env)) 0); [|lia].
    cbn [errno trace].
    destruct (err (e_raw_socket env) =? EPERM); cbn [snd trace];
      rewrite !sent_packets_app; cbn [sent_packets];
      rewrite !app_nil_r; reflexivity.
  - rewrite tracer_run_unresolved by assumption. cbn [fst snd].
    split; [reflexivity|].
    unfold fprintf_stderr, emit. cbn [trace].
    rewrite !sent_packets_app. cbn [sent_packets].
    rewrite !app_nil_r. reflexivity.
Qed.

Lemma tracer_run_resets_output_witness :
  fst (tracer_run LittleEndian unresolved_env sample_cfg stale_route fresh_os)
  = (-1, mk_route None 0 0)
  /\ fst (tracer_run LittleEndian unprivileged_env sample_cfg stale_route
            fresh_os)
     = (-1, mk_route None 0 0).
Proof.
  split.
  - apply (proj2 (tracer_run_resets_output LittleEndian unresolved_env
                    sample_cfg stale_route fresh_os)).
    left. cbn. lia.
  - apply (proj2 (tracer_run_resets_output LittleEndian unprivileged_env
                    sample_cfg stale_route fresh_os)).
    right. cbn. lia.
Defined.

(* ================================================================= *)
(** ** The model on known values *)

(** The worked example of RFC 1071, section 3: the words 0001, f203, f4f5
    and f6f7 add up to 2ddf0, which folds to ddf2; the checksum is 220d. *)
Example icmp_checksum_rfc1071_example :
  icmp_checksum BigEndian [x00; x01; xf2; x03; xf4; xf5; xf6; xf7] 8
  = 8717
  /\ Rfc1071.checksum BigEndian [x00; x01; xf2; x03; xf4; xf5; xf6; xf7]
     = 8717.
Proof. split; reflexivity. Qed.

(** The same bytes without the last one: the odd byte f6 counts as the
    word f600. *)
Example icmp_checksum_odd_length :
  icmp_checksum BigEndian [x00; x01; xf2; x03; xf4; xf5; xf6; xf7] 7
  = 8964.
Proof. reflexivity. Qed.

(** The probe sent for TTL 1 by a little-endian host. *)
Example probe_packet_ttl_1 :
  probe_packet LittleEndian 1 = [x08; x00; xe5; xca; x12; x34; x00; x01].
Proof. reflexivity. Qed.

(** A 19-byte buffer is too short for an IPv4 header; a header announcing
    15 words needs 68 bytes. *)
Example icmp_parse_response_short :
  icmp_parse_response (Some (repeat x45 19)) 19 "" (Some 0) = (-1, Some (-1))
  /\ icmp_parse_response (Some (repeat x4f 67)) 67 "" (Some 0)
     = (-1, Some (-1))
  /\ icmp_parse_response (Some (repeat x4f 68)) 68 "" (Some 0)
     = (0, Some 79).
Proof. repeat split; reflexivity. Qed.

(** The sample trace: three hops, the silent router in the middle. *)
Example sample_trace :
  fst (tracer_run LittleEndian sample_env sample_cfg stale_route fresh_os)
  = (0, mk_route
          (Some [mk_hop 1 "10.0.0.1" "10.0.0.1" 5 false;
                 mk_hop 2 "?" "*" (-1) true;
                 mk_hop 3 "192.0.2.1" "192.0.2.1" 7 false])
          3 16).
Proof. reflexivity. Qed.

(* ================================================================= *)
(** * Further properties *)

(** ** The ICMP codec *)

Section CodecFacts.

Import Icmp.

(** X1.  [icmp_build_echo] writes the [8 + payload_len] bytes of the
    message and nothing else: the buffer keeps its length and every byte
    after the message.  The payload is copied as it is to offset 8; with a
    null payload and a positive [payload_len] nothing is copied, and the
    bytes the buffer already held there are sent (and summed). *)
Theorem icmp_build_echo_frame
    (o : byte_order) (id seq : Z) (payload : option (list byte))
    (payload_len : nat) (out : list byte) (out_len : nat) :
  buffers_fit payload payload_len out = true ->
  exists pkt,
    icmp_build_echo o id seq payload payload_len (Some out) (Some out_len)
    = (0, Some pkt, Some (8 + payload_len)%nat)
    /\ length pkt = length out
    /\ skipn (8 + payload_len) pkt = skipn (8 + payload_len) out
    /\ (forall p, payload = Some p ->
          firstn payload_len (skipn 8 pkt) = firstn payload_len p)
    /\ (payload = None ->
          firstn payload_len (skipn 8 pkt)
          = firstn payload_len (skipn 8 out)).
Proof.
  intros Hfit. apply buffers_fit_spec in Hfit as [Hb Hp].
  rewrite icmp_build_echo_layout by assumption.
  eexists; split; [reflexivity|].
  pose proof (echo_body_length payload payload_len out Hb Hp) as Hlen.
  set (body := echo_body payload payload_len out) in *.
  assert (Hmsg : length (echo_message
                           (bytes16 o (icmp_checksum o
                              (echo_message (bytes16 o 0) id seq body
                               ++ skipn (8 + payload_len) out)
                              (8 + payload_len))) id seq body)
                 = (8 + payload_len)%nat).
  { rewrite echo_message_length by apply bytes16_length. lia. }
  split; [|split; [|split]].
  - rewrite length_app, Hmsg, length_skipn. lia.
  - rewrite skipn_app, Hmsg, Nat.sub_diag, skipn_all2 by lia. reflexivity.
  - intros p ->. rewrite echo_message_app.
    destruct (bytes16 o _) as [|c0 [|c1 [|]]] eqn:E;
      try (apply (f_equal (@length byte)) in E; rewrite bytes16_length in E;
           discriminate).
    cbn [app skipn].
    rewrite firstn_app, Hlen, Nat.sub_diag, firstn_O, app_nil_r.
    rewrite firstn_all2 by lia.
    subst body. unfold echo_body.
    destruct (Nat.ltb_spec 0 payload_len); [reflexivity|].
    replace payload_len with 0%nat by lia. reflexivity.
  - intros ->. rewrite echo_message_app.
    destruct (bytes16 o _) as [|c0 [|c1 [|]]] eqn:E;
      try (apply (f_equal (@length byte)) in E; rewrite bytes16_length in E;
           discriminate).
    cbn [app skipn].
    rewrite firstn_app, Hlen, Nat.sub_diag, firstn_O, app_nil_r.
    rewrite firstn_all2 by lia. reflexivity.
Qed.

Lemma icmp_build_echo_frame_witness :
  exists pkt,
    icmp_build_echo LittleEndian 4660 1 (Some sample_payload) 5
      (Some sample_out) (Some 0%nat)
    = (0, Some pkt, Some 13%nat)
    /\ length pkt = 64%nat
    /\ skipn 13 pkt = repeat xff 51
    /\ (forall p, Some sample_payload = Some p ->
          firstn 5 (skipn 8 pkt) = firstn 5 p)
    /\ (Some sample_payload = None ->
          firstn 5 (skipn 8 pkt) = firstn 5 (skipn 8 sample_out)).
Proof.
  apply (icmp_build_echo_frame LittleEndian 4660 1 (Some sample_payload) 5
           sample_out 0).
  reflexivity.
Defined.

Lemma word16_zero o : word16 o x00 x00 = 0.
Proof. destruct o; reflexivity. Qed.

Lemma word_total_zeros o k : Rfc1071.word_total o (repeat x00 k) = 0.
Proof.
  enough (H : Rfc1071.word_total o (repeat x00 k) = 0
              /\ Rfc1071.word_total o (repeat x00 (S k)) = 0) by tauto.
  induction k as [|k [IH1 IH2]].
  - split; [reflexivity | apply word16_zero].
  - split; [assumption|].
    cbn [repeat Rfc1071.word_total] in *. rewrite word16_zero, IH1.
    reflexivity.
Qed.

Lemma word_total_padded o data k :
  Rfc1071.word_total o (data ++ repeat x00 k) = Rfc1071.word_total o data.
Proof.
  induction data as [| b | b0 b1 rest IH] using list_pair_ind.
  - apply word_total_zeros.
  - destruct k as [|k]; [reflexivity|].
    cbn [app repeat Rfc1071.word_total]. rewrite word_total_zeros. lia.
  - cbn [app Rfc1071.word_total]. rewrite IH. reflexivity.
Qed.

(** X2.  Zero bytes appended to the data do not change its checksum,
    whatever the parity of either length: the odd byte that
    [icmp_checksum] pads with zero counts as the word it would form with a
    zero byte after it. *)
Theorem icmp_checksum_zero_padding
    (o : byte_order) (data : list byte) (k : nat) :
  icmp_checksum o (data ++ repeat x00 k) (length data + k)
  = icmp_checksum o data (length data).
Proof.
  rewrite !icmp_checksum_total.
  rewrite firstn_all2 by (rewrite length_app, repeat_length; lia).
  rewrite firstn_all, word_total_padded. reflexivity.
Qed.

Lemma Z_of_byte_inj (a b : byte) : Z_of_byte a = Z_of_byte b -> a = b.
Proof.
  unfold Z_of_byte. intros H. apply N2Z.inj in H.
  pose proof (Byte.of_to_N a) as Ha. rewrite H, Byte.of_to_N in Ha.
  congruence.
Qed.

Lemma word_total_set_byte o data :
  forall i b, (i < length data)%nat ->
    Rfc1071.word_total o (set_byte data i b)
    = Rfc1071.word_total o data
      + (Z_of_byte b - Z_of_byte (nth i data x00)) * byte_weight o i.
Proof.
  unfold set_byte, write_bytes.
  induction data as [| a | a0 a1 rest IH] using list_pair_ind;
    intros i b Hi; cbn [length] in Hi.
  - lia.
  - assert (i = 0)%nat as -> by lia.
    destruct o; cbn -[Z.mul Z.add Z.sub]; unfold word16;
      change (Z_of_byte "000") with 0; lia.
  - destruct i as [|[|i]].
    + destruct o; cbn -[Z.mul Z.add Z.sub]; unfold word16; lia.
    + destruct o; cbn -[Z.mul Z.add Z.sub]; unfold word16; lia.
    + specialize (IH i b ltac:(lia)).
      cbn [firstn app length Nat.add skipn nth Rfc1071.word_total] in *.
      rewrite IH. unfold byte_weight. cbn [Nat.even]. lia.
Qed.

Lemma firstn_set_byte buf i b n :
  (i < n)%nat -> (n <= length buf)%nat ->
  firstn n (set_byte buf i b) = set_byte (firstn n buf) i b.
Proof.
  intros Hi Hn. unfold set_byte, write_bytes. cbn [length].
  rewrite firstn_app, length_firstn, Nat.min_l by lia.
  rewrite (firstn_all2 (n := n) (firstn i buf))
    by (rewrite length_firstn; lia).
  f_equal; [rewrite firstn_firstn, Nat.min_l by lia; reflexivity|].
  replace (n - i)%nat with (S (n - i - 1)) by lia.
  cbn [app firstn]. f_equal.
  rewrite skipn_firstn_comm. f_equal. lia.
Qed.

(** X3.  Over data of at most 128 KiB, changing the value of any one of
    the summed bytes changes the checksum: [icmp_checksum] detects every
    single-byte error. *)
Theorem icmp_checksum_detects_byte_change
    (o : byte_order) (buf : list byte) (len i : nat) (b : byte) :
  Z.of_nat len <= 131072 ->
  (i < len)%nat -> (len <= length buf)%nat ->
  b <> nth i buf x00 ->
  icmp_checksum o (set_byte buf i b) len <> icmp_checksum o buf len.
Proof.
  intros Hbound Hi Hlen Hb.
  rewrite !icmp_checksum_total, firstn_set_byte by assumption.
  rewrite word_total_set_byte by (rewrite length_firstn; lia).
  rewrite nth_firstn.
  destruct (Nat.ltb_spec i len) as [_|]; [|lia].
  set (T := Rfc1071.word_total o (firstn len buf)).
  set (d := (Z_of_byte b - Z_of_byte (nth i buf x00)) * byte_weight o i).
  assert (HT : 0 <= T < 4294967296).
  { pose proof (word_total_nonneg o (firstn len buf)).
    pose proof (word_total_bound o (firstn len buf)) as Hb'.
    pose proof (firstn_le_length len buf). fold T in Hb'. subst T. lia. }
  assert (HT' : 0 <= T + d < 4294967296).
  { pose proof (word_total_nonneg o
                  (set_byte (firstn len buf) i b)) as H1.
    pose proof (word_total_bound o
                  (set_byte (firstn len buf) i b)) as H2.
    rewrite word_total_set_byte in H1, H2 by (rewrite length_firstn; lia).
    rewrite nth_firstn in H1, H2.
    destruct (Nat.ltb_spec i len); [|lia].
    fold T d in H1, H2.
    assert (length (set_byte (firstn len buf) i b) = len).
    { rewrite <- firstn_set_byte by assumption.
      rewrite length_firstn. unfold set_byte, write_bytes.
      rewrite !length_app, length_firstn, length_skipn. cbn [length]. lia. }
    lia. }
  assert (Hd : d <> 0 /\ -65535 < d < 65535).
  { subst d.
    pose proof (Z_of_byte_range b). pose proof (Z_of_byte_range (nth i buf x00)).
    assert (Z_of_byte b <> Z_of_byte (nth i buf x00))
      by (intros E; apply Hb, Z_of_byte_inj, E).
    unfold byte_weight. destruct o, (Nat.even i); lia. }
  clearbody T d.
  rewrite !uint32_small by lia.
  destruct (fold_carries_spec fold_fuel T) as (Hr & Hm & _);
    [unfold fold_fuel; lia | lia |].
  destruct (fold_carries_spec fold_fuel (T + d)) as (Hr' & Hm' & _);
    [unfold fold_fuel; lia | lia |].
  intros E.
  assert (E' : fold_carries fold_fuel (T + d) = fold_carries fold_fuel T)
    by lia.
  rewrite E', Hm in Hm'.
  assert (Hdiv : (T + d - T) mod 65535 = 0).
  { rewrite Zminus_mod, <- Hm', Z.sub_diag. reflexivity. }
  replace (T + d - T) with d in Hdiv by lia.
  apply Z.mod_divide in Hdiv; [|lia].
  destruct Hdiv as [q Hq]. lia.
Qed.

Lemma icmp_checksum_detects_byte_change_witness :
  icmp_checksum LittleEndian (set_byte sample_datagram 20 x00) 28
  <> icmp_checksum LittleEndian sample_datagram 28.
Proof.
  apply (icmp_checksum_detects_byte_change LittleEndian sample_datagram
           28 20 x00).
  - cbn. lia.
  - lia.
  - cbn. lia.
  - cbn. discriminate.
Defined.

Lemma word16_swap b0 b1 :
  word16 LittleEndian b0 b1 = swap16 (word16 BigEndian b0 b1).
Proof.
  unfold word16, swap16.
  pose proof (Z_of_byte_range b0). pose proof (Z_of_byte_range b1).
  Z.div_mod_to_equations. lia.
Qed.

(** Exchanging the bytes of every word multiplies the sum by 256 modulo
    2^16 - 1. *)
Lemma word_total_swap data :
  exists h,
    0 <= h
    /\ Rfc1071.word_total LittleEndian data
       = 256 * Rfc1071.word_total BigEndian data - 65535 * h
    /\ Rfc1071.word_total LittleEndian data
       <= 256 * Rfc1071.word_total BigEndian data
    /\ Rfc1071.word_total BigEndian data
       <= 256 * Rfc1071.word_total LittleEndian data.
Proof.
  induction data as [| b | b0 b1 rest (h & Hh & IH1 & IH2 & IH3)]
    using list_pair_ind; cbn [Rfc1071.word_total].
  - exists 0. lia.
  - exists (Z_of_byte b). unfold word16.
    pose proof (Z_of_byte_range b).
    change (Z_of_byte x00) with 0. lia.
  - exists (h + Z_of_byte b0). unfold word16.
    pose proof (Z_of_byte_range b0). pose proof (Z_of_byte_range b1). lia.
Qed.

Lemma swap16_complement r :
  0 <= r < 65536 -> swap16 (65535 - r) = 65535 - swap16 r.
Proof.
  intros Hr. unfold swap16. Z.div_mod_to_equations. lia.
Qed.

Lemma bytes16_swap c :
  0 <= c < 65536 -> bytes16 LittleEndian (swap16 c) = bytes16 BigEndian c.
Proof.
  intros Hc. unfold bytes16, swap16.
  f_equal; [|f_equal]; apply byte_of_Z_congr;
    Z.div_mod_to_equations; lia.
Qed.

(** The value computed on a little-endian host is the value computed on a
    big-endian host with its bytes exchanged. *)
Lemma icmp_checksum_swap (buf : list byte) (n : nat) :
  Z.of_nat n <= 131072 ->
  icmp_checksum LittleEndian buf n = swap16 (icmp_checksum BigEndian buf n).
Proof.
  intros Hn. rewrite !icmp_checksum_total.
  destruct (word_total_swap (firstn n buf)) as (h & Hh & Hle & Hle1 & Hle2).
  set (TL := Rfc1071.word_total LittleEndian (firstn n buf)) in *.
  set (TB := Rfc1071.word_total BigEndian (firstn n buf)) in *.
  assert (HTL : 0 <= TL < 4294967296).
  { pose proof (word_total_nonneg LittleEndian (firstn n buf)).
    pose proof (word_total_bound LittleEndian (firstn n buf)) as Hb.
    pose proof (firstn_le_length n buf). fold TL in Hb. subst TL. lia. }
  assert (HTB : 0 <= TB < 4294967296).
  { pose proof (word_total_nonneg BigEndian (firstn n buf)).
    pose proof (word_total_bound BigEndian (firstn n buf)) as Hb.
    pose proof (firstn_le_length n buf). fold TB in Hb. subst TB. lia. }
  clearbody TL TB.
  rewrite !uint32_small by lia.
  assert (Hfuel : (2 <= fold_fuel)%nat) by (unfold fold_fuel; lia).
  destruct (fold_carries_spec fold_fuel TL Hfuel HTL) as (HrL & HmL & HzL).
  destruct (fold_carries_spec fold_fuel TB Hfuel HTB) as (HrB & HmB & HzB).
  assert (H0L : TL = 0 -> fold_carries fold_fuel TL = 0).
  { intros ->. apply fold_carries_small. lia. }
  assert (H0B : TB = 0 -> fold_carries fold_fuel TB = 0).
  { intros ->. apply fold_carries_small. lia. }
  set (rL := fold_carries fold_fuel TL) in *.
  set (rB := fold_carries fold_fuel TB) in *. clearbody rL rB.
  rewrite swap16_complement by lia. f_equal.
  assert (Hsw : 0 <= swap16 rB < 65536
                /\ (rB = 0 <-> swap16 rB = 0)
                /\ exists k, swap16 rB = 256 * rB - 65535 * k).
  { unfold swap16. split; [|split].
    - Z.div_mod_to_equations. lia.
    - Z.div_mod_to_equations. lia.
    - exists (rB / 256). Z.div_mod_to_equations. lia. }
  destruct Hsw as (Hsr & Hsz & k & Hk).
  assert (HcL : exists a, TL = rL + 65535 * a).
  { exists (TL / 65535 - rL / 65535).
    pose proof (Z.div_mod TL 65535 ltac:(lia)).
    pose proof (Z.div_mod rL 65535 ltac:(lia)). lia. }
  assert (HcB : exists a, TB = rB + 65535 * a).
  { exists (TB / 65535 - rB / 65535).
    pose proof (Z.div_mod TB 65535 ltac:(lia)).
    pose proof (Z.div_mod rB 65535 ltac:(lia)). lia. }
  destruct HcL as [aL HaL]. destruct HcB as [aB HaB].
  destruct (Z.eq_dec TB 0) as [E | E].
  - assert (TL = 0) by lia. rewrite (H0L H), (H0B E). reflexivity.
  - assert (rB <> 0) by (intros E'; apply E, HzB, E').
    assert (TL <> 0) by lia.
    assert (rL <> 0) by (intros E'; auto).
    assert (swap16 rB <> 0) by (intros E'; apply Hsz in E'; contradiction).
    assert (Hq : exists q, rL - swap16 rB = 65535 * q).
    { exists (256 * aB - h - aL + k). lia. }
    destruct Hq as [q Hq]. lia.
Qed.

(** X4.  For a message of at most 128 KiB, [icmp_build_echo] produces the
    same bytes on a little-endian and on a big-endian host: the checksum is
    summed in host order and stored in host order, and the two cancel. *)
Theorem icmp_build_echo_byte_order_independent
    (id seq : Z) (payload : option (list byte))
    (payload_len : nat) (out : list byte) (out_len : nat) :
  buffers_fit payload payload_len out = true ->
  Z.of_nat (8 + payload_len) <= 131072 ->
  icmp_build_echo LittleEndian id seq payload payload_len
    (Some out) (Some out_len)
  = icmp_build_echo BigEndian id seq payload payload_len
      (Some out) (Some out_len).
Proof.
  intros Hfit Hn. apply buffers_fit_spec in Hfit as [Hb Hp].
  rewrite !icmp_build_echo_layout by assumption.
  rewrite icmp_checksum_swap by assumption.
  assert (E0 : bytes16 LittleEndian 0 = bytes16 BigEndian 0) by reflexivity.
  rewrite E0, bytes16_swap by apply icmp_checksum_range.
  reflexivity.
Qed.

Lemma icmp_build_echo_byte_order_independent_witness :
  icmp_build_echo LittleEndian 4660 1 (Some sample_payload) 5
    (Some sample_out) (Some 0%nat)
  = icmp_build_echo BigEndian 4660 1 (Some sample_payload) 5
      (Some sample_out) (Some 0%nat).
Proof.
  apply (icmp_build_echo_byte_order_independent 4660 1 (Some sample_payload)
           5 sample_out 0).
  - reflexivity.
  - cbn. lia.
Defined.

(** X5.  [icmp_parse_response] reads the first [len] bytes of the packet
    only, and neither [expected_ip] nor the previous content of
    [*out_type]: two calls that agree on those bytes give the same
    result. *)
Theorem icmp_parse_response_reads_within_len
    (buf buf' : list byte) (len : nat) (ip ip' : string) (t0 t0' : Z) :
  firstn len buf = firstn len buf' ->
  icmp_parse_response (Some buf) len ip (Some t0)
  = icmp_parse_response (Some buf') len ip' (Some t0').
Proof.
  intros Hsame.
  assert (Hnth : forall i, (i < len)%nat -> nth i buf x00 = nth i buf' x00).
  { intros i Hi.
    assert (E : nth i (firstn len buf) x00 = nth i (firstn len buf') x00)
      by (rewrite Hsame; reflexivity).
    rewrite !nth_firstn in E.
    destruct (Nat.ltb_spec i len); [exact E | lia]. }
  unfold icmp_parse_response, sizeof_iphdr, sizeof_icmphdr, load8.
  destruct (Nat.ltb_spec len 20) as [|H20]; [reflexivity|].
  rewrite (Hnth 0%nat) by lia.
  destruct (Nat.ltb_spec len
              (Z.to_nat (Z.land (Z_of_byte (nth 0 buf' x00)) 15 * 4) + 8))
    as [|Hi]; [reflexivity|].
  rewrite Hnth by lia. reflexivity.
Qed.

Lemma icmp_parse_response_reads_within_len_witness :
  icmp_parse_response (Some sample_datagram) 28 "10.0.0.1" (Some 0)
  = icmp_parse_response (Some padded_datagram) 28 "" (Some 7).
Proof.
  apply (icmp_parse_response_reads_within_len sample_datagram
           padded_datagram 28 "10.0.0.1" "" 0 7).
  reflexivity.
Defined.

End CodecFacts.

(* ================================================================= *)
(** ** The traceroute engine, further *)

Section EngineFacts.

Import Icmp Net Tracer.

Section LoopCases.

Variables (o : byte_order) (env : environment) (sa : sockaddr) (fd : Z).

(** Reasoning by cases on what one turn of the loop does. *)
Lemma tracer_loop_cases
    (P : nat -> Z -> TraceRoute -> os_state ->
         Z * TraceRoute * os_state -> Prop) :
  (forall ttl out st, P 0%nat ttl out st (0, out, close fd st)) ->
  (forall n ttl out st,
     ret (p_sendto (e_probe env ttl)) < 0 ->
     P (S n) ttl out st
       (-1, out, close fd (perror "sendto" (probe_sent o env sa fd ttl st)))) ->
  (forall n ttl out st,
     0 <= ret (p_sendto (e_probe env ttl)) ->
     no_reply (e_probe env ttl) = false ->
     parsed_type (e_probe env ttl) = ICMP_ECHOREPLY ->
     P (S n) ttl out st
       (0, tracer_append out (recorded_hop env ttl),
        close fd (probe_sent o env sa fd ttl st))) ->
  (forall n ttl out st,
     0 <= ret (p_sendto (e_probe env ttl)) ->
     (no_reply (e_probe env ttl) = true
      \/ parsed_type (e_probe env ttl) <> ICMP_ECHOREPLY) ->
     P n (ttl + 1) (tracer_append out (recorded_hop env ttl))
       (probe_sent o env sa fd ttl st)
       (tracer_loop o env sa fd n (ttl + 1)
          (tracer_append out (recorded_hop env ttl))
          (probe_sent o env sa fd ttl st)) ->
     P (S n) ttl out st
       (tracer_loop o env sa fd n (ttl + 1)
          (tracer_append out (recorded_hop env ttl))
          (probe_sent o env sa fd ttl st))) ->
  forall n ttl out st, P n ttl out st (tracer_loop o env sa fd n ttl out st).
Proof.
  intros Hexit Hfail Hecho Hnext.
  induction n as [|n IH]; intros ttl out st.
  - apply Hexit.
  - rewrite tracer_loop_S. cbv zeta. unfold recorded_hop in *.
    destruct (Z.ltb_spec (ret (p_sendto (e_probe env ttl))) 0) as [Hs | Hs].
    + apply Hfail. assumption.
    + specialize (Hnext n ttl out st Hs). specialize (Hecho n ttl out st Hs).
      destruct (no_reply (e_probe env ttl)).
      * apply Hnext; [left; reflexivity | apply IH].
      * destruct (Z.eqb_spec (parsed_type (e_probe env ttl)) ICMP_ECHOREPLY).
        -- apply Hecho; auto.
        -- apply Hnext; [right; assumption | apply IH].
Qed.

End LoopCases.

Lemma sockets_opened_app a b :
  sockets_opened (a ++ b) = sockets_opened a ++ sockets_opened b.
Proof.
  induction a as [|e a IH]; [reflexivity|].
  destruct e; cbn [app sockets_opened]; rewrite IH; reflexivity.
Qed.

Lemma sockets_closed_app a b :
  sockets_closed (a ++ b) = sockets_closed a ++ sockets_closed b.
Proof.
  induction a as [|e a IH]; [reflexivity|].
  destruct e; cbn [app sockets_closed]; rewrite IH; reflexivity.
Qed.

Lemma send_results_app a b :
  send_results (a ++ b) = send_results a ++ send_results b.
Proof.
  induction a as [|e a IH]; [reflexivity|].
  destruct e; cbn [app send_results]; rewrite IH; reflexivity.
Qed.

(** What probing one value adds to the effects: the TTL is set, a line is
    printed if that failed, and the datagram is handed to [sendto]. *)
Lemma trace_probe_sent o env sa fd ttl st :
  exists setttl,
    trace (probe_sent o env sa fd ttl st)
    = trace st ++ TtlSet fd ttl :: setttl
        ++ [Sendto fd (probe_packet o ttl) sa
              (ret (p_sendto (e_probe env ttl)))]
    /\ (setttl = []
        \/ exists e, setttl = [Stderr (Perror "setsockopt IP_TTL" e)]).
Proof.
  unfold probe_sent, net_set_ttl, syscall, perror, emit, set_errno.
  cbv zeta. cbn [fst snd trace errno].
  destruct (ret (p_setsockopt (e_probe env ttl)) <? 0);
    destruct (ret (p_sendto (e_probe env ttl)) <? 0);
    cbn [fst snd trace errno].
  all: try (exists [Stderr (Perror "setsockopt IP_TTL"
                              (err (p_setsockopt (e_probe env ttl))))];
            split; [rewrite <- !app_assoc; reflexivity | right; eauto]).
  all: exists []; split; [rewrite <- !app_assoc; reflexivity | left; reflexivity].
Qed.

Lemma probe_sent_sockets o env sa fd ttl st :
  sockets_opened (trace (probe_sent o env sa fd ttl st))
  = sockets_opened (trace st)
  /\ sockets_closed (trace (probe_sent o env sa fd ttl st))
     = sockets_closed (trace st)
  /\ send_results (trace (probe_sent o env sa fd ttl st))
     = send_results (trace st) ++ [ret (p_sendto (e_probe env ttl))].
Proof.
  destruct (trace_probe_sent o env sa fd ttl st) as (s & -> & Hs).
  rewrite sockets_opened_app, sockets_closed_app, send_results_app.
  destruct Hs as [-> | [e ->]]; cbn; rewrite ?app_nil_r; auto.
Qed.

Lemma trace_close fd st : trace (close fd st) = trace st ++ [SocketClosed fd].
Proof. reflexivity. Qed.

Lemma trace_perror msg st :
  trace (perror msg st) = trace st ++ [Stderr (Perror msg (errno st))].
Proof. reflexivity. Qed.

Section Lifecycle.

Variables (o : byte_order) (env : environment) (sa : sockaddr) (fd : Z).

Lemma tracer_loop_closes n ttl out st :
  let st' := snd (tracer_loop o env sa fd n ttl out st) in
  sockets_opened (trace st') = sockets_opened (trace st)
  /\ sockets_closed (trace st') = sockets_closed (trace st) ++ [fd]
  /\ exists pre, trace st' = pre ++ [SocketClosed fd].
Proof.
  revert n ttl out st.
  apply (tracer_loop_cases o env sa fd
           (fun n ttl out st res =>
              let st' := snd res in
              sockets_opened (trace st') = sockets_opened (trace st)
              /\ sockets_closed (trace st') = sockets_closed (trace st) ++ [fd]
              /\ exists pre, trace st' = pre ++ [SocketClosed fd]));
    cbv zeta; cbn [snd].
  - intros ttl out st.
    rewrite trace_close, sockets_opened_app, sockets_closed_app. cbn.
    rewrite app_nil_r. eauto.
  - intros n ttl out st _.
    destruct (probe_sent_sockets o env sa fd ttl st) as (Ho & Hc & _).
    rewrite trace_close, trace_perror, !sockets_opened_app,
      !sockets_closed_app, Ho, Hc.
    cbn. rewrite !app_nil_r. eauto.
  - intros n ttl out st _ _ _.
    destruct (probe_sent_sockets o env sa fd ttl st) as (Ho & Hc & _).
    rewrite trace_close, !sockets_opened_app, !sockets_closed_app, Ho, Hc.
    cbn. rewrite !app_nil_r. eauto.
  - intros n ttl out st _ _ (IH1 & IH2 & IH3).
    destruct (probe_sent_sockets o env sa fd ttl st) as (Ho & Hc & _).
    rewrite IH1, IH2, Ho, Hc. auto.
Qed.

End Lifecycle.

(** X6.  [tracer_run] opens one socket and closes it exactly once, as the
    last thing it does, whichever way the loop ends (range exhausted, Echo
    Reply, failed [sendto]).  When the target does not resolve or the raw
    socket is refused, it neither opens nor closes any descriptor. *)
Theorem tracer_run_closes_its_socket
    (o : byte_order) (env : environment) (cfg : CommandLine)
    (out : TraceRoute) (st : os_state) :
  let st' := snd (tracer_run o env cfg out st) in
  let fd := ret (e_raw_socket env) in
  (gai_status (e_resolver env) = 0 /\ 0 <= fd ->
   sockets_opened (trace st') = sockets_opened (trace st) ++ [fd]
   /\ sockets_closed (trace st') = sockets_closed (trace st) ++ [fd]
   /\ exists pre, trace st' = pre ++ [SocketClosed fd])
  /\ (gai_status (e_resolver env) <> 0 \/ fd < 0 ->
      sockets_opened (trace st') = sockets_opened (trace st)
      /\ sockets_closed (trace st') = sockets_closed (trace st)).
Proof.
  cbv zeta. split.
  - intros [H0 H1]. rewrite tracer_run_started by assumption.
    destruct (tracer_loop_closes o env (ai_addr (e_resolver env))
                (ret (e_raw_socket env))
                (Z.to_nat (ttl_max cfg - ttl_start cfg + 1))
                (ttl_start cfg) empty_route
                (emit (SocketOpened (ret (e_raw_socket env))) st))
      as (Ho & Hc & Hlast).
    rewrite Ho, Hc. unfold emit. cbn [trace].
    rewrite sockets_opened_app, sockets_closed_app. cbn.
    rewrite app_nil_r. auto.
  - intros Hfail.
    destruct (Z.eq_dec (gai_status (e_resolver env)) 0) as [H0 | H0].
    + destruct Hfail as [Hfail | Hfail]; [contradiction|].
      rewrite tracer_run_no_socket by assumption. cbn [snd].
      unfold net_icmp_raw_socket, sys_socket, syscall, fprintf_stderr,
        perror, emit, set_errno.
      destruct (Z.ltb_spec (ret (e_raw_socket env)) 0); [|lia].
      cbn [errno trace].
      destruct (err (e_raw_socket env) =? EPERM); cbn [snd trace];
        rewrite !sockets_opened_app, !sockets_closed_app; cbn;
        rewrite !app_nil_r; auto.
    + rewrite tracer_run_unresolved by assumption. cbn [snd].
      unfold fprintf_stderr, emit. cbn [trace].
      rewrite !sockets_opened_app, !sockets_closed_app. cbn.
      rewrite !app_nil_r. auto.
Qed.

Lemma tracer_run_closes_its_socket_witness :
  (sockets_opened
     (trace (snd (tracer_run LittleEndian failing_env sample_cfg stale_route
                    fresh_os))) = [3]
   /\ sockets_closed
        (trace (snd (tracer_run LittleEndian failing_env sample_cfg
                       stale_route fresh_os))) = [3]
   /\ exists pre,
        trace (snd (tracer_run LittleEndian failing_env sample_cfg
                      stale_route fresh_os)) = pre ++ [SocketClosed 3])
  /\ (sockets_opened
        (trace (snd (tracer_run LittleEndian unprivileged_env sample_cfg
                       stale_route fresh_os))) = []
      /\ sockets_closed
           (trace (snd (tracer_run LittleEndian unprivileged_env sample_cfg
                          stale_route fresh_os))) = []).
Proof.
  split.
  - apply (proj1 (tracer_run_closes_its_socket LittleEndian failing_env
                    sample_cfg stale_route fresh_os)).
    split; [reflexivity | cbn; lia].
  - apply (proj2 (tracer_run_closes_its_socket LittleEndian unprivileged_env
                    sample_cfg stale_route fresh_os)).
    right. cbn. lia.
Defined.

Lemma ttls_from_S ttl k : ttls_from ttl (S k) = ttl :: ttls_from (ttl + 1) k.
Proof.
  unfold ttls_from. cbn [seq map]. rewrite Z.add_0_r. f_equal.
  rewrite <- seq_shift, map_map. apply map_ext. intros i. lia.
Qed.

Lemma nth_error_ttls_from ttl k i t :
  nth_error (ttls_from ttl k) i = Some t -> t = ttl + Z.of_nat i /\ (i < k)%nat.
Proof.
  unfold ttls_from. intros H.
  rewrite nth_error_map in H.
  destruct (nth_error (seq 0 k) i) as [j|] eqn:E; [|discriminate].
  cbn in H. injection H as <-.
  assert (Hi : (i < k)%nat).
  { assert (Hsome : nth_error (seq 0 k) i <> None) by congruence.
    apply nth_error_Some in Hsome. rewrite length_seq in Hsome. exact Hsome. }
  rewrite nth_error_seq in E.
  destruct (Nat.ltb_spec i k); [|lia].
  injection E as <-. split; [f_equal; lia | assumption].
Qed.

Section Summary.

Variables (o : byte_order) (env : environment) (sa : sockaddr) (fd : Z).

(** A run of the loop probes [k] values, records the hop of each probe
    that was sent, and stops on the first failed [sendto]. *)
Lemma tracer_loop_summary n ttl out st :
  route_wf out ->
  let res := tracer_loop o env sa fd n ttl out st in
  exists k bad,
    (k <= n)%nat
    /\ route_wf (snd (fst res))
    /\ hops_of (snd (fst res))
       = hops_of out ++ map (recorded_hop env) (ttls_from ttl k)
    /\ len (snd (fst res)) = (len out + k)%nat
    /\ send_results (trace (snd res))
       = send_results (trace st)
         ++ map (fun t => ret (p_sendto (e_probe env t))) (ttls_from ttl k)
         ++ bad
    /\ Forall (fun t => 0 <= ret (p_sendto (e_probe env t)))
         (ttls_from ttl k)
    /\ loop_end env n ttl k (fst (fst res)) bad.
Proof.
  revert n ttl out st.
  apply (tracer_loop_cases o env sa fd
           (fun n ttl out st res =>
              route_wf out ->
              exists k bad,
                (k <= n)%nat
                /\ route_wf (snd (fst res))
                /\ hops_of (snd (fst res))
                   = hops_of out ++ map (recorded_hop env) (ttls_from ttl k)
                /\ len (snd (fst res)) = (len out + k)%nat
                /\ send_results (trace (snd res))
                   = send_results (trace st)
                     ++ map (fun t => ret (p_sendto (e_probe env t)))
                          (ttls_from ttl k)
                     ++ bad
                /\ Forall (fun t => 0 <= ret (p_sendto (e_probe env t)))
                     (ttls_from ttl k)
                /\ loop_end env n ttl k (fst (fst res)) bad));
    cbn [fst snd].
  - intros ttl out st Hwf. exists 0%nat, [].
    rewrite trace_close, send_results_app.
    cbn [send_results ttls_from seq map app]. rewrite !app_nil_r.
    split; [lia|]. split; [assumption|]. split; [reflexivity|].
    split; [lia|]. split; [reflexivity|]. split; [constructor|].
    left. auto.
  - intros n ttl out st Hs Hwf.
    exists 0%nat, [ret (p_sendto (e_probe env ttl))].
    destruct (probe_sent_sockets o env sa fd ttl st) as (_ & _ & Hr).
    rewrite trace_close, trace_perror, !send_results_app, Hr.
    cbn [send_results ttls_from seq map app]. rewrite !app_nil_r.
    split; [lia|]. split; [assumption|]. split; [reflexivity|].
    split; [lia|]. split; [reflexivity|]. split; [constructor|].
    right. cbn [Z.of_nat]. rewrite Z.add_0_r. auto.
  - intros n ttl out st Hs Hrep Hty Hwf.
    destruct (tracer_append_hops out (recorded_hop env ttl) Hwf)
      as (Hwf1 & Hh1 & Hl1).
    destruct (probe_sent_sockets o env sa fd ttl st) as (_ & _ & Hr).
    exists 1%nat, [].
    rewrite trace_close, !send_results_app, Hr, Hh1, Hl1.
    unfold ttls_from. cbn [send_results seq map app Z.of_nat].
    rewrite !app_nil_r, Z.add_0_r.
    split; [lia|]. split; [assumption|]. split; [reflexivity|].
    split; [lia|]. split; [reflexivity|].
    split; [constructor; [assumption | constructor]|].
    left. split; [reflexivity|]. split; [reflexivity|].
    right. exists 0%nat. cbn [Z.of_nat]. rewrite Z.add_0_r. auto.
  - intros n ttl out st Hs Hcont IH Hwf.
    destruct (tracer_append_hops out (recorded_hop env ttl) Hwf)
      as (Hwf1 & Hh1 & Hl1).
    destruct (probe_sent_sockets o env sa fd ttl st) as (_ & _ & Hr).
    destruct (IH Hwf1) as (k & bad & Hk & Hwf' & Hh & Hl & Hsr & Hall & Hend).
    exists (S k), bad.
    rewrite ttls_from_S. cbn [map].
    rewrite Hh, Hh1, Hl, Hl1, Hsr, Hr, <- !app_assoc. cbn [app].
    split; [lia|]. split; [assumption|]. split; [reflexivity|].
    split; [lia|]. split; [reflexivity|].
    split; [constructor; assumption |].
    unfold loop_end in *.
    replace (ttl + Z.of_nat (S k)) with (ttl + 1 + Z.of_nat k) by lia.
    destruct Hend as [(H0 & Hb & [Hkn | (j & Hj & Hnr & Hty)]) | Hbad].
    + left. split; [assumption|]. split; [assumption|]. left. lia.
    + left. split; [assumption|]. split; [assumption|]. right.
      exists (S j).
      replace (ttl + Z.of_nat (S j)) with (ttl + 1 + Z.of_nat j) by lia.
      split; [lia|]. auto.
    + right. assumption.
Qed.

End Summary.

Lemma tracer_run_summary o env cfg out st :
  gai_status (e_resolver env) = 0 ->
  0 <= ret (e_raw_socket env) ->
  let res := tracer_run o env cfg out st in
  exists k bad,
    (k <= ttl_count cfg)%nat
    /\ route_wf (snd (fst res))
    /\ hops_of (snd (fst res))
       = map (recorded_hop env) (ttls_from (ttl_start cfg) k)
    /\ len (snd (fst res)) = k
    /\ send_results (trace (snd res))
       = send_results (trace st)
         ++ map (fun t => ret (p_sendto (e_probe env t)))
              (ttls_from (ttl_start cfg) k)
         ++ bad
    /\ Forall (fun t => 0 <= ret (p_sendto (e_probe env t)))
         (ttls_from (ttl_start cfg) k)
    /\ loop_end env (ttl_count cfg) (ttl_start cfg) k (fst (fst res)) bad.
Proof.
  intros H0 H1. cbv zeta. rewrite tracer_run_started by assumption.
  destruct (tracer_loop_summary o env (ai_addr (e_resolver env))
              (ret (e_raw_socket env)) (ttl_count cfg) (ttl_start cfg)
              empty_route (emit (SocketOpened (ret (e_raw_socket env))) st)
              route_wf_empty)
    as (k & bad & Hk & Hwf & Hh & Hl & Hs & Hall & Hend).
  exists k, bad. fold (ttl_count cfg).
  split; [assumption|]. split; [assumption|].
  split; [rewrite Hh; reflexivity|].
  split; [rewrite Hl; reflexivity|].
  split; [|split; assumption].
  rewrite Hs. unfold emit. cbn [trace]. rewrite send_results_app.
  cbn [send_results]. rewrite app_nil_r. reflexivity.
Qed.

(** X7.  Every hop of the route is the one the answer to its probe
    decides.  The [i]-th hop belongs to a probe, for [ttl_start + i], that
    [sendto] accepted.  When [select] returned 0 or [recvfrom] failed it
    is the placeholder.  Otherwise it carries the address of the sender
    both as [host] and as [ip] (no reverse lookup is made), the difference
    of the two clock readings cut to an [int] as [rtt_ms], and no timeout
    mark, whatever the datagram contains. *)
Theorem tracer_run_hop_contents
    (o : byte_order) (env : environment) (cfg : CommandLine)
    (out : TraceRoute) (st : os_state) (i : nat) (h : Hop) :
  gai_status (e_resolver env) = 0 ->
  0 <= ret (e_raw_socket env) ->
  nth_error (hops_of (snd (fst (tracer_run o env cfg out st)))) i = Some h ->
  let ttl := ttl_start cfg + Z.of_nat i in
  let p := e_probe env ttl in
  0 <= ret (p_sendto p)
  /\ h = if (p_select p =? 0) || (p_recvfrom p <? 0)
         then mk_hop ttl "?" "*" (-1) true
         else mk_hop ttl (p_reply_ip p) (p_reply_ip p)
                (int_of_long (p_tend p - p_tstart p)) false.
Proof.
  intros H0 H1 Hi ttl p.
  destruct (tracer_run_summary o env cfg out st H0 H1)
    as (k & bad & _ & _ & Hh & _ & _ & Hall & _).
  rewrite Hh, nth_error_map in Hi.
  destruct (nth_error (ttls_from (ttl_start cfg) k) i) as [t|] eqn:E;
    [|discriminate].
  cbn in Hi. injection Hi as <-.
  rewrite Forall_forall in Hall.
  pose proof (Hall t (nth_error_In _ _ E)) as Hsent.
  apply nth_error_ttls_from in E as [-> _].
  split; [exact Hsent | reflexivity].
Qed.

Lemma tracer_run_hop_contents_witness :
  0 <= ret (p_sendto (e_probe sample_env (1 + Z.of_nat 2)))
  /\ mk_hop 3 "192.0.2.1" "192.0.2.1" 7 false
     = mk_hop 3 "192.0.2.1" "192.0.2.1" (int_of_long (107 - 100)) false.
Proof.
  apply (tracer_run_hop_contents LittleEndian sample_env sample_cfg
           stale_route fresh_os 2 (mk_hop 3 "192.0.2.1" "192.0.2.1" 7 false)).
  - reflexivity.
  - cbn. lia.
  - reflexivity.
Defined.

(** X8.  Once the socket is open, every call of [sendto] that succeeded
    has its hop in the route, and the run returns 0 exactly when none
    failed: on return 0 the route has as many hops as [sendto] was called;
    on return -1 it has one less, the call that failed being the last one
    made and the only one to fail. *)
Theorem tracer_run_sends_and_hops
    (o : byte_order) (env : environment) (cfg : CommandLine)
    (out : TraceRoute) (st : os_state) :
  gai_status (e_resolver env) = 0 ->
  0 <= ret (e_raw_socket env) ->
  let res := tracer_run o env cfg out st in
  let calls := skipn (length (send_results (trace st)))
                 (send_results (trace (snd res))) in
  send_results (trace (snd res)) = send_results (trace st) ++ calls
  /\ (fst (fst res) = 0
      /\ length calls = len (snd (fst res))
      /\ Forall (fun r => 0 <= r) calls
      \/ fst (fst res) = -1
         /\ length calls = S (len (snd (fst res)))
         /\ Forall (fun r => 0 <= r) (firstn (len (snd (fst res))) calls)
         /\ exists r, nth_error calls (len (snd (fst res))) = Some r /\ r < 0).
Proof.
  intros H0 H1.
  destruct (tracer_run_summary o env cfg out st H0 H1)
    as (k & bad & _ & _ & _ & Hl & Hs & Hall & Hend).
  cbv zeta in *. rewrite Hl, Hs.
  rewrite skipn_app, skipn_all, Nat.sub_diag. cbn [skipn app].
  split; [reflexivity|].
  set (ok := map (fun t => ret (p_sendto (e_probe env t)))
               (ttls_from (ttl_start cfg) k)).
  assert (Hlen : length ok = k).
  { unfold ok, ttls_from. rewrite !length_map, length_seq. reflexivity. }
  assert (Hok : Forall (fun r => 0 <= r) ok).
  { unfold ok. apply Forall_map. exact Hall. }
  destruct Hend as [(Hr & -> & _) | (Hr & -> & Hneg)].
  - left. rewrite app_nil_r. auto.
  - right. split; [assumption|].
    split; [rewrite length_app; cbn [length]; lia|].
    split.
    + rewrite <- Hlen at 1. rewrite firstn_app, firstn_all, Nat.sub_diag.
      cbn [firstn]. rewrite app_nil_r. exact Hok.
    + eexists. split; [|exact Hneg].
      rewrite nth_error_app2 by lia. rewrite Hlen, Nat.sub_diag. reflexivity.
Qed.

Lemma tracer_run_sends_and_hops_witness :
  let res := tracer_run LittleEndian failing_env sample_cfg stale_route
               fresh_os in
  let calls := skipn 0 (send_results (trace (snd res))) in
  send_results (trace (snd res)) = [] ++ calls
  /\ (fst (fst res) = 0
      /\ length calls = len (snd (fst res))
      /\ Forall (fun r => 0 <= r) calls
      \/ fst (fst res) = -1
         /\ length calls = S (len (snd (fst res)))
         /\ Forall (fun r => 0 <= r) (firstn (len (snd (fst res))) calls)
         /\ exists r, nth_error calls (len (snd (fst res))) = Some r /\ r < 0).
Proof.
  apply (tracer_run_sends_and_hops LittleEndian failing_env sample_cfg
           stale_route fresh_os).
  - reflexivity.
  - cbn. lia.
Defined.

Lemma parsed_type_echo_reply (p : probe_reply) :
  parsed_type p = ICMP_ECHOREPLY ->
  let n := Z.to_nat (p_recvfrom p) in
  let ihl := (load8 (p_recvbuf p) 0) mod 16 in
  20 <= Z.of_nat n
  /\ ihl * 4 + 8 <= Z.of_nat n
  /\ load8 (p_recvbuf p) (Z.to_nat (ihl * 4)) = 0.
Proof.
  intros H n ihl.
  unfold parsed_type, icmp_parse_response, sizeof_iphdr, sizeof_icmphdr,
    ICMP_ECHOREPLY in H.
  pose proof (load8_range (p_recvbuf p) 0) as Hb.
  assert (Hihl : 0 <= ihl < 16) by (apply Z.mod_pos_bound; lia).
  rewrite land15_mod16 in H by lia. fold ihl n in H.
  destruct (Nat.ltb_spec n 20) as [|H20]; [discriminate H|].
  destruct (Nat.ltb_spec n (Z.to_nat (ihl * 4) + 8)) as [|Hi];
    [discriminate H|].
  cbn [snd] in H. repeat split; lia.
Qed.

(** X9.  A run that returns 0 with fewer hops than the range has values
    stopped on a genuine Echo Reply: for the last value probed [select]
    did not return 0, [recvfrom] returned a datagram of at least 20 bytes
    that holds the whole ICMP header its IP header length announces, and
    the type byte of that header is 0.  A short or truncated datagram
    never ends the trace, although [icmp_type] starts at 0 and the result
    of [icmp_parse_response] is not looked at. *)
Theorem tracer_run_stops_on_echo_reply
    (o : byte_order) (env : environment) (cfg : CommandLine)
    (out : TraceRoute) (st : os_state) :
  gai_status (e_resolver env) = 0 ->
  0 <= ret (e_raw_socket env) ->
  let res := tracer_run o env cfg out st in
  fst (fst res) = 0 ->
  (len (snd (fst res)) < ttl_count cfg)%nat ->
  exists j : nat,
    len (snd (fst res)) = S j
    /\ let p := e_probe env (ttl_start cfg + Z.of_nat j) in
       let n := Z.to_nat (p_recvfrom p) in
       let ihl := (load8 (p_recvbuf p) 0) mod 16 in
       p_select p <> 0 /\ 0 <= p_recvfrom p
       /\ 20 <= Z.of_nat n /\ ihl * 4 + 8 <= Z.of_nat n
       /\ load8 (p_recvbuf p) (Z.to_nat (ihl * 4)) = 0.
Proof.
  intros H0 H1 res Hret Hshort. subst res.
  destruct (tracer_run_summary o env cfg out st H0 H1)
    as (k & bad & _ & _ & _ & Hl & _ & _ & Hend).
  cbv zeta in *. rewrite Hl in *.
  destruct Hend as [(_ & _ & [Hk | (j & Hj & Hnr & Hty)]) | (Hr & _)];
    [lia | | rewrite Hret in Hr; discriminate].
  exists j. split; [assumption|].
  unfold no_reply in Hnr. apply orb_false_iff in Hnr as [Hsel Hrcv].
  apply Z.eqb_neq in Hsel. apply Z.ltb_ge in Hrcv.
  destruct (parsed_type_echo_reply _ Hty) as (A & B & C).
  repeat split; assumption.
Qed.

Lemma tracer_run_stops_on_echo_reply_witness :
  exists j : nat,
    len (snd (fst (tracer_run LittleEndian sample_env sample_cfg stale_route
                     fresh_os))) = S j
    /\ let p := e_probe sample_env (1 + Z.of_nat j) in
       let n := Z.to_nat (p_recvfrom p) in
       let ihl := (load8 (p_recvbuf p) 0) mod 16 in
       p_select p <> 0 /\ 0 <= p_recvfrom p
       /\ 20 <= Z.of_nat n /\ ihl * 4 + 8 <= Z.of_nat n
       /\ load8 (p_recvbuf p) (Z.to_nat (ihl * 4)) = 0.
Proof.
  apply (tracer_run_stops_on_echo_reply LittleEndian sample_env sample_cfg
           stale_route fresh_os).
  - reflexivity.
  - cbn. lia.
  - reflexivity.
  - apply Nat.ltb_lt. reflexivity.
Defined.

Lemma tracer_loop_with_setsockopt o f env sa fd n :
  forall ttl out st st',
    fst (tracer_loop o (with_setsockopt f env) sa fd n ttl out st)
    = fst (tracer_loop o env sa fd n ttl out st').
Proof.
  induction n as [|n IH]; intros ttl out st st'; [reflexivity|].
  rewrite !tracer_loop_S. cbv zeta.
  unfold with_setsockopt at 1 2 3 4 5 6.
  cbn [e_probe p_sendto no_reply p_select p_recvfrom].
  change (parsed_type (mk_probe (f ttl) (p_tstart (e_probe env ttl))
            (p_sendto (e_probe env ttl)) (p_select (e_probe env ttl))
            (p_recvfrom (e_probe env ttl)) (p_recvbuf (e_probe env ttl))
            (p_reply_ip (e_probe env ttl)) (p_tend (e_probe env ttl))))
    with (parsed_type (e_probe env ttl)).
  change (reply_hop ttl (mk_probe (f ttl) (p_tstart (e_probe env ttl))
            (p_sendto (e_probe env ttl)) (p_select (e_probe env ttl))
            (p_recvfrom (e_probe env ttl)) (p_recvbuf (e_probe env ttl))
            (p_reply_ip (e_probe env ttl)) (p_tend (e_probe env ttl))))
    with (reply_hop ttl (e_probe env ttl)).
  destruct (ret (p_sendto (e_probe env ttl)) <? 0); [reflexivity|].
  destruct (no_reply (e_probe env ttl)) eqn:E.
  - unfold no_reply in *. cbn [p_select p_recvfrom]. rewrite E. apply IH.
  - unfold no_reply in *. cbn [p_select p_recvfrom]. rewrite E.
    destruct (parsed_type (e_probe env ttl) =? ICMP_ECHOREPLY);
      [reflexivity | apply IH].
Qed.

(** X10.  The result of [net_set_ttl] is not looked at: whatever
    [setsockopt(IP_TTL)] answers for each probe, failures included,
    [tracer_run] returns the same value and the same route.  A probe whose
    TTL could not be set is sent all the same, and its answer is recorded
    under the TTL that was asked for. *)
Theorem tracer_run_ignores_setsockopt
    (o : byte_order) (f : Z -> sys_reply) (env : environment)
    (cfg : CommandLine) (out : TraceRoute) (st : os_state) :
  fst (tracer_run o (with_setsockopt f env) cfg out st)
  = fst (tracer_run o env cfg out st).
Proof.
  destruct (Z.eq_dec (gai_status (e_resolver env)) 0) as [H0 | H0].
  - destruct (Z.lt_ge_cases (ret (e_raw_socket env)) 0) as [H1 | H1].
    + rewrite !tracer_run_no_socket by assumption. reflexivity.
    + rewrite !tracer_run_started by assumption.
      apply tracer_loop_with_setsockopt.
  - rewrite !tracer_run_unresolved by assumption. reflexivity.
Qed.

Lemma grown_append (route : TraceRoute) (h : Hop) :
  grown (len route) (cap route) ->
  grown (len (tracer_append route h)) (cap (tracer_append route h)).
Proof.
  unfold grown, tracer_append.
  destruct route as [r n c]. cbn [len cap rows].
  intros [[-> ->] | (k & -> & Hle & Hk)].
  - cbn [Nat.eqb len cap]. right. exists 0%nat. cbn. lia.
  - assert (Hpos : (0 < 2 ^ k)%nat).
    { clear. induction k; cbn; lia. }
    destruct (Nat.eqb_spec n (16 * 2 ^ k)) as [-> | Hne]; cbn [len cap].
    + destruct (Nat.eqb_spec (16 * 2 ^ k) 0); [lia|].
      right. exists (S k). rewrite Nat.pow_succ_r'. lia.
    + right. exists k. lia.
Qed.

Lemma tracer_loop_grown o env sa fd n ttl out st :
  grown (len out) (cap out) ->
  let out' := snd (fst (tracer_loop o env sa fd n ttl out st)) in
  grown (len out') (cap out').
Proof.
  revert n ttl out st.
  apply (tracer_loop_cases o env sa fd
           (fun n ttl out st res =>
              grown (len out) (cap out) ->
              let out' := snd (fst res) in grown (len out') (cap out')));
    cbv zeta; cbn [fst snd]; auto using grown_append.
Qed.

(** X11.  The table [tracer_run] leaves never holds more rows than were
    allocated, so that [tracer_append] writes inside the block: either it
    is empty with no block, or its capacity is 16 doubled some number of
    times, at least its length and, once it has been doubled, less than
    twice its length. *)
Theorem tracer_run_capacity
    (o : byte_order) (env : environment) (cfg : CommandLine)
    (out : TraceRoute) (st : os_state) :
  let route := snd (fst (tracer_run o env cfg out st)) in
  (len route = 0 /\ cap route = 0)%nat
  \/ exists k : nat,
       (cap route = 16 * 2 ^ k /\ len route <= cap route
        /\ (k = 0 \/ cap route < 2 * len route))%nat.
Proof.
  cbv zeta. fold (grown (len (snd (fst (tracer_run o env cfg out st))))
                    (cap (snd (fst (tracer_run o env cfg out st))))).
  assert (Hempty : grown (len empty_route) (cap empty_route))
    by (left; split; reflexivity).
  destruct (Z.eq_dec (gai_status (e_resolver env)) 0) as [H0 | H0].
  - destruct (Z.lt_ge_cases (ret (e_raw_socket env)) 0) as [H1 | H1].
    + rewrite tracer_run_no_socket by assumption. exact Hempty.
    + rewrite tracer_run_started by assumption.
      apply tracer_loop_grown. exact Hempty.
  - rewrite tracer_run_unresolved by assumption. exact Hempty.
Qed.

End EngineFacts.

(* ================================================================= *)
(** ** The clock and the sleep *)

Section TimeFacts.

Import Tracer Timeutil.

Lemma long_of_small z :
  -9223372036854775808 <= z < 9223372036854775808 -> long_of z = z.
Proof.
  intros H. unfold long_of. rewrite Z.mod_small by lia. lia.
Qed.

Lemma int_of_long_small z :
  -2147483648 <= z < 2147483648 -> int_of_long z = z.
Proof.
  intros H. unfold int_of_long. rewrite Z.mod_small by lia. lia.
Qed.

Lemma now_ms_micros tv :
  timeval_wf tv -> now_ms tv = micros tv / 1000.
Proof.
  intros [Hs Hu]. unfold now_ms, micros.
  rewrite Z.quot_div_nonneg by lia.
  replace (tv_sec tv * 1000000 + tv_usec tv)
    with (tv_usec tv + (tv_sec tv * 1000) * 1000) by lia.
  rewrite Z.div_add by lia. lia.
Qed.

(** X12.  [ms_now] returns -1 when [gettimeofday] fails and otherwise the
    whole milliseconds elapsed since the epoch, which are not negative: -1
    is never a time.  Of two readings the later is not the smaller, and
    [ms_diff] of the two is within one millisecond of the time that
    passed. *)
Theorem ms_now_milliseconds (r : Z) (a b : timeval) :
  timeval_wf a -> timeval_wf b ->
  micros b < 9223372036854775808 ->
  micros a <= micros b ->
  (r <> 0 -> ms_now (r, a) = -1)
  /\ ms_now (0, a) = micros a / 1000
  /\ 0 <= ms_now (0, a) <= ms_now (0, b)
  /\ micros b - micros a - 999
     <= 1000 * ms_diff (ms_now (0, a)) (ms_now (0, b))
     <= micros b - micros a + 999.
Proof.
  intros Ha Hb Hmax Hle.
  assert (E : forall tv, timeval_wf tv -> micros tv < 9223372036854775808 ->
                ms_now (0, tv) = micros tv / 1000).
  { intros tv Htv Hlt. unfold ms_now. cbn [Z.eqb negb].
    fold (now_ms tv). rewrite now_ms_micros by assumption.
    apply long_of_small.
    assert (0 <= micros tv) by (destruct Htv; unfold micros; lia).
    pose proof (Z.div_pos (micros tv) 1000 ltac:(lia) ltac:(lia)).
    pose proof (Z.div_le_upper_bound (micros tv) 1000 (micros tv)
                  ltac:(lia) ltac:(lia)).
    lia. }
  assert (H0 : 0 <= micros a) by (destruct Ha; unfold micros; lia).
  split.
  { intros Hr. unfold ms_now. destruct (Z.eqb_spec r 0); [contradiction|].
    reflexivity. }
  rewrite !E by (assumption || lia).
  split; [reflexivity|].
  unfold ms_diff.
  pose proof (Z.div_mod (micros a) 1000 ltac:(lia)).
  pose proof (Z.div_mod (micros b) 1000 ltac:(lia)).
  pose proof (Z.mod_pos_bound (micros a) 1000 ltac:(lia)).
  pose proof (Z.mod_pos_bound (micros b) 1000 ltac:(lia)).
  pose proof (Z.div_le_mono (micros a) (micros b) 1000 ltac:(lia) Hle).
  pose proof (Z.div_pos (micros a) 1000 ltac:(lia) ltac:(lia)).
  lia.
Qed.

Lemma ms_now_milliseconds_witness :
  (7 <> 0 -> ms_now (7, sample_t0) = -1)
  /\ ms_now (0, sample_t0) = 100
  /\ 0 <= ms_now (0, sample_t0) <= ms_now (0, sample_t1)
  /\ 5000 <= 1000 * ms_diff (ms_now (0, sample_t0)) (ms_now (0, sample_t1))
     <= 6998.
Proof.
  apply (ms_now_milliseconds 7 sample_t0 sample_t1).
  - unfold timeval_wf. cbn. lia.
  - unfold timeval_wf. cbn. lia.
  - unfold micros. cbn. lia.
  - unfold micros. cbn. lia.
Defined.

(** X13.  The round-trip time recorded for an answered probe, taken from
    two readings of the engine's clock [now_ms], is not negative when the
    clock has not gone back, so that it cannot be mistaken for the -1 of a
    timeout, and is within one millisecond of the time that passed, as
    long as that time fits an [int] of milliseconds. *)
Theorem reply_hop_rtt (ttl : Z) (p : probe_reply) (a b : timeval) :
  timeval_wf a -> timeval_wf b ->
  p_tstart p = now_ms a -> p_tend p = now_ms b ->
  micros a <= micros b ->
  micros b - micros a < 2147483647000 ->
  let rtt := rtt_ms (reply_hop ttl p) in
  0 <= rtt
  /\ micros b - micros a - 999 <= 1000 * rtt <= micros b - micros a + 999.
Proof.
  intros Ha Hb Hs He Hle Hmax. cbv zeta.
  unfold reply_hop. cbn [rtt_ms]. rewrite Hs, He, !now_ms_micros by assumption.
  pose proof (Z.div_mod (micros a) 1000 ltac:(lia)).
  pose proof (Z.div_mod (micros b) 1000 ltac:(lia)).
  pose proof (Z.mod_pos_bound (micros a) 1000 ltac:(lia)).
  pose proof (Z.mod_pos_bound (micros b) 1000 ltac:(lia)).
  pose proof (Z.div_le_mono (micros a) (micros b) 1000 ltac:(lia) Hle).
  rewrite int_of_long_small by lia. lia.
Qed.

Lemma reply_hop_rtt_witness :
  0 <= rtt_ms (reply_hop 1 router_probe)
  /\ 5000 <= 1000 * rtt_ms (reply_hop 1 router_probe) <= 6998.
Proof.
  apply (reply_hop_rtt 1 router_probe sample_t0 sample_t1).
  - unfold timeval_wf. cbn. lia.
  - unfold timeval_wf. cbn. lia.
  - reflexivity.
  - reflexivity.
  - unfold micros. cbn. lia.
  - unfold micros. cbn. lia.
Defined.

Lemma sleep_loop_interrupted (cut : list nanosleep_reply) :
  forall final rest req st asked,
    Forall interrupted cut ->
    ~ interrupted final ->
    exists st',
      sleep_loop (cut ++ final :: rest) req st asked
      = (Some (if ret (ns_reply final) =? -1 then -1 else 0),
         asked ++ req :: map ns_rem cut, st').
Proof.
  induction cut as [|r cut IH]; intros final rest req st asked Hcut Hfinal.
  - cbn [app sleep_loop map]. unfold syscall.
    destruct (Z.eqb_spec (ret (ns_reply final)) (-1)) as [E | E].
    + rewrite E. cbn [Z.ltb Z.compare set_errno errno].
      destruct (Z.eqb_spec (err (ns_reply final)) EINTR) as [E' | E'].
      * exfalso. apply Hfinal. split; assumption.
      * cbn [negb]. eexists. reflexivity.
    + eexists. reflexivity.
  - inversion Hcut as [|r' cut' [Hr He] Hcut']; subst.
    cbn [app sleep_loop map]. unfold syscall. rewrite Hr.
    cbn [Z.ltb Z.compare Z.eqb Pos.eqb set_errno errno]. rewrite He.
    cbn [Z.eqb EINTR Pos.eqb negb].
    destruct (IH final rest (ns_rem r) (set_errno EINTR st) (asked ++ [req])
                Hcut' Hfinal) as (st' & ->).
    exists st'. rewrite <- app_assoc. reflexivity.
Qed.

(** X14.  [ms_sleep] with [ms >= 0] first asks [nanosleep] for exactly
    [ms] milliseconds, as a valid [timespec] (nanoseconds below one
    second).  Each time a signal cuts the sleep short it calls again with
    the time that was left, so the sleep is resumed, not started again.
    It returns 0 as soon as a call completes and -1 on the first failure
    that is not [EINTR]; the loop ends as soon as such a call is met. *)
Theorem ms_sleep_resumes_after_signals
    (cut : list nanosleep_reply) (final : nanosleep_reply)
    (rest : list nanosleep_reply) (ms : Z) (st : os_state) :
  0 <= ms ->
  Forall interrupted cut ->
  ~ interrupted final ->
  exists req st',
    ms_sleep (cut ++ final :: rest) ms st
    = (Some (if ret (ns_reply final) =? -1 then -1 else 0),
       req :: map ns_rem cut, st')
    /\ 0 <= ts_sec req /\ 0 <= ts_nsec req < 1000000000
    /\ nanos req = ms * 1000000.
Proof.
  intros Hms Hcut Hfinal. unfold ms_sleep.
  destruct (Z.ltb_spec ms 0); [lia|].
  destruct (sleep_loop_interrupted cut final rest
              (mk_timespec (Z.quot ms 1000) (Z.rem ms 1000 * 1000000)) st []
              Hcut Hfinal) as (st' & ->).
  eexists _, st'. split; [reflexivity|].
  unfold nanos. cbn [ts_sec ts_nsec].
  rewrite Z.quot_div_nonneg, Z.rem_mod_nonneg by lia.
  pose proof (Z.div_mod ms 1000 ltac:(lia)).
  pose proof (Z.mod_pos_bound ms 1000 ltac:(lia)).
  pose proof (Z.div_pos ms 1000 ltac:(lia) ltac:(lia)).
  lia.
Qed.

Lemma ms_sleep_resumes_after_signals_witness :
  exists req st',
    ms_sleep ([sleep_cut] ++ sleep_done :: []) 1500 fresh_os
    = (Some (if ret (ns_reply sleep_done) =? -1 then -1 else 0),
       req :: map ns_rem [sleep_cut], st')
    /\ 0 <= ts_sec req /\ 0 <= ts_nsec req < 1000000000
    /\ nanos req = 1500 * 1000000.
Proof.
  apply (ms_sleep_resumes_after_signals [sleep_cut] sleep_done [] 1500
           fresh_os).
  - lia.
  - constructor; [split; reflexivity | constructor].
  - unfold interrupted. cbn. lia.
Defined.

End TimeFacts.

(* ================================================================= *)
(** ** The log *)

Section LogFacts.

Import Log.

Lemma string_app_assoc (a b c : string) :
  ((a ++ b) ++ c = a ++ (b ++ c))%string.
Proof.
  induction a as [|x a IH]; cbn; [reflexivity | rewrite IH; reflexivity].
Qed.

Lemma string_app_nil_r (a : string) : (a ++ "" = a)%string.
Proof.
  induction a as [|x a IH]; cbn; [reflexivity | rewrite IH; reflexivity].
Qed.

Lemma log_call_run_spec (c : log_call) (st : log_state) :
  log_call_run c st
  = if passes_level (currentLevel st) c
    then mk_log (currentLevel st) (log_stderr st ++ log_line c)
    else st.
Proof.
  destruct c as [l text]. unfold log_call_run, passes_level, log_line.
  cbn [fst snd].
  destruct l; unfold log_debug, log_info, log_warn, log_error,
    write_log_message;
    destruct (currentLevel st); cbn [level_value Z.ltb Z.leb Z.compare];
    reflexivity.
Qed.

(** X15.  After [log_set_level l], any sequence of calls of [log_debug],
    [log_info], [log_warn] and [log_error] leaves the level at [l] and
    adds to [stderr] the lines of exactly the calls whose level is not
    below [l], whole, in the order of the calls, and nothing for the
    others.  A program that never sets the level runs at [LOG_INFO]: its
    debug lines are dropped. *)
Theorem log_level_filters
    (l : LogLevel) (calls : list log_call) (st : log_state) :
  let st' := log_calls_run calls (log_set_level l st) in
  currentLevel st' = l
  /\ log_stderr st'
     = (log_stderr st ++ log_lines (filter (passes_level l) calls))%string
  /\ log_stderr (log_calls_run calls log_start)
     = log_lines (filter (passes_level LOG_INFO) calls).
Proof.
  assert (H : forall l0 out,
            currentLevel (log_calls_run calls (mk_log l0 out)) = l0
            /\ log_stderr (log_calls_run calls (mk_log l0 out))
               = (out ++ log_lines (filter (passes_level l0) calls))%string).
  { induction calls as [|c calls IH]; intros l0 out.
    - cbn. rewrite string_app_nil_r. auto.
    - unfold log_calls_run in *. cbn [fold_left filter].
      rewrite log_call_run_spec. cbn [currentLevel log_stderr].
      destruct (passes_level l0 c).
      + destruct (IH l0 (out ++ log_line c)%string) as [-> ->].
        split; [reflexivity|]. cbn [log_lines fold_right].
        apply string_app_assoc.
      + apply IH. }
  cbv zeta. unfold log_set_level, log_start.
  destruct (H l (log_stderr st)) as [H1 H2].
  destruct (H LOG_INFO ""%string) as [_ H3].
  split; [assumption|]. split; [assumption|]. exact H3.
Qed.

End LogFacts.

(* ================================================================= *)
(** ** The monitor: rolling window and sample series *)

Section RingFacts.

Import Monitor.

Context {double : Type}.

Lemma lastn_snoc (n : nat) (l : list double) (x : double) :
  (S n <= S (length l))%nat ->
  lastn (S n) (l ++ [x]) = lastn n l ++ [x].
Proof.
  intros H. unfold lastn. rewrite length_app. cbn [length].
  replace (length l + 1 - S n)%nat with (length l - n)%nat by lia.
  rewrite skipn_app.
  replace (length l - n - length l)%nat with 0%nat by lia.
  reflexivity.
Qed.

Lemma skipn_S_tl (k : nat) (l : list double) :
  skipn (S k) l = tl (skipn k l).
Proof.
  revert l. induction k as [|k IH]; intros [|y l]; try reflexivity.
  exact (IH l).
Qed.

Lemma ringbuf_push_holds (rb : RingBuffer double) (hist : list double)
    (x : double) :
  ring_holds rb hist ->
  ring_holds (ringbuf_push rb x) (hist ++ [x])
  /\ size (ringbuf_push rb x) = size rb
  /\ head (ringbuf_push rb x) = ((head rb + 1) mod size rb)%nat
  /\ count (ringbuf_push rb x)
     = Nat.min (S (count rb)) (Nat.max (count rb) (size rb)).
Proof.
  intros (Hh & Hl & Hn & Hw).
  unfold ringbuf_push, ring_holds, store_at. cbn [head size values count].
  assert (Hsplit : values rb = firstn (head rb) (values rb)
                                 ++ skipn (head rb) (values rb))
    by (symmetry; apply firstn_skipn).
  destruct (skipn (head rb) (values rb)) as [|y b] eqn:Eb.
  { exfalso. apply (f_equal (@length _)) in Hsplit.
    rewrite length_app, length_firstn in Hsplit. cbn in Hsplit. lia. }
  set (a := firstn (head rb) (values rb)) in *.
  assert (Ha : length a = head rb)
    by (unfold a; rewrite length_firstn; lia).
  assert (Hb : skipn (S (head rb)) (values rb) = b).
  { rewrite skipn_S_tl, Eb. reflexivity. }
  rewrite Hb.
  assert (Hlen : length (a ++ x :: b) = size rb).
  { rewrite <- Hl, Hsplit at 1. rewrite !length_app. cbn. lia. }
  assert (Hlast : lastn (size rb) (hist ++ [x]) = b ++ a ++ [x]).
  { destruct (size rb) as [|n] eqn:En; [lia|].
    rewrite lastn_snoc by lia.
    assert (E : lastn n hist = tl (lastn (S n) hist)).
    { unfold lastn. rewrite <- skipn_S_tl. f_equal. lia. }
    rewrite E, <- Hw. cbn [app tl]. rewrite <- app_assoc. reflexivity. }
  split; [|split; [reflexivity|split; [reflexivity|]]].
  - split; [apply Nat.mod_upper_bound; lia|].
    split; [assumption|].
    split; [rewrite length_app; cbn; lia|].
    rewrite Hlast.
    destruct (Nat.eq_dec (head rb + 1) (size rb)) as [E | E].
    + rewrite E, Nat.Div0.mod_same. cbn [skipn firstn]. rewrite app_nil_r.
      assert (b = []) as ->.
      { apply length_zero_iff_nil.
        rewrite <- E in Hlen. rewrite length_app in Hlen. cbn in Hlen. lia. }
      reflexivity.
    + rewrite Nat.mod_small by lia.
      replace (head rb + 1)%nat with (length (a ++ [x]))
        by (rewrite length_app; cbn; lia).
      replace (a ++ x :: b) with ((a ++ [x]) ++ b)
        by (rewrite <- app_assoc; reflexivity).
      rewrite skipn_app, firstn_app, skipn_all, firstn_all, Nat.sub_diag.
      cbn [skipn firstn app]. rewrite app_nil_r. reflexivity.
  - destruct (Nat.ltb_spec (count rb) (size rb)); lia.
Qed.

Lemma ringbuf_pushes_holds (xs : list double) :
  forall (rb : RingBuffer double) (hist : list double),
    ring_holds rb hist ->
    (count rb <= size rb)%nat ->
    let rb' := ringbuf_pushes xs rb in
    ring_holds rb' (hist ++ xs)
    /\ size rb' = size rb
    /\ head rb' = ((head rb + length xs) mod size rb)%nat
    /\ count rb' = Nat.min (count rb + length xs) (size rb).
Proof.
  induction xs as [|x xs IH]; intros rb hist Hrb Hc; cbv zeta.
  - cbn [ringbuf_pushes fold_left length]. rewrite app_nil_r, Nat.add_0_r.
    split; [assumption|]. split; [reflexivity|].
    split; [|lia].
    destruct Hrb as (Hh & _). rewrite Nat.mod_small by lia. reflexivity.
  - unfold ringbuf_pushes. cbn [fold_left].
    fold (ringbuf_pushes xs (ringbuf_push rb x)).
    destruct (ringbuf_push_holds rb hist x Hrb) as (H1 & H2 & Hh & H3).
    destruct (IH (ringbuf_push rb x) (hist ++ [x]) H1 ltac:(lia))
      as (H4 & H5 & Hh' & H6).
    rewrite <- app_assoc in H4. cbn [app] in H4.
    split; [assumption|]. split; [congruence|].
    split.
    + rewrite Hh', Hh, H2. cbn [length].
      destruct Hrb as (Hpos & _).
      rewrite Nat.Div0.add_mod_idemp_l. f_equal. lia.
    + rewrite H6, H3, H2. cbn [length]. lia.
Qed.

Variable zero : double.

Lemma ring_holds_create (n : nat) :
  (0 < n)%nat ->
  ring_holds (mk_ring (repeat zero n) n 0 0) (repeat zero n).
Proof.
  intros Hn. unfold ring_holds, lastn. cbn [head size values].
  rewrite repeat_length, Nat.sub_diag. cbn [skipn firstn].
  rewrite app_nil_r. auto.
Qed.

Lemma app_eq_length_r (a b c d : list double) :
  a ++ b = c ++ d -> length b = length d -> a = c /\ b = d.
Proof.
  intros H Hl.
  assert (Ha : length a = length c).
  { apply (f_equal (@length _)) in H. rewrite !length_app in H. lia. }
  revert c H Ha. induction a as [|x a IH]; intros [|y c] H Ha;
    try discriminate; cbn in *.
  - auto.
  - injection H as -> H. destruct (IH c H ltac:(lia)) as [-> ->]. auto.
Qed.

(** X16.  A ring buffer created with [n > 0] slots and then given the
    values [xs] stays inside its array ([head < size], [size] slots) and
    counts [min (length xs) n] values.  The slots [ringbuf_average] sums
    are exactly the last [min (length xs) n] values pushed, each once, in
    the order of the array (a rotation of the order of arrival); it
    divides their sum by their number, and returns 0.0 when nothing was
    pushed. *)
Theorem ringbuf_average_window
    (n : nat) (xs : list double) (rb0 : RingBuffer double) :
  (0 < n)%nat ->
  ringbuf_create zero true true n = Some rb0 ->
  let rb := ringbuf_pushes xs rb0 in
  let w := firstn (count rb) (values rb) in
  (head rb < size rb)%nat /\ size rb = n /\ length (values rb) = n
  /\ count rb = Nat.min (length xs) n
  /\ (exists a b, lastn (count rb) xs = a ++ b /\ w = b ++ a)
  /\ forall add div_count,
       ringbuf_average zero add div_count rb
       = match xs with
         | [] => zero
         | _ :: _ => div_count (fold_left add w zero) (Nat.min (length xs) n)
         end.
Proof.
  intros Hn Hc. unfold ringbuf_create in Hc. cbn [negb] in Hc.
  injection Hc as <-.
  destruct (ringbuf_pushes_holds xs _ _ (ring_holds_create n Hn))
    as ((Hh & Hl & Hlen & Hw) & Hs & Hhead & Hcount); [cbn; lia|].
  cbn [size count head] in Hs, Hcount, Hhead.
  cbn [Nat.add] in Hcount, Hhead.
  cbv zeta. set (rb := ringbuf_pushes xs (mk_ring (repeat zero n) n 0 0)) in *.
  rewrite Hs in *.
  split; [assumption|]. split; [reflexivity|]. split; [assumption|].
  split; [assumption|].
  split.
  - rewrite Hcount.
    destruct (Nat.le_gt_cases n (length xs)) as [Hfull | Hpart].
    + rewrite Nat.min_r by assumption.
      exists (skipn (head rb) (values rb)), (firstn (head rb) (values rb)).
      rewrite Hw, firstn_skipn.
      split; [|apply firstn_all2; lia].
      unfold lastn. rewrite length_app, repeat_length.
      replace (n + length xs - n)%nat with ((length xs - n) + n)%nat by lia.
      rewrite <- skipn_skipn.
      rewrite (skipn_app n), repeat_length, Nat.sub_diag.
      rewrite (skipn_all2 (repeat zero n)) by (rewrite repeat_length; lia).
      reflexivity.
    + rewrite Nat.min_l by lia.
      exists [], xs. rewrite app_nil_r.
      split; [unfold lastn; rewrite Nat.sub_diag; reflexivity|].
      unfold lastn in Hw. rewrite length_app, repeat_length in Hw.
      replace (n + length xs - n)%nat with (length xs) in Hw by lia.
      rewrite skipn_app, repeat_length in Hw.
      replace (length xs - n)%nat with 0%nat in Hw by lia.
      cbn [skipn] in Hw.
      rewrite Nat.mod_small in Hhead by lia.
      apply app_eq_length_r in Hw as [_ Hw];
        [|rewrite length_firstn; lia].
      rewrite <- Hhead. exact Hw.
  - intros add div_count. unfold ringbuf_average. rewrite Hcount.
    destruct xs as [|x xs]; [reflexivity|].
    cbn [length]. destruct n as [|n']; [lia|]. reflexivity.
Qed.

End RingFacts.

Lemma ringbuf_average_window_witness :
  let rb := ringbuf_pushes sample_rates
              (Monitor.mk_ring (repeat 0 Monitor.WINDOW_SIZE)
                 Monitor.WINDOW_SIZE 0 0) in
  let w := firstn (Monitor.count rb) (Monitor.values rb) in
  (Monitor.head rb < Monitor.size rb)%nat
  /\ Monitor.size rb = Monitor.WINDOW_SIZE
  /\ length (Monitor.values rb) = Monitor.WINDOW_SIZE
  /\ Monitor.count rb = Nat.min (length sample_rates) Monitor.WINDOW_SIZE
  /\ (exists a b,
        lastn (Monitor.count rb) sample_rates = a ++ b /\ w = b ++ a)
  /\ forall add div_count,
       Monitor.ringbuf_average 0 add div_count rb
       = div_count (fold_left add w 0)
           (Nat.min (length sample_rates) Monitor.WINDOW_SIZE).
Proof.
  apply (ringbuf_average_window 0 Monitor.WINDOW_SIZE sample_rates
           (Monitor.mk_ring (repeat 0 Monitor.WINDOW_SIZE)
              Monitor.WINDOW_SIZE 0 0)).
  - unfold Monitor.WINDOW_SIZE. lia.
  - reflexivity.
Defined.

Section SeriesFacts.

Import Monitor.

Context {sample : Type}.

Lemma store_at_end (a : list sample) (x : sample) :
  store_at a (length a) x = a ++ [x].
Proof.
  unfold store_at. rewrite firstn_all, skipn_all2 by (cbn; lia). reflexivity.
Qed.

(** What one append does to a well-formed series: the sample is left out
    when the series is full and [realloc] fails, and stored after the
    others otherwise. *)
Lemma monitor_append_spec (ok : bool) (s : MonitorSeries sample)
    (x : sample) :
  series_wf s ->
  exists s',
    monitor_append ok (Some s) x = Some s'
    /\ series_wf s'
    /\ stored_samples s'
       = stored_samples s
         ++ (if (Monitor.len s =? Monitor.cap s)%nat && negb ok
             then [] else [x]).
Proof.
  intros [Hcap Hrows].
  destruct s as [[a|] n c]; cbn [samples Monitor.len Monitor.cap] in *.
  - subst n. unfold monitor_append, series_wf, stored_samples.
    cbn [samples Monitor.len Monitor.cap].
    destruct (Nat.eqb_spec (length a) c) as [E | E]; cbn [andb].
    + destruct ok; cbn [negb].
      * eexists. split; [reflexivity|].
        cbn [samples Monitor.len Monitor.cap option_map].
        rewrite store_at_end, length_app, firstn_all. cbn [length].
        rewrite Nat.add_1_r, firstn_all2 by (rewrite length_app; cbn; lia).
        split; [|reflexivity]. split; [|reflexivity].
        destruct (Nat.eqb_spec c 0); lia.
      * eexists. split; [reflexivity|].
        cbn [samples Monitor.len Monitor.cap].
        rewrite app_nil_r. split; [|reflexivity]. split; [lia | reflexivity].
    + eexists. split; [reflexivity|].
      cbn [samples Monitor.len Monitor.cap option_map].
      rewrite store_at_end, length_app, firstn_all. cbn [length].
      rewrite Nat.add_1_r, firstn_all2 by (rewrite length_app; cbn; lia).
      split; [|reflexivity]. split; [lia | reflexivity].
  - destruct Hrows as [-> ->].
    unfold monitor_append, series_wf, stored_samples.
    cbn [samples Monitor.len Monitor.cap Nat.eqb andb].
    destruct ok; cbn [negb].
    + eexists. split; [reflexivity|]. cbn. split; [|reflexivity].
      split; [lia | reflexivity].
    + eexists. split; [reflexivity|]. cbn. split; [|reflexivity].
      split; [lia | auto].
Qed.

(** X17.  Appending samples to a well-formed series keeps it well formed
    ([len <= cap], so that the write is inside the block) and never
    loses, reorders or changes a sample already stored: the series ends
    with its former samples followed by some of those offered, in the
    order they were offered.  A sample is left out only when [realloc]
    fails; when it never fails, all of them are stored.  After
    [monitorseries_free] the series is empty and well formed again. *)
Theorem monitor_append_keeps_samples
    (steps : list (bool * sample)) (s : MonitorSeries sample) :
  series_wf s ->
  exists s' kept,
    monitor_appends steps (Some s) = Some s'
    /\ series_wf s'
    /\ stored_samples s' = stored_samples s ++ kept
    /\ subseq kept (map snd steps)
    /\ (Forall (fun step => fst step = true) steps -> kept = map snd steps)
    /\ exists s0,
         monitorseries_free (Some s') = Some s0
         /\ series_wf s0 /\ stored_samples s0 = [].
Proof.
  revert s. induction steps as [|[ok x] steps IH]; intros s Hwf.
  - exists s, []. rewrite app_nil_r.
    split; [reflexivity|]. split; [assumption|]. split; [reflexivity|].
    split; [constructor|]. split; [reflexivity|].
    eexists. split; [reflexivity|].
    unfold series_wf, stored_samples. cbn. auto.
  - destruct (monitor_append_spec ok s x Hwf) as (s1 & E1 & Hwf1 & Hst1).
    destruct (IH s1 Hwf1)
      as (s' & kept & E & Hwf' & Hst & Hsub & Hall & Hfree).
    exists s'.
    exists ((if (Monitor.len s =? Monitor.cap s)%nat && negb ok
             then [] else [x]) ++ kept).
    unfold monitor_appends in *. cbn [fold_left fst snd map length].
    rewrite E1, E. split; [reflexivity|]. split; [assumption|].
    split; [rewrite Hst, Hst1, app_assoc; reflexivity|].
    split.
    + destruct ((Monitor.len s =? Monitor.cap s)%nat && negb ok);
        cbn [app]; constructor; assumption.
    + split; [|exact Hfree].
      intros Hok. inversion Hok as [|? ? Hok1 Hok2]; subst.
      cbn [fst] in Hok1. subst ok. rewrite andb_false_r.
      rewrite (Hall Hok2). reflexivity.
Qed.

End SeriesFacts.

Lemma monitor_append_keeps_samples_witness :
  exists s' kept,
    monitor_appends sample_steps (Some empty_series) = Some s'
    /\ series_wf s'
    /\ stored_samples s' = stored_samples empty_series ++ kept
    /\ subseq kept (map snd sample_steps)
    /\ (Forall (fun step => fst step = true) sample_steps ->
        kept = map snd sample_steps)
    /\ exists s0,
         Monitor.monitorseries_free (Some s') = Some s0
         /\ series_wf s0 /\ stored_samples s0 = [].
Proof.
  apply (monitor_append_keeps_samples sample_steps empty_series).
  unfold series_wf. cbn. lia.
Defined.
